(** * Polite crawl scheduling: robots.txt checker, rate limiter, scraper

    A shallow embedding of

      - [src/scraper/robots-checker.js]  (class [RobotsChecker]),
      - [src/utils/rate-limiter.js]      (class [RateLimiter]),
      - [src/scraper/extractor.js]       (class [Scraper]: [scrapeUrl], [scrapeUrls];
                                          class [DataExtractor]: [trySelectors]),
      - [src/utils/validators.js]        ([cleanText]),
      - [src/utils/output-writer.js]     ([extractRecords]),
      - [scripts/run-scraper.js]         ([calculateStats]),

    together with the properties of the scheduling core and of what
    feeds it and reads its results.

    Conventions of the embedding.

      - JavaScript numbers that the code uses as counters, limits, HTTP
        statuses and millisecond durations are integers [Z].
      - A [Map] is a [gmap]; [undefined]/[null] is [None].
      - An [async] method is a function on an explicit state.  Everything
        outside the repository (the WHATWG [URL] parser, the network behind
        [axios], the [robots-parser] package, the timers behind
        [setTimeout], the Playwright browser) is a parameter of the model.
      - A [catch]able JavaScript exception is the [Throw] case of
        [completion].
      - Polling loops take fuel; [None] means "still polling when the fuel
        ran out", never an exception. *)

From Stdlib Require Import ZArith Lia List String Ascii Bool DecimalString.
From stdpp Require Import gmap strings list.

Open Scope Z_scope.

(* ===================================================================== *)
(** ** JavaScript values used by the code *)
(* ===================================================================== *)

Module Js.

(** An [Error] object: the code only ever reads [error.message]. *)
Record Error := mkError { message : string }.

(** The outcome of evaluating a call: a value, or a thrown exception. *)
Inductive completion (A : Type) : Type :=
| Normal (a : A)
| Throw (e : Error).
Arguments Normal {A} a.
Arguments Throw {A} e.

(** Truthiness of a number or [undefined] ([x || d], [x ? a : b]). *)
Definition truthyNum (x : option Z) : bool :=
  match x with
  | Some n => negb (n =? 0)
  | None => false
  end.

(** [x || d] on numbers. *)
Definition orNum (x : option Z) (d : Z) : Z :=
  match x with
  | Some n => if n =? 0 then d else n
  | None => d
  end.

(** Truthiness of a boolean or [undefined]. *)
Definition truthyBool (x : option bool) : bool :=
  match x with
  | Some b => b
  | None => false
  end.

(** Truthiness of a string or [null]. *)
Definition truthyStr (x : option string) : bool :=
  match x with
  | Some EmptyString => false
  | Some _ => true
  | None => false
  end.

(** Template-literal rendering of an integer. *)
Definition showZ (z : Z) : string := NilZero.string_of_int (Z.to_int z).

(** [s.includes(sub)]. *)
Fixpoint includes (sub s : string) : bool :=
  String.prefix sub s ||
  match s with
  | EmptyString => false
  | String _ rest => includes sub rest
  end.

(** [\d]: an ASCII decimal digit, with its value. *)
Definition digit (c : ascii) : option Z :=
  let n := Z.of_N (N_of_ascii c) in
  if (48 <=? n) && (n <=? 57) then Some (n - 48) else None.

(** [parseInt(s.match(/(\d{3})/)[1])]: the first run of three digits. *)
Fixpoint matchThreeDigits (s : string) : option Z :=
  match s with
  | String a ((String b (String c _)) as rest) =>
      match digit a, digit b, digit c with
      | Some x, Some y, Some z => Some (100 * x + 10 * y + z)
      | _, _, _ => matchThreeDigits rest
      end
  | _ => None
  end.

(** The parts of a WHATWG [URL] object that the code and the
    [robots-parser] package read. *)
Record URL := mkURL { protocol : string; hostname : string; port : string }.

End Js.
Import Js.

(* ===================================================================== *)
(** ** [src/scraper/robots-checker.js] *)
(* ===================================================================== *)

Module RobotsChecker.

(** A parser object returned by [robotsParser(url, contents)].  Its two
    methods belong to the [robots-parser] package: [isAllowed] answers
    [true], [false] or [undefined]; [getCrawlDelay] answers a number of
    seconds or [undefined].  Either may throw. *)
Record Robots := mkRobots {
  parser_isAllowed : string -> string -> completion (option bool);
  parser_getCrawlDelay : string -> completion (option Z)
}.

(** What the network answers to one HTTP GET. *)
Inductive NetReply :=
| HttpReply (status : Z) (data : string)
| NetFailure (msg : string).

Record Response := mkResponse { status : Z; data : string }.

Inductive Level := debug | info | warn | error.

(** The singleton's state: the cache and the timeout of the class, and
    two ghost fields, the URLs requested through [axios.get] and the
    lines handed to the logger. *)
Record t := mk {
  robotsCache : gmap string Robots;
  fetchTimeout : Z;
  requests : list string;
  log : list (Level * string)
}.

Definition constructor : t :=
  {| robotsCache := ∅; fetchTimeout := 5000; requests := []; log := [] |}.

Definition logger (l : Level) (msg : string) (s : t) : t :=
  {| robotsCache := robotsCache s; fetchTimeout := fetchTimeout s;
     requests := requests s; log := log s ++ [(l, msg)] |}.

Definition set_cache (c : gmap string Robots) (s : t) : t :=
  {| robotsCache := c; fetchTimeout := fetchTimeout s;
     requests := requests s; log := log s |}.

Definition record_request (u : string) (s : t) : t :=
  {| robotsCache := robotsCache s; fetchTimeout := fetchTimeout s;
     requests := requests s ++ [u]; log := log s |}.

Section Platform.

(** [new URL(url)]: [None] when the constructor throws. *)
Variable URL_parse : string -> option URL.
(** The reply of the network to the [k]-th request of the run. *)
Variable network : nat -> string -> NetReply.
(** The [robots-parser] package. *)
Variable robotsParser : string -> string -> completion Robots.

(** [axios.get(url, { validateStatus: status => status < 500, ... })]:
    resolves when the predicate accepts the status, rejects otherwise
    and on every network failure or timeout. *)
Definition axios_get (url : string) (s : t) : completion Response * t :=
  let reply := network (length (requests s)) url in
  let s := record_request url s in
  match reply with
  | HttpReply st body =>
      if st <? 500 then (Normal (mkResponse st body), s)
      else (Throw (mkError ("Request failed with status code " +:+ showZ st)), s)
  | NetFailure msg => (Throw (mkError msg), s)
  end.

Definition getDomain (url : string) (s : t) : option string * t :=
  match URL_parse url with
  | Some urlObj => (Some (protocol urlObj +:+ "//" +:+ hostname urlObj), s)
  | None => (None, logger warn ("Invalid URL for domain extraction: " +:+ url) s)
  end.

Definition fetchRobotsTxt (domain : string) (s : t) : string * t :=
  let robotsUrl := domain +:+ "/robots.txt" in
  let s := logger debug ("Fetching robots.txt from " +:+ robotsUrl) s in
  match axios_get robotsUrl s with
  | (Normal response, s) =>
      if status response =? 200 then (data response, s)
      else
        (EmptyString,
         logger debug ("No robots.txt found at " +:+ robotsUrl +:+ " (status: "
                       +:+ showZ (status response) +:+ ")") s)
  | (Throw e, s) =>
      (EmptyString,
       logger warn ("Error fetching robots.txt from " +:+ robotsUrl +:+ ": "
                    +:+ message e) s)
  end.

Definition getRobotsParser (domain : string) (s : t) : completion Robots * t :=
  match robotsCache s !! domain with
  | Some parser => (Normal parser, s)
  | None =>
      let '(robotsTxt, s) := fetchRobotsTxt domain s in
      match robotsParser (domain +:+ "/robots.txt") robotsTxt with
      | Normal parser =>
          (Normal parser, set_cache (<[domain := parser]> (robotsCache s)) s)
      | Throw e => (Throw e, s)
      end
  end.

(** The [catch] block of [isAllowed]. *)
Definition isAllowed_catch (url : string) (s : t) : option bool * t :=
  (Some false, logger error ("Error checking robots.txt for " +:+ url +:+ ":") s).

Definition isAllowed (url userAgent : string) (s : t) : option bool * t :=
  let '(domain, s) := getDomain url s in
  if negb (truthyStr domain) then
    (Some false, logger warn ("Cannot determine domain for URL: " +:+ url) s)
  else
    match getRobotsParser (default EmptyString domain) s with
    | (Throw _, s) => isAllowed_catch url s
    | (Normal parser, s) =>
        match parser_isAllowed parser url userAgent with
        | Throw _ => isAllowed_catch url s
        | Normal allowed =>
            let s := if negb (truthyBool allowed)
                     then logger info ("robots.txt disallows: " +:+ url) s
                     else s in
            (allowed, s)
        end
    end.

Record Check := mkCheck { allowed : option bool; reason : string }.

Definition checkUrl (url userAgent : string) (s : t) : Check * t :=
  let '(allowed, s) := isAllowed url userAgent s in
  ({| allowed := allowed;
      reason := if truthyBool allowed then EmptyString
                else "Disallowed by robots.txt" |}, s).

(** The [catch] block of [getCrawlDelay]. *)
Definition getCrawlDelay_catch (domain : string) (s : t) : Z * t :=
  (0, logger error ("Error getting crawl delay for " +:+ domain +:+ ":") s).

Definition getCrawlDelay (domain userAgent : string) (s : t) : Z * t :=
  match getRobotsParser domain s with
  | (Throw _, s) => getCrawlDelay_catch domain s
  | (Normal parser, s) =>
      match parser_getCrawlDelay parser userAgent with
      | Throw _ => getCrawlDelay_catch domain s
      | Normal delay =>
          ((if truthyNum delay then default 0 delay * 1000 else 0), s)
      end
  end.

Definition clearCache (s : t) : t :=
  logger debug "Robots.txt cache cleared" (set_cache ∅ s).

Record CacheStats := mkCacheStats { cachedDomains : nat; domains : list string }.

Definition getCacheStats (s : t) : CacheStats :=
  {| cachedDomains := size (robotsCache s);
     domains := (map_to_list (robotsCache s)).*1 |}.

(** Any call of the public interface other than [clearCache]. *)
Inductive Call :=
| CallGetRobotsParser (domain : string)
| CallIsAllowed (url userAgent : string)
| CallCheckUrl (url userAgent : string)
| CallGetCrawlDelay (domain userAgent : string)
| CallGetCacheStats.

Definition call (c : Call) (s : t) : t :=
  match c with
  | CallGetRobotsParser d => (getRobotsParser d s).2
  | CallIsAllowed u a => (isAllowed u a s).2
  | CallCheckUrl u a => (checkUrl u a s).2
  | CallGetCrawlDelay d a => (getCrawlDelay d a s).2
  | CallGetCacheStats => s
  end.

Definition calls (cs : list Call) (s : t) : t := fold_left (fun s c => call c s) cs s.

(** The [robots-parser] contract for an empty file: every URL of the
    file's own origin (same protocol, host and port) is allowed. *)
Definition sameOrigin (a b : string) : Prop :=
  match URL_parse a, URL_parse b with
  | Some x, Some y =>
      protocol x = protocol y /\ hostname x = hostname y /\ port x = port y
  | _, _ => False
  end.

Definition empty_file_allows : Prop :=
  forall robotsUrl, exists p,
    robotsParser robotsUrl EmptyString = Normal p /\
    forall url ua, sameOrigin url robotsUrl ->
                   parser_isAllowed p url ua = Normal (Some true).

(** The [robots-parser] contract for a URL outside the scope of the
    file: for a URL whose origin (protocol, host or port) is not the
    file's, [isAllowed] has no answer and returns [undefined]. *)
Definition foreign_undefined : Prop :=
  forall robotsUrl contents p url ua,
    robotsParser robotsUrl contents = Normal p ->
    ~ sameOrigin url robotsUrl ->
    parser_isAllowed p url ua = Normal None.

End Platform.

(** Every request on record fetched the robots.txt of an origin that is
    in the cache, one request for each origin, and no robots.txt was
    fetched twice. *)
Definition coherent (s : t) : Prop :=
  NoDup (requests s) /\
  length (requests s) = size (robotsCache s) /\
  forall u, u ∈ requests s <->
            exists d, is_Some (robotsCache s !! d) /\ u = d +:+ "/robots.txt".

End RobotsChecker.


(* ===================================================================== *)
(** ** [src/utils/rate-limiter.js] *)
(* ===================================================================== *)

Module RateLimiter.

(** The [options] object of the constructor; [None] is a missing (or
    [NaN]) entry. *)
Record Options := mkOptions {
  concurrency : option Z;
  opt_perDomainConcurrency : option Z;
  opt_requestDelay : option Z;
  opt_maxRetries : option Z;
  opt_backoffBase : option Z
}.

Record t := mk {
  globalConcurrency : Z;
  perDomainConcurrency : Z;
  requestDelay : Z;
  maxRetries : Z;
  backoffBase : Z;
  domainQueues : gmap string unit;
  domainActive : gmap string Z;
  lastRequestTime : gmap string Z;
  globalActive : Z
}.

(** The constructor has no [throw]: it always completes normally. *)
Definition constructor (options : Options) : completion t :=
  Normal
    {| globalConcurrency := orNum (concurrency options) 3;
       perDomainConcurrency := orNum (opt_perDomainConcurrency options) 1;
       requestDelay := orNum (opt_requestDelay options) 2000;
       maxRetries := orNum (opt_maxRetries options) 3;
       backoffBase := orNum (opt_backoffBase options) 2;
       domainQueues := ∅;
       domainActive := ∅;
       lastRequestTime := ∅;
       globalActive := 0 |}.

Definition set_counters (ga : Z) (da : gmap string Z) (s : t) : t :=
  {| globalConcurrency := globalConcurrency s;
     perDomainConcurrency := perDomainConcurrency s;
     requestDelay := requestDelay s;
     maxRetries := maxRetries s;
     backoffBase := backoffBase s;
     domainQueues := domainQueues s;
     domainActive := da;
     lastRequestTime := lastRequestTime s;
     globalActive := ga |}.

Definition set_lastRequestTime (lt : gmap string Z) (s : t) : t :=
  {| globalConcurrency := globalConcurrency s;
     perDomainConcurrency := perDomainConcurrency s;
     requestDelay := requestDelay s;
     maxRetries := maxRetries s;
     backoffBase := backoffBase s;
     domainQueues := domainQueues s;
     domainActive := domainActive s;
     lastRequestTime := lt;
     globalActive := globalActive s |}.

Definition calculateBackoff (s : t) (attempt : Z) : Z :=
  requestDelay s * backoffBase s ^ attempt.

Definition canRequestDomain (s : t) (domain : string) : bool :=
  let active := orNum (domainActive s !! domain) 0 in
  active <? perDomainConcurrency s.

Definition shouldRetry (error : Error) : bool :=
  if includes "timeout" (message error) then true
  else if includes "ECONNRESET" (message error) then true
  else if includes "ETIMEDOUT" (message error) then true
  else
    match matchThreeDigits (message error) with
    | Some status => (status =? 429) || (500 <=? status)
    | None => false
    end.

(** The statements after [enforceDelay] in [execute]: "Increment counters". *)
Definition increment (domain : string) (now : Z) (s : t) : t :=
  let s := set_counters (globalActive s + 1)
             (<[domain := orNum (domainActive s !! domain) 0 + 1]> (domainActive s)) s in
  set_lastRequestTime (<[domain := now]> (lastRequestTime s)) s.

(** The [finally] block of [execute]: "Decrement counters". *)
Definition decrement (domain : string) (s : t) : t :=
  set_counters (globalActive s - 1)
    (<[domain := orNum (domainActive s !! domain) 1 - 1]> (domainActive s)) s.

Record Stats := mkStats {
  stat_globalActive : Z;
  domainsTracked : nat;
  domainBreakdown : gmap string Z
}.

Definition getStats (s : t) : Stats :=
  {| stat_globalActive := globalActive s;
     domainsTracked := size (domainActive s);
     domainBreakdown := domainActive s |}.

(** *** Running [execute]

    Ghost events recorded while [execute] runs; they do not influence it. *)
Inductive Why := PollGlobal | PollDomain | Spacing | Backoff.

Inductive Event :=
| EvSleep (why : Why) (ms : Z)
    (** [await this.sleep(ms)] *)
| EvAdmit (domain : string) (now : Z)
    (** the counters were incremented and [lastRequestTime] was set, at
        time [now] *)
| EvRelease (domain : string)
    (** a [finally] block ran *)
| EvCounters (ga : Z) (da : gmap string Z)
    (** the counters after an increment or a decrement *)
| EvCall (k : nat)
    (** [fn()] was invoked for the [k]-th time *)
| EvLog (line : string).
    (** [console.log] *)

(** One invocation of the unit of work: the time it took and how it
    ended. *)
Record Outcome (A : Type) := mkOutcome { took : Z; result : completion A }.
Arguments mkOutcome {A} took result.
Arguments took {A} o.
Arguments result {A} o.

(** The limiter, the wall clock, the number of invocations of [fn] so
    far, the trace, and [deferred]: the domain of a caller's [finally]
    block that has not run yet.  [return this.execute(...)] is not
    awaited inside the [try], so the callee starts, runs up to its first
    [await], and only then does the caller's [finally] run. *)
Record Run := mkRun {
  self : t;
  clock : Z;
  fnCalls : nat;
  deferred : option string;
  trace : list Event
}.

Definition start (s : t) (now : Z) : Run :=
  {| self := s; clock := now; fnCalls := 0%nat; deferred := None; trace := [] |}.

Definition emit (e : Event) (r : Run) : Run :=
  {| self := self r; clock := clock r; fnCalls := fnCalls r;
     deferred := deferred r; trace := trace r ++ [e] |}.

Definition set_self (s : t) (r : Run) : Run :=
  {| self := s; clock := clock r; fnCalls := fnCalls r;
     deferred := deferred r; trace := trace r |}.

Definition advance (ms : Z) (r : Run) : Run :=
  {| self := self r; clock := clock r + ms; fnCalls := fnCalls r;
     deferred := deferred r; trace := trace r |}.

Definition defer (domain : string) (r : Run) : Run :=
  {| self := self r; clock := clock r; fnCalls := fnCalls r;
     deferred := Some domain; trace := trace r |}.

(** The [finally] block, with its ghost events. *)
Definition release (domain : string) (r : Run) : Run :=
  let s := decrement domain (self r) in
  emit (EvCounters (globalActive s) (domainActive s))
    (emit (EvRelease domain) (set_self s r)).

(** A suspension point ([await]): control returns to the caller, whose
    pending [finally] block runs. *)
Definition suspend (r : Run) : Run :=
  match deferred r with
  | Some domain =>
      release domain
        {| self := self r; clock := clock r; fnCalls := fnCalls r;
           deferred := None; trace := trace r |}
  | None => r
  end.

Section Platform.

(** [new URL(url)]: [None] when the constructor throws. *)
Variable URL_parse : string -> option URL.
(** The time that passes while [setTimeout(resolve, ms)] is awaited. *)
Variable timer : Z -> Z.

Definition getDomain (url : string) : string :=
  match URL_parse url with
  | Some u => hostname u
  | None => "unknown"
  end.

Definition sleep (why : Why) (ms : Z) (r : Run) : Run :=
  advance (timer ms) (emit (EvSleep why ms) (suspend r)).

Definition enforceDelay (domain : string) (r : Run) : Run :=
  let r :=
    match lastRequestTime (self r) !! domain with
    | Some lastTime =>
        if lastTime =? 0 then r
        else
          let elapsed := clock r - lastTime in
          if elapsed <? requestDelay (self r)
          then sleep Spacing (requestDelay (self r) - elapsed) r
          else r
    | None => r
    end in
  suspend r.

(** [while (this.globalActive >= this.globalConcurrency) await this.sleep(100)] *)
Fixpoint waitGlobal (fuel : nat) (r : Run) : option Run :=
  match fuel with
  | O => None
  | S fuel =>
      if globalConcurrency (self r) <=? globalActive (self r)
      then waitGlobal fuel (sleep PollGlobal 100 r)
      else Some r
  end.

(** [while (!this.canRequestDomain(domain)) await this.sleep(100)] *)
Fixpoint waitDomain (fuel : nat) (domain : string) (r : Run) : option Run :=
  match fuel with
  | O => None
  | S fuel =>
      if negb (canRequestDomain (self r) domain)
      then waitDomain fuel domain (sleep PollDomain 100 r)
      else Some r
  end.

Definition acquire (domain : string) (r : Run) : Run :=
  let s := increment domain (clock r) (self r) in
  emit (EvCounters (globalActive s) (domainActive s))
    (emit (EvAdmit domain (clock r)) (set_self s r)).

(** [await fn()] *)
Definition invoke {A} (fn : nat -> Outcome A) (r : Run) : completion A * Run :=
  let o := fn (fnCalls r) in
  let r := emit (EvCall (fnCalls r)) (suspend r) in
  (result o,
   {| self := self r; clock := clock r + took o; fnCalls := S (fnCalls r);
      deferred := deferred r; trace := trace r |}).

Definition retryLine (s : t) (url : string) (attempt backoffDelay : Z) : string :=
  "Retry " +:+ showZ (attempt + 1) +:+ "/" +:+ showZ (maxRetries s) +:+ " for "
  +:+ url +:+ " after " +:+ showZ backoffDelay +:+ "ms".

Fixpoint execute {A} (fuel : nat) (url : string) (fn : nat -> Outcome A)
    (attempt : Z) (r : Run) : option (completion A * Run) :=
  match fuel with
  | O => None
  | S fuel' =>
      let domain := getDomain url in
      r ← waitGlobal fuel r;
      r ← waitDomain fuel domain r;
      let r := enforceDelay domain r in
      let r := acquire domain r in
      match invoke fn r with
      | (Normal result, r) => Some (Normal result, release domain r)
      | (Throw error, r) =>
          if (attempt <? maxRetries (self r)) && shouldRetry error then
            let backoffDelay := calculateBackoff (self r) attempt in
            let r := emit (EvLog (retryLine (self r) url attempt backoffDelay)) r in
            let r := sleep Backoff backoffDelay r in
            execute fuel' url fn (attempt + 1) (defer domain r)
          else Some (Throw error, release domain r)
      end
  end.

End Platform.

(** *** Vocabulary of the properties *)

Definition config (s : t) : Z * Z * Z * Z * Z :=
  (globalConcurrency s, perDomainConcurrency s, requestDelay s, maxRetries s,
   backoffBase s).

(** No request is active. *)
Definition quiet (s : t) : Prop :=
  globalActive s = 0 /\ forall d n, domainActive s !! d = Some n -> n = 0.

(** Exactly one request is active, on [domain]. *)
Definition held (domain : string) (s : t) : Prop :=
  globalActive s = 1 /\ domainActive s !! domain = Some 1 /\
  forall d n, d <> domain -> domainActive s !! d = Some n -> n = 0.

(** The counters recorded by an event respect the limits [g] and [k]. *)
Definition within (g k : Z) (e : Event) : Prop :=
  match e with
  | EvCounters ga da =>
      0 <= ga <= g /\ forall d n, da !! d = Some n -> 0 <= n <= k
  | _ => True
  end.

(** The request starts on record after the trace [tr], when [m] was on
    record before it. *)
Definition starts (m : gmap string Z) (tr : list Event) : gmap string Z :=
  fold_left (fun m e => match e with EvAdmit d now => <[d := now]> m | _ => m end)
    tr m.

(** Every admission of the trace comes at least [d] after the request
    start on record for its host: the previous admission for that host in
    the trace, or the entry of [m] when there is none.  A record of 0
    counts as no record, as in [if (lastTime)]. *)
Fixpoint spacing (d : Z) (m : gmap string Z) (tr : list Event) : Prop :=
  match tr with
  | [] => True
  | EvAdmit host now :: tr =>
      (forall last, m !! host = Some last -> last <> 0 -> d <= now - last) /\
      spacing d (<[host := now]> m) tr
  | _ :: tr => spacing d m tr
  end.

(** No spacing wait is due for [domain] at time [now]. *)
Definition nowait (s : t) (domain : string) (now : Z) : Prop :=
  match lastRequestTime s !! domain with
  | Some last => last = 0 \/ requestDelay s <= now - last
  | None => True
  end.

(** The discipline of the counters: an admission, then the invocation of
    the unit of work, then one release for the same domain. *)
Inductive Phase := Free | Acquired (domain : string) | Called (domain : string).

Definition protocol (ph : Phase) (e : Event) : option Phase :=
  match e with
  | EvAdmit d _ => match ph with Free => Some (Acquired d) | _ => None end
  | EvCall _ => match ph with Acquired d => Some (Called d) | _ => None end
  | EvRelease d =>
      match ph with
      | Called d' => if String.eqb d d' then Some Free else None
      | _ => None
      end
  | _ => Some ph
  end.

Definition replay (tr : list Event) (ph : Phase) : option Phase :=
  fold_left (fun acc e => match acc with Some ph => protocol ph e | None => None end)
    tr (Some ph).

(** The invocations of the unit of work and the waits before a retry,
    in the order in which they happen. *)
Inductive Step := Attempt (k : nat) | Wait (ms : Z).

Definition schedule (tr : list Event) : list Step :=
  omap (fun e => match e with
                 | EvCall k => Some (Attempt k)
                 | EvSleep Backoff ms => Some (Wait ms)
                 | _ => None
                 end) tr.

(** [m] failed attempts, each followed by its backoff, then one more
    attempt; [k] is the number of earlier invocations of the unit of work. *)
Fixpoint attempts (s : t) (k : nat) (attempt : Z) (m : nat) : list Step :=
  match m with
  | O => [Attempt k]
  | S m => Attempt k :: Wait (calculateBackoff s attempt) :: attempts s (S k) (attempt + 1) m
  end.

(** The admissions of a trace: host and time. *)
Definition admissions (tr : list Event) : list (string * Z) :=
  omap (fun e => match e with EvAdmit d now => Some (d, now) | _ => None end) tr.

(** The events of polling: waits other than a backoff, and the pending
    [finally] block of the caller. *)
Definition polling (e : Event) : Prop :=
  match e with
  | EvSleep why _ => why <> Backoff
  | EvRelease _ | EvCounters _ _ => True
  | _ => False
  end.

(** The invariant of a sequential run that started from the limiter
    [cfg]. *)
Record Inv (cfg : t) (r : Run) (ph : Phase) : Prop := mkInv {
  inv_config : config (self r) = config cfg;
  inv_within :
    Forall (within (globalConcurrency cfg) (perDomainConcurrency cfg)) (trace r);
  inv_replay : replay (trace r) Free = Some ph;
  inv_starts : lastRequestTime (self r) = starts (lastRequestTime cfg) (trace r);
  inv_state :
    match ph with
    | Free => quiet (self r)
    | Acquired d | Called d => held d (self r)
    end;
  inv_deferred :
    match ph with
    | Called d => deferred r = None \/ deferred r = Some d
    | _ => deferred r = None
    end
}.

(** The state in which [execute] is entered: from outside, or from the
    [catch] block of the previous attempt, whose [finally] is pending. *)
Definition entry (cfg : t) (domain : string) (r : Run) : Prop :=
  Inv cfg r Free \/ (Inv cfg r (Called domain) /\ deferred r = Some domain).

(** What polling does to a run: it adds polling events. *)
Definition frame (r r' : Run) : Prop :=
  fnCalls r' = fnCalls r /\
  lastRequestTime (self r') = lastRequestTime (self r) /\
  exists evs, trace r' = trace r ++ evs /\ Forall polling evs.

(** The hosts on record in [r], with a counter or with a request start,
    are on record in [r']. *)
Definition tracks (r r' : Run) : Prop :=
  (forall d, is_Some (domainActive (self r) !! d) ->
             is_Some (domainActive (self r') !! d)) /\
  (forall d, is_Some (lastRequestTime (self r) !! d) ->
             is_Some (lastRequestTime (self r') !! d)).

(** What the caller of [execute] receives, next to the number of
    invocations of the unit of work that the call made. *)
Definition received {A} (x : option (completion A * Run)) : option (completion A * nat) :=
  match x with
  | Some (c, r) => Some (c, fnCalls r)
  | None => None
  end.

(** Timers never fire early. *)
Definition punctual (timer : Z -> Z) : Prop := forall ms, ms <= timer ms.

(** The state in which the [catch] block of [execute] re-enters
    [execute], for a limiter configured like [cfg]. *)
Definition retrying (URL_parse : string -> option URL) (timer : Z -> Z) (cfg : t)
    (url : string) (attempt : Z) (r : Run) : Run :=
  defer (getDomain URL_parse url)
    (sleep timer Backoff (calculateBackoff cfg attempt)
       (emit (EvLog (retryLine cfg url attempt (calculateBackoff cfg attempt))) r)).

End RateLimiter.


(* ===================================================================== *)
(** ** [src/scraper/extractor.js], class [Scraper] *)
(* ===================================================================== *)

Module Scraper.

(** The entries of [options] and of [process.env] that reach the rate
    limiter; an environment entry is the result of its [parseInt]
    ([None] for [NaN]). *)
Record Options := mkOptions {
  concurrency : option Z;
  requestDelay : option Z
}.

Record Env := mkEnv {
  CONCURRENCY : option Z;
  REQUEST_DELAY_MS : option Z;
  PER_DOMAIN_CONCURRENCY : option Z;
  MAX_RETRIES : option Z;
  EXPONENTIAL_BACKOFF_BASE : option Z
}.

(** [{ key: options.key || parseInt(env) || d, ...options }.key]: the
    spread puts back an entry that [options] has, whatever its value. *)
Definition option_entry (opt env : option Z) (d : Z) : Z :=
  match opt with
  | Some n => n
  | None => orNum env d
  end.

(** The rate limiter built by the constructor of [Scraper]. *)
Definition constructor (options : Options) (env : Env) : completion RateLimiter.t :=
  RateLimiter.constructor
    {| RateLimiter.concurrency :=
         Some (option_entry (concurrency options) (CONCURRENCY env) 3);
       RateLimiter.opt_perDomainConcurrency :=
         Some (orNum (PER_DOMAIN_CONCURRENCY env) 1);
       RateLimiter.opt_requestDelay :=
         Some (option_entry (requestDelay options) (REQUEST_DELAY_MS env) 2000);
       RateLimiter.opt_maxRetries := Some (orNum (MAX_RETRIES env) 3);
       RateLimiter.opt_backoffBase := Some (orNum (EXPONENTIAL_BACKOFF_BASE env) 2) |}.

Inductive Status := success | skipped | error.

(** The scraper's [rateLimiter] (inside its run state) and the
    [robotsChecker] singleton. *)
Record World := mkWorld {
  robots : RobotsChecker.t;
  limiter : RateLimiter.Run
}.

Section Platform.

(** The extracted record, opaque to the scheduler. *)
Variable Data : Type.

Record Result := mkResult {
  url : string;
  status : Status;
  reason : string;
  data : option Data
}.

(** What the browser does during one invocation of the unit of work:
    [context.newPage()], the navigation with the status of its response
    ([None]: no response or no status), [detectAntiBot] (which catches its
    own errors), the extraction, [page.close()]. *)
Record Visit := mkVisit {
  visit_took : Z;
  newPage : option Error;
  setExtraHTTPHeaders : option Error;
  goto : completion (option Z);
  waitForTimeout : option Error;
  detectAntiBot : option string;
  extract : completion Data;
  close : option Error
}.

Variable URL_parse : string -> option URL.
Variable network : nat -> string -> RobotsChecker.NetReply.
Variable robotsParser : string -> string -> completion RobotsChecker.Robots.
Variable timer : Z -> Z.
(** The time that [checkUrl] takes for a URL, after [k] requests for a
    robots.txt have been sent. *)
Variable latency : nat -> string -> Z.
(** The browser's behaviour at the [k]-th invocation overall. *)
Variable browser : nat -> string -> Visit.

Definition failed (url : string) (e : Error) : Result :=
  {| url := url; status := error; reason := message e; data := None |}.

(** The [try] block of the function handed to [rateLimiter.execute]. *)
Definition visit_try (url : string) (v : Visit) : completion Result :=
  match setExtraHTTPHeaders v with
  | Some e => Throw e
  | None =>
      match goto v with
      | Throw e => Throw e
      | Normal status =>
          if negb (truthyNum status) || (400 <=? default 0 status) then
            Throw (mkError ("HTTP " +:+
                            (if truthyNum status then showZ (default 0 status)
                             else "unknown")))
          else
            match waitForTimeout v with
            | Some e => Throw e
            | None =>
                match detectAntiBot v with
                | Some type =>
                    Normal {| url := url; status := skipped;
                              reason := "Anti-bot detected: " +:+ type;
                              data := None |}
                | None =>
                    match extract v with
                    | Throw e => Throw e
                    | Normal d =>
                        Normal {| url := url; status := success;
                                  reason := EmptyString; data := Some d |}
                    end
                end
            end
      end
  end.

(** The function handed to [rateLimiter.execute]: [newPage] is outside
    the [try]; the [catch] turns every error of the [try] block into an
    ['error'] result; an error of [page.close()] in the [finally]
    replaces the result. *)
Definition visit (url : string) (v : Visit) : completion Result :=
  match newPage v with
  | Some e => Throw e
  | None =>
      let outcome :=
        match visit_try url v with
        | Normal r => Normal r
        | Throw e => Normal (failed url e)
        end in
      match close v with
      | Some e => Throw e
      | None => outcome
      end
  end.

Definition fn (url : string) (k : nat) : RateLimiter.Outcome Result :=
  RateLimiter.mkOutcome (visit_took (browser k url)) (visit url (browser k url)).

(** [scrapeUrl].  The clock of the run is moved by the robots.txt
    check, by the timers of the limiter and by the unit of work; the
    lines written by [logger] and [logUrlStatus] are not recorded. *)
Definition scrapeUrl (fuel : nat) (url : string) (w : World)
    : option (completion Result * World) :=
  let '(robotsCheck, rb) :=
    RobotsChecker.checkUrl URL_parse network robotsParser url "*" (robots w) in
  let r :=
    RateLimiter.advance (latency (length (RobotsChecker.requests rb)) url) (limiter w) in
  if negb (truthyBool (RobotsChecker.allowed robotsCheck)) then
    Some (Normal {| url := url; status := skipped;
                    reason := RobotsChecker.reason robotsCheck; data := None |},
          {| robots := rb; limiter := r |})
  else
    match RateLimiter.execute URL_parse timer fuel url (fn url) 0 r with
    | None => None
    | Some (Normal result, r) => Some (Normal result, {| robots := rb; limiter := r |})
    | Some (Throw e, r) => Some (Normal (failed url e), {| robots := rb; limiter := r |})
    end.

(** The [for ... of] loop of [scrapeUrls], pushing onto [results]. *)
Fixpoint scrapeUrls_loop (fuel : nat) (urls : list string) (results : list Result)
    (w : World) : option (list Result * World) :=
  match urls with
  | [] => Some (results, w)
  | url :: urls =>
      match scrapeUrl fuel url w with
      | None => None
      | Some (Normal result, w) => scrapeUrls_loop fuel urls (results ++ [result]) w
      | Some (Throw e, w) => scrapeUrls_loop fuel urls (results ++ [failed url e]) w
      end
  end.

Definition scrapeUrls (fuel : nat) (urls : list string) (w : World)
    : option (list Result * World) :=
  scrapeUrls_loop fuel urls [] w.

End Platform.

(** What a sequential run keeps true of the limiter, configured like
    [cfg]. *)
Definition steady (timer : Z -> Z) (cfg : RateLimiter.t) (w w' : World) : Prop :=
  RateLimiter.Inv cfg (limiter w') RateLimiter.Free /\
  (RateLimiter.punctual timer ->
   RateLimiter.spacing (RateLimiter.requestDelay cfg) (RateLimiter.lastRequestTime cfg)
     (RateLimiter.trace (limiter w)) ->
   RateLimiter.spacing (RateLimiter.requestDelay cfg) (RateLimiter.lastRequestTime cfg)
     (RateLimiter.trace (limiter w'))).

End Scraper.


(* ===================================================================== *)
(** ** [src/utils/validators.js]: [cleanText]

    A string is the sequence of its code units; the model covers the
    code units below 256.  Among these, [\s] and [trim] take the same
    seven as white space: tab, line feed, vertical tab, form feed,
    carriage return, space and no-break space. *)
(* ===================================================================== *)

Module Validators.

(** [\s] *)
Definition isSpace (c : ascii) : bool :=
  let n := N_of_ascii c in
  ((9 <=? n) && (n <=? 13) || (n =? 32) || (n =? 160))%N.

(** [\n] *)
Definition isNewline (c : ascii) : bool := (N_of_ascii c =? 10)%N.

(** [s.replace(/p+/g, ' ')] for a class [p] of code units: every maximal
    run of [p] becomes one space.  [inRun]: the previous code unit
    belongs to the run that is being replaced. *)
Fixpoint replaceRuns (p : ascii -> bool) (inRun : bool) (s : string) : string :=
  match s with
  | EmptyString => EmptyString
  | String c rest =>
      if p c then
        if inRun then replaceRuns p true rest
        else String " " (replaceRuns p true rest)
      else String c (replaceRuns p false rest)
  end.

Fixpoint trimStart (s : string) : string :=
  match s with
  | EmptyString => EmptyString
  | String c rest => if isSpace c then trimStart rest else s
  end.

Fixpoint trimEnd (s : string) : string :=
  match s with
  | EmptyString => EmptyString
  | String c rest =>
      match trimEnd rest with
      | EmptyString => if isSpace c then EmptyString else String c EmptyString
      | r => String c r
      end
  end.

(** [s.trim()] *)
Definition trim (s : string) : string := trimEnd (trimStart s).

Definition cleanText (text : string) : string :=
  match text with
  | EmptyString => EmptyString
  | _ => trim (replaceRuns isNewline false (replaceRuns isSpace false text))
  end.

(** *** Vocabulary of the properties *)

(** Only white space. *)
Fixpoint blank (s : string) : bool :=
  match s with
  | EmptyString => true
  | String c rest => isSpace c && blank rest
  end.

(** The words of a string: its maximal runs of code units that are not
    white space.  [splitWords s] is the (possibly empty) run at the head
    of [s] and the words after it. *)
Fixpoint splitWords (s : string) : string * list string :=
  match s with
  | EmptyString => (EmptyString, [])
  | String c rest =>
      let '(w, ws) := splitWords rest in
      if isSpace c then
        (EmptyString, match w with EmptyString => ws | _ => w :: ws end)
      else (String c w, ws)
  end.

Definition words (s : string) : list string :=
  let '(w, ws) := splitWords s in
  match w with EmptyString => ws | _ => w :: ws end.

(** Every white space of [s] is a single space character between two
    code units that are not white space.  [prev]: the previous code unit
    is white space, or there is none. *)
Fixpoint tidyFrom (prev : bool) (s : string) : bool :=
  match s with
  | EmptyString => negb prev
  | String c rest =>
      if isSpace c then Ascii.eqb c " " && negb prev && tidyFrom true rest
      else tidyFrom false rest
  end.

Definition tidy (s : string) : bool :=
  match s with
  | EmptyString => true
  | _ => tidyFrom true s
  end.

End Validators.


(* ===================================================================== *)
(** ** The text cleaner of the helper module ([logger], [delay],
       [cleanText]) *)
(* ===================================================================== *)

Module Helpers.

(** [text.replace(/\s+/g, ' ').trim()] *)
Definition cleanText (text : string) : string :=
  match text with
  | EmptyString => EmptyString
  | _ => Validators.trim (Validators.replaceRuns Validators.isSpace false text)
  end.

End Helpers.


(* ===================================================================== *)
(** ** [src/scraper/extractor.js], class [DataExtractor]: [trySelectors] *)
(* ===================================================================== *)

Module DataExtractor.

(** What the page answers for one selector: [page.$(selector)] throws,
    finds no element ([None]), or finds an element, whose
    [textContent()] throws, is [null] or is a string. *)
Definition Probe : Type := completion (option (completion (option string))).

(** The [for ... of] loop of [trySelectors]: the first selector whose
    element has a text that is not blank decides; a selector that throws
    is skipped. *)
Fixpoint trySelectors (page : string -> Probe) (selectors : list string)
    : option string :=
  match selectors with
  | [] => None
  | selector :: selectors =>
      match page selector with
      | Normal (Some (Normal (Some text))) =>
          if truthyStr (Some text) && (0 <? String.length (Validators.trim text))%nat
          then Some (Validators.cleanText text)
          else trySelectors page selectors
      | _ => trySelectors page selectors
      end
  end.

End DataExtractor.


(* ===================================================================== *)
(** ** [src/utils/output-writer.js]: [extractRecords] *)
(* ===================================================================== *)

Module OutputWriter.

Section Records.

Variable Data : Type.

(** [result.status === 'success' && result.data]: a data record is an
    object, truthy whenever it is not [null]. *)
Definition isRecord (result : Scraper.Result Data) : bool :=
  match Scraper.status Data result, Scraper.data Data result with
  | Scraper.success, Some _ => true
  | _, _ => false
  end.

(** [results.filter(...).map(result => result.data)] *)
Definition extractRecords (results : list (Scraper.Result Data)) : list (option Data) :=
  map (Scraper.data Data) (List.filter isRecord results).

End Records.

End OutputWriter.


(* ===================================================================== *)
(** ** [scripts/run-scraper.js]: [calculateStats] *)
(* ===================================================================== *)

Module RunScraper.

(** The counters of the statistics; the breakdown of the skipped URLs by
    reason is left out. *)
Record Stats := mkStats {
  total : Z;
  successes : Z;
  failures : Z;
  skipped : Z
}.

Section Results.

Variable Data : Type.

(** The callback of [results.forEach]. *)
Definition tally (stats : Stats) (result : Scraper.Result Data) : Stats :=
  match Scraper.status Data result with
  | Scraper.success =>
      {| total := total stats; successes := successes stats + 1;
         failures := failures stats; skipped := skipped stats |}
  | Scraper.error =>
      {| total := total stats; successes := successes stats;
         failures := failures stats + 1; skipped := skipped stats |}
  | Scraper.skipped =>
      {| total := total stats; successes := successes stats;
         failures := failures stats; skipped := skipped stats + 1 |}
  end.

Definition calculateStats (results : list (Scraper.Result Data)) : Stats :=
  fold_left tally results
    {| total := Z.of_nat (length results); successes := 0; failures := 0;
       skipped := 0 |}.

(** [process.exit(stats.failures > 0 ? 1 : 0)] at the end of [main]. *)
Definition exitCode (stats : Stats) : Z := if 0 <? failures stats then 1 else 0.

End Results.

End RunScraper.


(* ===================================================================== *)
(** ** A concrete platform

    Small executable stand-ins for the platform, used to evaluate the
    model on concrete inputs. *)
(* ===================================================================== *)

Module Concrete.

(** Split a string at the first occurrence of [sep]. *)
Fixpoint splitAt (sep s : string) : option (string * string) :=
  if String.prefix sep s
  then Some (EmptyString, String.substring (String.length sep)
                            (String.length s - String.length sep) s)
  else
    match s with
    | EmptyString => None
    | String c rest =>
        match splitAt sep rest with
        | Some (a, b) => Some (String c a, b)
        | None => None
        end
    end.

(** The longest prefix without ['/'], ['?'] or ['#']. *)
Fixpoint authority (s : string) : string :=
  match s with
  | EmptyString => EmptyString
  | String c rest =>
      if (Ascii.eqb c "/" || Ascii.eqb c "?" || Ascii.eqb c "#")%bool
      then EmptyString
      else String c (authority rest)
  end.

(** [scheme://host[:port][/...]], and nothing else. *)
Definition URL_parse (url : string) : option URL :=
  match splitAt "://" url with
  | None => None
  | Some (scheme, rest) =>
      let '(host, port) :=
        match splitAt ":" (authority rest) with
        | Some (h, p) => (h, p)
        | None => (authority rest, EmptyString)
        end in
      if (String.eqb scheme EmptyString || String.eqb host EmptyString
          || includes " " url)%bool
      then None
      else Some {| protocol := scheme +:+ ":"; hostname := host; port := port |}
  end.

Definition sameOrigin (a b : string) : bool :=
  match URL_parse a, URL_parse b with
  | Some x, Some y =>
      String.eqb (protocol x) (protocol y) && String.eqb (hostname x) (hostname y)
      && String.eqb (port x) (port y)
  | _, _ => false
  end.

(** A stand-in for the [robots-parser] package that knows two whole-file
    policies: a file containing ["Disallow: /"] denies every path, a file
    containing ["Crawl-delay: 10"] asks for ten seconds; a URL of another
    origin than the file's gets [undefined]. *)
Definition robotsParser (robotsUrl contents : string)
    : completion RobotsChecker.Robots :=
  Normal
    {| RobotsChecker.parser_isAllowed := fun url _ =>
         Normal (if sameOrigin url robotsUrl
                 then Some (negb (includes "Disallow: /" contents))
                 else None);
       RobotsChecker.parser_getCrawlDelay := fun _ =>
         Normal (if includes "Crawl-delay: 10" contents then Some 10 else None) |}.

(** A network on which [closed.example] denies everything,
    [slow.example] asks for a crawl delay, [down.example] answers 503,
    [dead.example] does not answer, and every other host has no
    robots.txt. *)
Definition network (k : nat) (url : string) : RobotsChecker.NetReply :=
  if includes "closed.example" url then
    RobotsChecker.HttpReply 200 "User-agent: *
Disallow: /"
  else if includes "slow.example" url then
    RobotsChecker.HttpReply 200 "User-agent: *
Crawl-delay: 10"
  else if includes "down.example" url then RobotsChecker.HttpReply 503 "unavailable"
  else if includes "dead.example" url then RobotsChecker.NetFailure "timeout of 5000ms exceeded"
  else RobotsChecker.HttpReply 404 "Not Found".

(** Timers that fire exactly on time. *)
Definition timer (ms : Z) : Z := Z.max 0 ms.

(** A limiter before any request, with the default limits and delays. *)
Definition limiter (maxRetries : Z) : RateLimiter.t :=
  {| RateLimiter.globalConcurrency := 3;
     RateLimiter.perDomainConcurrency := 1;
     RateLimiter.requestDelay := 2000;
     RateLimiter.maxRetries := maxRetries;
     RateLimiter.backoffBase := 2;
     RateLimiter.domainQueues := ∅;
     RateLimiter.domainActive := ∅;
     RateLimiter.lastRequestTime := ∅;
     RateLimiter.globalActive := 0 |}.

(** The limiter of [new RateLimiter()] and of [new Scraper()] with an
    empty environment. *)
Definition defaults : RateLimiter.t := limiter 3.

(** A unit of work that fails twice with a timeout and then succeeds,
    and one that always fails with a timeout. *)
Definition twice_late (k : nat) : RateLimiter.Outcome string :=
  if (k <? 2)%nat then RateLimiter.mkOutcome 50 (Throw (mkError "connect ETIMEDOUT"))
  else RateLimiter.mkOutcome 300 (Normal "done").

Definition always_late (k : nat) : RateLimiter.Outcome string :=
  RateLimiter.mkOutcome 50 (Throw (mkError "connect ETIMEDOUT")).

(** A unit of work that is always answered with status 503, and one that
    is always answered with status 404. *)
Definition always_503 (k : nat) : RateLimiter.Outcome string :=
  RateLimiter.mkOutcome 50 (Throw (mkError "HTTP 503")).

Definition always_404 (k : nat) : RateLimiter.Outcome string :=
  RateLimiter.mkOutcome 50 (Throw (mkError "HTTP 404")).

Definition execute : nat -> string -> (nat -> RateLimiter.Outcome string) -> Z ->
                     RateLimiter.Run ->
                     option (completion string * RateLimiter.Run) :=
  RateLimiter.execute URL_parse timer.

Definition batch : list string :=
  ["https://flaky.example/a"; "https://crash.example/b"; "https://closed.example/c";
   "not a url"; "https://ok.example/missing"; "https://ok.example/d"].

Definition page (took : Z) (newPage : option Error) (status : option Z)
    (data : string) : Scraper.Visit string :=
  {| Scraper.visit_took := took;
     Scraper.newPage := newPage;
     Scraper.setExtraHTTPHeaders := None;
     Scraper.goto := Normal status;
     Scraper.waitForTimeout := None;
     Scraper.detectAntiBot := None;
     Scraper.extract := Normal data;
     Scraper.close := None |}.

(** A browser that cannot open a page for a URL containing ["crash"],
    opens one for a URL containing ["flaky"] only from its third
    invocation on, gets a 404 for a URL containing ["missing"], and
    extracts a record from every other page. *)
Definition browser (k : nat) (url : string) : Scraper.Visit string :=
  if includes "crash" url then
    page 50 (Some (mkError "browserContext.newPage: ECONNRESET")) None EmptyString
  else if includes "flaky" url && (k <? 2)%nat then
    page 50 (Some (mkError "connect ETIMEDOUT")) None EmptyString
  else if includes "missing" url then page 300 None (Some 404) EmptyString
  else page 300 None (Some 200) ("record of " +:+ url).

(** A browser that loads every page and extracts a record from it, and
    then fails to close the page. *)
Definition stuck_browser (k : nat) (url : string) : Scraper.Visit string :=
  {| Scraper.visit_took := 300;
     Scraper.newPage := None;
     Scraper.setExtraHTTPHeaders := None;
     Scraper.goto := Normal (Some 200);
     Scraper.waitForTimeout := None;
     Scraper.detectAntiBot := None;
     Scraper.extract := Normal ("record of " +:+ url);
     Scraper.close := Some (mkError "Target page has been closed") |}.

(** A scraper at time [1000000], before any request. *)
Definition world (s : RateLimiter.t) : Scraper.World :=
  {| Scraper.robots := RobotsChecker.constructor;
     Scraper.limiter := RateLimiter.start s 1000000 |}.

(** A robots.txt check that takes 20 ms for each request sent so far. *)
Definition latency (k : nat) (url : string) : Z := 20 * Z.of_nat k.

Definition scrapeUrls : nat -> list string -> Scraper.World ->
                        option (list (Scraper.Result string) * Scraper.World) :=
  Scraper.scrapeUrls string URL_parse network robotsParser timer latency browser.

End Concrete.


(* ===================================================================== *)
(** ** Properties of the robots.txt checker *)
(* ===================================================================== *)

Section RobotsCheckerFacts.

Import RobotsChecker.

Variable URL_parse : string -> option URL.
Variable network : nat -> string -> NetReply.
Variable robotsParser : string -> string -> completion Robots.

Abbreviation getDomain := (getDomain URL_parse).
Abbreviation fetchRobotsTxt := (fetchRobotsTxt network).
Abbreviation getRobotsParser := (getRobotsParser network robotsParser).
Abbreviation isAllowed := (isAllowed URL_parse network robotsParser).
Abbreviation checkUrl := (checkUrl URL_parse network robotsParser).
Abbreviation getCrawlDelay := (getCrawlDelay network robotsParser).
Abbreviation call := (call URL_parse network robotsParser).
Abbreviation calls := (calls URL_parse network robotsParser).
Abbreviation sameOrigin := (sameOrigin URL_parse).
Abbreviation empty_file_allows := (empty_file_allows URL_parse robotsParser).

Lemma getDomain_cache url s : robotsCache (getDomain url s).2 = robotsCache s.
Proof. unfold RobotsChecker.getDomain. destruct (URL_parse url); reflexivity. Qed.

Lemma getDomain_requests url s : requests (getDomain url s).2 = requests s.
Proof. unfold RobotsChecker.getDomain. destruct (URL_parse url); reflexivity. Qed.

Lemma getDomain_truthy url s :
  truthyStr (getDomain url s).1 = true <-> is_Some (URL_parse url).
Proof.
  unfold RobotsChecker.getDomain. destruct (URL_parse url) as [u|]; simpl.
  - split; [eauto|]. intros _. destruct (protocol u); reflexivity.
  - split; [discriminate|]. intros [? ?]; discriminate.
Qed.

(** [fetchRobotsTxt] never touches the cache and sends exactly one request. *)
Lemma fetchRobotsTxt_frame domain s :
  robotsCache (fetchRobotsTxt domain s).2 = robotsCache s /\
  requests (fetchRobotsTxt domain s).2 = requests s ++ [domain +:+ "/robots.txt"].
Proof.
  unfold RobotsChecker.fetchRobotsTxt, axios_get; simpl.
  destruct (network _ _) as [st body|msg]; simpl.
  - destruct (st <? 500); simpl; [destruct (st =? 200)|]; simpl; auto.
  - auto.
Qed.

(** A cache hit answers from the cache and leaves the state alone. *)
Lemma getRobotsParser_hit domain parser s :
  robotsCache s !! domain = Some parser ->
  getRobotsParser domain s = (Normal parser, s).
Proof. intros H. unfold RobotsChecker.getRobotsParser. rewrite H. reflexivity. Qed.

(** Entries of the cache survive [getRobotsParser]. *)
Lemma getRobotsParser_keeps d domain parser s :
  robotsCache s !! domain = Some parser ->
  robotsCache (getRobotsParser d s).2 !! domain = Some parser.
Proof.
  intros H. unfold RobotsChecker.getRobotsParser.
  destruct (robotsCache s !! d) eqn:Hd; simpl; [exact H|].
  pose proof (fetchRobotsTxt_frame d s) as [Hc _].
  destruct (fetchRobotsTxt d s) as [txt s1]; simpl in *.
  destruct (robotsParser _ txt); simpl.
  - rewrite lookup_insert_ne; [rewrite Hc; exact H|]. intros ->. congruence.
  - rewrite Hc. exact H.
Qed.

Lemma isAllowed_keeps url ua domain parser s :
  robotsCache s !! domain = Some parser ->
  robotsCache (isAllowed url ua s).2 !! domain = Some parser.
Proof.
  intros H. unfold RobotsChecker.isAllowed.
  pose proof (getDomain_cache url s) as Hc.
  destruct (getDomain url s) as [d s1]; simpl in Hc.
  destruct (negb (truthyStr d)); simpl; [rewrite Hc; exact H|].
  assert (H1 : robotsCache s1 !! domain = Some parser) by (rewrite Hc; exact H).
  pose proof (getRobotsParser_keeps (default EmptyString d) _ _ _ H1) as H2.
  destruct (getRobotsParser (default EmptyString d) s1) as [[p|e] s2]; simpl in *;
    [|exact H2].
  destruct (parser_isAllowed p url ua) as [a|e]; simpl; [|exact H2].
  destruct (negb (truthyBool a)); exact H2.
Qed.

Lemma getCrawlDelay_keeps d ua domain parser s :
  robotsCache s !! domain = Some parser ->
  robotsCache (getCrawlDelay d ua s).2 !! domain = Some parser.
Proof.
  intros H. unfold RobotsChecker.getCrawlDelay.
  pose proof (getRobotsParser_keeps d _ _ _ H) as H2.
  destruct (getRobotsParser d s) as [[p|e] s2]; simpl in *; [|exact H2].
  destruct (parser_getCrawlDelay p ua); exact H2.
Qed.

Lemma call_keeps c domain parser s :
  robotsCache s !! domain = Some parser ->
  robotsCache (call c s) !! domain = Some parser.
Proof.
  intros H. destruct c; simpl.
  - apply getRobotsParser_keeps, H.
  - apply isAllowed_keeps, H.
  - unfold RobotsChecker.checkUrl.
    pose proof (isAllowed_keeps url userAgent _ _ _ H) as H1.
    destruct (isAllowed url userAgent s); exact H1.
  - apply getCrawlDelay_keeps, H.
  - exact H.
Qed.

Lemma calls_keeps cs domain parser s :
  robotsCache s !! domain = Some parser ->
  robotsCache (calls cs s) !! domain = Some parser.
Proof.
  revert s. induction cs as [|c cs IH]; intros s H; simpl; [exact H|].
  apply IH, call_keeps, H.
Qed.

(** The first call of [getRobotsParser] sends at most one request, and
    when it returns a parser, that parser is in the cache. *)
Lemma getRobotsParser_first domain s :
  (requests (getRobotsParser domain s).2 = requests s \/
   requests (getRobotsParser domain s).2 = requests s ++ [domain +:+ "/robots.txt"]) /\
  forall parser, (getRobotsParser domain s).1 = Normal parser ->
                 robotsCache (getRobotsParser domain s).2 !! domain = Some parser.
Proof.
  unfold RobotsChecker.getRobotsParser.
  destruct (robotsCache s !! domain) eqn:Hd; simpl.
  - split; [left; reflexivity|]. intros p [= <-]. exact Hd.
  - pose proof (fetchRobotsTxt_frame domain s) as [Hc Hr].
    destruct (fetchRobotsTxt domain s) as [txt s1]; simpl in *.
    destruct (robotsParser _ txt); simpl.
    + split; [right; exact Hr|]. intros p [= <-]. apply lookup_insert_eq.
    + split; [right; exact Hr|]. discriminate.
Qed.

Lemma checkUrl_unfold url ua s :
  checkUrl url ua s =
    ({| allowed := (isAllowed url ua s).1;
        reason := if truthyBool (isAllowed url ua s).1 then EmptyString
                  else "Disallowed by robots.txt" |},
     (isAllowed url ua s).2).
Proof.
  unfold RobotsChecker.checkUrl. destruct (isAllowed url ua s); reflexivity.
Qed.

(** C6 (as amended): [checkUrl] returns the verdict of [isAllowed]
    together with a reason that is the fixed string
    ["Disallowed by robots.txt"] whenever the verdict is not truthy (the
    URL is denied) and the empty string whenever it is. *)
Theorem checkUrl_reason url ua s :
  allowed (checkUrl url ua s).1 = (isAllowed url ua s).1 /\
  (checkUrl url ua s).2 = (isAllowed url ua s).2 /\
  reason (checkUrl url ua s).1 =
    (if truthyBool (allowed (checkUrl url ua s).1) then EmptyString
     else "Disallowed by robots.txt").
Proof.
  rewrite checkUrl_unfold. simpl. auto.
Qed.


(** C10: when no domain can be derived from the URL, and when the lookup
    of the parser or the parser's own check throws, [isAllowed] returns
    [false] and [checkUrl] reports the URL as disallowed. *)
Theorem isAllowed_fails_closed url ua s :
  URL_parse url = None \/
  (exists e, (getRobotsParser (default EmptyString (getDomain url s).1)
                (getDomain url s).2).1 = Throw e) \/
  (exists p e,
      (getRobotsParser (default EmptyString (getDomain url s).1)
         (getDomain url s).2).1 = Normal p /\
      parser_isAllowed p url ua = Throw e) ->
  (isAllowed url ua s).1 = Some false /\
  (checkUrl url ua s).1 =
    {| allowed := Some false; reason := "Disallowed by robots.txt" |}.
Proof.
  intros H.
  assert (Hi : (isAllowed url ua s).1 = Some false).
  { unfold RobotsChecker.isAllowed.
    pose proof (getDomain_truthy url s) as Ht.
    destruct (getDomain url s) as [d s1]; simpl in *.
    destruct (truthyStr d) eqn:Hd; simpl; [|reflexivity].
    destruct H as [H|[[e H]|(p & e & H & Hp)]].
    - apply proj1 in Ht. destruct (Ht eq_refl) as [u Hu]. congruence.
    - destruct (getRobotsParser (default EmptyString d) s1) as [[p|e'] s2];
        simpl in *; [discriminate|reflexivity].
    - destruct (getRobotsParser (default EmptyString d) s1) as [[p'|e'] s2];
        simpl in *; [|reflexivity].
      injection H as ->. rewrite Hp. reflexivity. }
  split; [exact Hi|].
  unfold RobotsChecker.checkUrl.
  destruct (isAllowed url ua s) as [a s']; simpl in *. subst a. reflexivity.
Qed.


End RobotsCheckerFacts.


(* ===================================================================== *)
(** ** Properties of the rate limiter *)
(* ===================================================================== *)

Section RateLimiterFacts.

Import RateLimiter.

Variable URL_parse : string -> option URL.
Variable timer : Z -> Z.

Abbreviation getDomain := (getDomain URL_parse).
Abbreviation sleep := (sleep timer).
Abbreviation enforceDelay := (enforceDelay timer).
Abbreviation waitGlobal := (waitGlobal timer).
Abbreviation waitDomain := (waitDomain timer).
Abbreviation execute := (execute URL_parse timer).
Abbreviation punctual := (punctual timer).

Lemma Forall_snoc {X} (P : X -> Prop) l x : Forall P l -> P x -> Forall P (l ++ [x]).
Proof. intros Hl Hx. apply Forall_app; split; [exact Hl|]. constructor; [exact Hx|constructor]. Qed.

Lemma replay_snoc tr e ph :
  replay (tr ++ [e]) ph =
  match replay tr ph with Some ph' => protocol ph' e | None => None end.
Proof. unfold replay. rewrite fold_left_app. reflexivity. Qed.

Lemma schedule_app tr1 tr2 : schedule (tr1 ++ tr2) = schedule tr1 ++ schedule tr2.
Proof. apply omap_app. Qed.

Lemma admissions_app tr1 tr2 : admissions (tr1 ++ tr2) = admissions tr1 ++ admissions tr2.
Proof. apply omap_app. Qed.

Lemma starts_app m tr1 tr2 : starts m (tr1 ++ tr2) = starts (starts m tr1) tr2.
Proof. apply fold_left_app. Qed.

Lemma spacing_app d tr1 tr2 :
  forall m, spacing d m (tr1 ++ tr2) <-> spacing d m tr1 /\ spacing d (starts m tr1) tr2.
Proof.
  induction tr1 as [|e tr1 IH]; intros m.
  - simpl. tauto.
  - destruct e; cbn [app spacing]; rewrite IH; unfold starts; cbn [fold_left]; tauto.
Qed.

(** Polling events change none of the observations of a trace but the
    counters. *)
Lemma polling_invisible evs :
  Forall polling evs ->
  schedule evs = [] /\ admissions evs = [] /\
  (forall m, starts m evs = m) /\ (forall d m, spacing d m evs).
Proof.
  induction 1 as [|e evs He _ (IH1 & IH2 & IH3 & IH4)].
  - repeat split.
  - destruct e as [[] ?| | | | |]; simpl in He; try tauto; try congruence;
      (split; [exact IH1|]; split; [exact IH2|]; split; [exact IH3|exact IH4]).
Qed.

Lemma frame_refl r : frame r r.
Proof.
  split; [reflexivity|]. split; [reflexivity|].
  exists []. rewrite app_nil_r. split; [reflexivity|constructor].
Qed.

Lemma frame_trans r1 r2 r3 : frame r1 r2 -> frame r2 r3 -> frame r1 r3.
Proof.
  intros (H1 & H2 & evs1 & H3 & H4) (H5 & H6 & evs2 & H7 & H8).
  split; [congruence|]. split; [congruence|].
  exists (evs1 ++ evs2). rewrite H7, H3, app_assoc.
  split; [reflexivity|]. apply Forall_app. auto.
Qed.

Lemma frame_observations r r' :
  frame r r' ->
  schedule (trace r') = schedule (trace r) /\
  admissions (trace r') = admissions (trace r) /\
  (forall m, starts m (trace r') = starts m (trace r)) /\
  (forall d m, spacing d m (trace r) -> spacing d m (trace r')).
Proof.
  intros (_ & _ & evs & -> & Hp).
  destruct (polling_invisible evs Hp) as (H1 & H2 & H3 & H4).
  rewrite schedule_app, admissions_app, H1, H2, !app_nil_r.
  split; [reflexivity|]. split; [reflexivity|]. split.
  - intros m. rewrite starts_app. apply H3.
  - intros d m H. apply spacing_app. split; [exact H|apply H4].
Qed.

Lemma emit_frame e r : polling e -> frame r (emit e r).
Proof.
  intros He. split; [reflexivity|]. split; [reflexivity|].
  exists [e]. split; [reflexivity|]. constructor; [exact He|constructor].
Qed.

Lemma suspend_frame r :
  frame r (suspend r) /\ clock (suspend r) = clock r /\ deferred (suspend r) = None.
Proof.
  unfold suspend. destruct (deferred r) as [d|] eqn:Hd.
  - split; [|split; reflexivity].
    split; [reflexivity|]. split; [reflexivity|].
    eexists [EvRelease d; EvCounters _ _]. unfold release, emit; simpl.
    rewrite <- app_assoc. split; [reflexivity|]. repeat constructor.
  - split; [apply frame_refl|]. split; [reflexivity|exact Hd].
Qed.

Lemma sleep_frame why ms r :
  why <> Backoff -> frame r (sleep why ms r) /\ deferred (sleep why ms r) = None.
Proof.
  intros Hw. destruct (suspend_frame r) as (Hf & _ & Hd).
  split; [|exact Hd].
  eapply frame_trans; [exact Hf|].
  apply (emit_frame (EvSleep why ms) (advance (timer ms) (suspend r))). exact Hw.
Qed.

Lemma sleep_clock why ms r : clock (sleep why ms r) = clock r + timer ms.
Proof.
  unfold RateLimiter.sleep, advance, emit; simpl.
  destruct (suspend_frame r) as (_ & -> & _). reflexivity.
Qed.

Lemma quiet_decrement d s : held d s -> quiet (decrement d s).
Proof.
  intros (Hg & Hd & Ho). unfold quiet, decrement; simpl. split; [lia|].
  intros d' n. destruct (decide (d = d')) as [<-|Hne].
  - rewrite lookup_insert_eq, Hd. simpl. intros [= <-]. reflexivity.
  - rewrite lookup_insert_ne by exact Hne. apply Ho. congruence.
Qed.

Lemma held_increment d now s : quiet s -> held d (increment d now s).
Proof.
  intros (Hg & Ho). unfold held, increment; simpl. split; [lia|]. split.
  - rewrite lookup_insert_eq. f_equal.
    destruct (domainActive s !! d) as [n|] eqn:Hn; simpl; [|reflexivity].
    rewrite (Ho _ _ Hn). reflexivity.
  - intros d' n Hne. rewrite lookup_insert_ne by congruence. apply Ho.
Qed.

Lemma quiet_canRequest d s :
  1 <= perDomainConcurrency s -> quiet s -> canRequestDomain s d = true.
Proof.
  intros Hk (_ & Ho). unfold canRequestDomain.
  destruct (domainActive s !! d) as [n|] eqn:Hn; simpl.
  - rewrite (Ho _ _ Hn). simpl. apply Z.ltb_lt. lia.
  - apply Z.ltb_lt. lia.
Qed.

Lemma within_quiet g k s :
  0 <= g -> 0 <= k -> quiet s -> within g k (EvCounters (globalActive s) (domainActive s)).
Proof.
  intros Hg Hk (H0 & Ho). simpl. split; [lia|]. intros d n Hn.
  rewrite (Ho _ _ Hn). lia.
Qed.

Lemma within_held g k d s :
  1 <= g -> 1 <= k -> held d s -> within g k (EvCounters (globalActive s) (domainActive s)).
Proof.
  intros Hg Hk (H1 & Hd & Ho). simpl. split; [lia|]. intros d' n Hn.
  destruct (decide (d' = d)) as [->|Hne].
  - rewrite Hd in Hn. injection Hn as <-. lia.
  - rewrite (Ho _ _ Hne Hn). lia.
Qed.

Lemma Inv_phase cfg r ph ph' : Inv cfg r ph -> Inv cfg r ph' -> ph = ph'.
Proof. intros [_ _ H _ _ _] [_ _ H' _ _ _]. congruence. Qed.

Section Sequential.

(** The limiter at the start of the run, with limits of at least one. *)
Variable cfg : t.
Hypothesis global_limit : 1 <= globalConcurrency cfg.
Hypothesis domain_limit : 1 <= perDomainConcurrency cfg.

Abbreviation retrying := (retrying URL_parse timer cfg).

Lemma Inv_limits r ph :
  Inv cfg r ph ->
  globalConcurrency (self r) = globalConcurrency cfg /\
  perDomainConcurrency (self r) = perDomainConcurrency cfg /\
  requestDelay (self r) = requestDelay cfg /\
  maxRetries (self r) = maxRetries cfg /\
  backoffBase (self r) = backoffBase cfg.
Proof. intros [Hc _ _ _ _ _]. unfold config in Hc. injection Hc. auto. Qed.

(** Adding events that are no admission, call or release keeps the
    invariant. *)
Lemma Inv_emit e r ph :
  match e with EvSleep _ _ | EvLog _ => True | _ => False end ->
  Inv cfg r ph -> Inv cfg (emit e r) ph.
Proof.
  intros He [Hc Hw Hr Hst Hs Hdf]. constructor; simpl; auto.
  - apply Forall_snoc; [exact Hw|]. destruct e; simpl; tauto.
  - rewrite replay_snoc, Hr. destruct e; simpl; tauto.
  - rewrite starts_app, <- Hst. destruct e; simpl; tauto.
Qed.

Lemma Inv_advance ms r ph : Inv cfg r ph -> Inv cfg (advance ms r) ph.
Proof. intros [Hc Hw Hr Hst Hs Hdf]. constructor; simpl; auto. Qed.

(** The [finally] block, after the unit of work was invoked. *)
Lemma Inv_release d r :
  Inv cfg r (Called d) -> deferred r = None -> Inv cfg (release d r) Free.
Proof.
  intros [Hc Hw Hr Hst Hh _] Hdf.
  pose proof (quiet_decrement _ _ Hh) as Hq.
  constructor.
  - exact Hc.
  - unfold release, emit; simpl.
    apply Forall_snoc; [apply Forall_snoc; [exact Hw|exact I]|].
    exact (within_quiet (globalConcurrency cfg) (perDomainConcurrency cfg) _
             ltac:(lia) ltac:(lia) Hq).
  - unfold release, emit; simpl. rewrite !replay_snoc, Hr. simpl.
    rewrite String.eqb_refl. reflexivity.
  - unfold release, emit; simpl. rewrite !starts_app. exact Hst.
  - exact Hq.
  - exact Hdf.
Qed.

(** A suspension point runs the pending [finally] block, if any. *)
Lemma Inv_suspend r ph :
  Inv cfg r ph ->
  Inv cfg (suspend r) (match deferred r with Some _ => Free | None => ph end).
Proof.
  intros H. unfold suspend. destruct (deferred r) as [d|] eqn:Hd; [|exact H].
  destruct H as [Hc Hw Hr Hst Hs Hdf].
  destruct ph as [|d'|d']; try congruence.
  destruct Hdf as [Hdf|Hdf]; [congruence|]. assert (d' = d) as -> by congruence.
  apply Inv_release; [|reflexivity].
  constructor; simpl; auto.
Qed.

Lemma Inv_sleep why ms r ph :
  Inv cfg r ph ->
  Inv cfg (sleep why ms r) (match deferred r with Some _ => Free | None => ph end).
Proof.
  intros H. unfold RateLimiter.sleep.
  apply Inv_advance, Inv_emit; [exact I|]. apply Inv_suspend, H.
Qed.

(** Past a suspension point an entry state is quiet. *)
Lemma entry_suspend d r : entry cfg d r -> Inv cfg (suspend r) Free.
Proof.
  intros [H|[H Hd]]; pose proof (Inv_suspend _ _ H) as H'.
  - destruct H as [_ _ _ _ _ Hdf]. simpl in Hdf. rewrite Hdf in H'. exact H'.
  - rewrite Hd in H'. exact H'.
Qed.

Lemma entry_sleep why ms d r : entry cfg d r -> Inv cfg (sleep why ms r) Free.
Proof.
  intros H. unfold RateLimiter.sleep.
  apply Inv_advance, Inv_emit; [exact I|]. eapply entry_suspend, H.
Qed.

Lemma quiet_suspend r : Inv cfg r Free -> suspend r = r.
Proof. intros [_ _ _ _ _ Hdf]. unfold suspend. simpl in Hdf. rewrite Hdf. reflexivity. Qed.

Lemma waitGlobal_quiet fuel r :
  Inv cfg r Free -> waitGlobal (S fuel) r = Some r.
Proof.
  intros H. destruct (Inv_limits _ _ H) as (Hg & _).
  destruct H as [_ _ _ _ [H0 _] _]. simpl.
  rewrite Hg, H0. destruct (Z.leb_spec (globalConcurrency cfg) 0); [lia|reflexivity].
Qed.

Lemma waitDomain_quiet fuel d r :
  Inv cfg r Free -> waitDomain (S fuel) d r = Some r.
Proof.
  intros H. destruct (Inv_limits _ _ H) as (_ & Hk & _).
  destruct H as [_ _ _ _ Hq _]. simpl.
  rewrite quiet_canRequest; [reflexivity|lia|exact Hq].
Qed.

(** From an entry state each polling loop ends within two rounds; from
    a quiet state it ends at once. *)
Lemma waitGlobal_entry fuel d r :
  entry cfg d r ->
  exists r', waitGlobal (S (S fuel)) r = Some r' /\ entry cfg d r' /\ frame r r' /\
             (Inv cfg r Free -> r' = r).
Proof.
  intros He. destruct He as [H|[H Hd]].
  - exists r. rewrite waitGlobal_quiet by exact H.
    split; [reflexivity|]. split; [left; exact H|]. split; [apply frame_refl|auto].
  - assert (Hno : Inv cfg r Free -> forall r', r' = r).
    { intros H'. pose proof (Inv_phase _ _ _ _ H H'). discriminate. }
    change (waitGlobal (S (S fuel)) r) with
      (if globalConcurrency (self r) <=? globalActive (self r)
       then waitGlobal (S fuel) (sleep PollGlobal 100 r) else Some r).
    destruct (globalConcurrency (self r) <=? globalActive (self r)).
    + assert (H1 : Inv cfg (sleep PollGlobal 100 r) Free).
      { eapply entry_sleep. right. split; [exact H|exact Hd]. }
      exists (sleep PollGlobal 100 r). rewrite waitGlobal_quiet by exact H1.
      split; [reflexivity|]. split; [left; exact H1|].
      split; [apply sleep_frame; discriminate|auto].
    + exists r. split; [reflexivity|]. split; [right; auto|].
      split; [apply frame_refl|auto].
Qed.

Lemma waitDomain_entry fuel d r :
  entry cfg d r ->
  exists r', waitDomain (S (S fuel)) d r = Some r' /\ entry cfg d r' /\ frame r r' /\
             (Inv cfg r Free -> r' = r).
Proof.
  intros He. destruct He as [H|[H Hd]].
  - exists r. rewrite waitDomain_quiet by exact H.
    split; [reflexivity|]. split; [left; exact H|]. split; [apply frame_refl|auto].
  - assert (Hno : Inv cfg r Free -> forall r', r' = r).
    { intros H'. pose proof (Inv_phase _ _ _ _ H H'). discriminate. }
    change (waitDomain (S (S fuel)) d r) with
      (if negb (canRequestDomain (self r) d)
       then waitDomain (S fuel) d (sleep PollDomain 100 r) else Some r).
    destruct (negb (canRequestDomain (self r) d)).
    + assert (H1 : Inv cfg (sleep PollDomain 100 r) Free).
      { eapply entry_sleep. right. split; [exact H|exact Hd]. }
      exists (sleep PollDomain 100 r). rewrite waitDomain_quiet by exact H1.
      split; [reflexivity|]. split; [left; exact H1|].
      split; [apply sleep_frame; discriminate|auto].
    + exists r. split; [reflexivity|]. split; [right; auto|].
      split; [apply frame_refl|auto].
Qed.

(** After [enforceDelay] no [finally] block is pending, and with
    punctual timers the spacing after the last recorded request start of
    the domain has passed; when no wait is due nothing happens. *)
Lemma enforceDelay_entry d r :
  entry cfg d r ->
  Inv cfg (enforceDelay d r) Free /\ frame r (enforceDelay d r) /\
  (punctual ->
   forall last, lastRequestTime (self r) !! d = Some last -> last <> 0 ->
                requestDelay cfg <= clock (enforceDelay d r) - last) /\
  (Inv cfg r Free -> nowait (self r) d (clock r) -> enforceDelay d r = r).
Proof.
  intros He.
  assert (Hrd : requestDelay (self r) = requestDelay cfg).
  { destruct He as [H|[H _]]; apply (Inv_limits _ _ H). }
  unfold RateLimiter.enforceDelay, nowait.
  destruct (lastRequestTime (self r) !! d) as [lastTime|] eqn:Hl.
  - destruct (Z.eqb_spec lastTime 0) as [->|Hnz].
    + split; [eapply entry_suspend, He|]. split; [apply suspend_frame|]. split.
      * intros _ last [= <-]. congruence.
      * intros H _. apply quiet_suspend, H.
    + destruct (Z.ltb_spec (clock r - lastTime) (requestDelay (self r))) as [Hlt|Hge].
      * set (r1 := sleep Spacing (requestDelay (self r) - (clock r - lastTime)) r).
        assert (H1 : Inv cfg r1 Free) by (eapply entry_sleep, He).
        destruct (sleep_frame Spacing (requestDelay (self r) - (clock r - lastTime)) r)
          as (Hf & Hd1); [discriminate|]. fold r1 in Hf, Hd1.
        assert (Hs : suspend r1 = r1) by (unfold suspend; rewrite Hd1; reflexivity).
        rewrite Hs. split; [exact H1|]. split; [exact Hf|]. split.
        -- intros Hp last [= <-] _. unfold r1. rewrite sleep_clock.
           specialize (Hp (requestDelay (self r) - (clock r - lastTime))). lia.
        -- intros _ [H0|H0]; lia.
      * split; [eapply entry_suspend, He|]. split; [apply suspend_frame|]. split.
        -- intros _ last [= <-] _.
           destruct (suspend_frame r) as (_ & -> & _). lia.
        -- intros H _. apply quiet_suspend, H.
  - split; [eapply entry_suspend, He|]. split; [apply suspend_frame|]. split.
    + intros _ last [=].
    + intros H _. apply quiet_suspend, H.
Qed.

(** The increment of the counters, from a quiet state. *)
Lemma acquire_quiet d r :
  Inv cfg r Free ->
  Inv cfg (acquire d r) (Acquired d) /\
  fnCalls (acquire d r) = fnCalls r /\
  (exists c, trace (acquire d r) = trace r ++ [EvAdmit d (clock r); c] /\ polling c) /\
  (forall rd,
     (forall last, lastRequestTime (self r) !! d = Some last -> last <> 0 ->
                   rd <= clock r - last) ->
     spacing rd (lastRequestTime cfg) (trace r) ->
     spacing rd (lastRequestTime cfg) (trace (acquire d r))).
Proof.
  intros [Hc Hw Hr Hst Hq Hdf].
  pose proof (held_increment d (clock r) _ Hq) as Hh.
  assert (Htr : trace (acquire d r) =
                trace r ++ [EvAdmit d (clock r);
                            EvCounters (globalActive (increment d (clock r) (self r)))
                              (domainActive (increment d (clock r) (self r)))]).
  { unfold acquire, emit; simpl. rewrite <- app_assoc. reflexivity. }
  split; [constructor|split; [|split]].
  - exact Hc.
  - rewrite Htr. apply Forall_app. split; [exact Hw|].
    constructor; [exact I|]. constructor; [|constructor].
    exact (within_held (globalConcurrency cfg) (perDomainConcurrency cfg) d _
             global_limit domain_limit Hh).
  - unfold acquire, emit; simpl. rewrite !replay_snoc, Hr. reflexivity.
  - rewrite Htr, starts_app, <- Hst. reflexivity.
  - exact Hh.
  - exact Hdf.
  - reflexivity.
  - eexists. split; [exact Htr|exact I].
  - intros rd Hsp H. rewrite Htr. apply spacing_app. split; [exact H|].
    rewrite <- Hst. simpl. split; [exact Hsp|exact I].
Qed.

(** The invocation of the unit of work, after the increment. *)
Lemma invoke_acquired {A} (fn : nat -> Outcome A) d r :
  Inv cfg r (Acquired d) ->
  (invoke fn r).1 = result (fn (fnCalls r)) /\
  Inv cfg (invoke fn r).2 (Called d) /\
  deferred (invoke fn r).2 = None /\
  fnCalls (invoke fn r).2 = S (fnCalls r) /\
  trace (invoke fn r).2 = trace r ++ [EvCall (fnCalls r)].
Proof.
  intros [Hc Hw Hr Hst Hh Hdf]. simpl in Hdf.
  assert (Hs : suspend r = r) by (unfold suspend; rewrite Hdf; reflexivity).
  unfold invoke. rewrite Hs. simpl.
  split; [reflexivity|]. split; [constructor; simpl|].
  - exact Hc.
  - apply Forall_snoc; [exact Hw|exact I].
  - rewrite replay_snoc, Hr. reflexivity.
  - rewrite starts_app. exact Hst.
  - exact Hh.
  - left. exact Hdf.
  - split; [exact Hdf|]. split; reflexivity.
Qed.

Lemma release_trace d r :
  fnCalls (release d r) = fnCalls r /\
  exists c, trace (release d r) = trace r ++ [EvRelease d; c] /\ polling c.
Proof.
  split; [reflexivity|]. eexists. unfold release, emit; simpl.
  rewrite <- app_assoc. split; [reflexivity|exact I].
Qed.

Lemma retrying_called url attempt r :
  Inv cfg r (Called (getDomain url)) ->
  deferred r = None ->
  entry cfg (getDomain url) (retrying url attempt r) /\
  fnCalls (retrying url attempt r) = fnCalls r /\
  exists line,
    trace (retrying url attempt r) =
      trace r ++ [EvLog line; EvSleep Backoff (calculateBackoff cfg attempt)].
Proof.
  intros H Hdf. unfold RateLimiter.retrying.
  set (line := EvLog _).
  assert (H1 : Inv cfg (emit line r) (Called (getDomain url)))
    by (apply Inv_emit; [exact I|exact H]).
  pose proof (Inv_sleep Backoff (calculateBackoff cfg attempt) _ _ H1) as H2.
  change (deferred (emit line r)) with (deferred r) in H2. rewrite Hdf in H2.
  assert (Hs : suspend (emit line r) = emit line r).
  { unfold suspend. change (deferred (emit line r)) with (deferred r).
    rewrite Hdf. reflexivity. }
  split; [right; split; [|reflexivity]|].
  - destruct H2 as [Hc Hw Hr Hst Hh _]. constructor; auto.
  - unfold RateLimiter.sleep. rewrite Hs. simpl.
    split; [reflexivity|]. eexists. rewrite <- app_assoc. reflexivity.
Qed.

Lemma config_retry s s' url attempt :
  config s = config s' ->
  maxRetries s = maxRetries s' /\
  calculateBackoff s attempt = calculateBackoff s' attempt /\
  retryLine s url attempt (calculateBackoff s attempt) =
    retryLine s' url attempt (calculateBackoff s' attempt).
Proof.
  unfold config, calculateBackoff, retryLine. intros [= Hg Hk Hd Hm Hb].
  rewrite Hd, Hm, Hb. auto.
Qed.

(** What the three kinds of step of an attempt add to the observations
    of a trace. *)
Lemma observe_attempt tr pevs d t c k :
  Forall polling pevs -> polling c ->
  schedule (tr ++ pevs ++ [EvAdmit d t; c; EvCall k]) = schedule tr ++ [Attempt k] /\
  admissions (tr ++ pevs ++ [EvAdmit d t; c; EvCall k]) = admissions tr ++ [(d, t)].
Proof.
  intros Hp Hc.
  destruct (polling_invisible pevs Hp) as (H1 & H2 & _).
  destruct (polling_invisible [c] ltac:(constructor; [exact Hc|constructor]))
    as (H3 & H4 & _).
  change [EvAdmit d t; c; EvCall k] with ([EvAdmit d t] ++ [c] ++ [EvCall k]).
  rewrite !schedule_app, !admissions_app, H1, H2, H3, H4. split; reflexivity.
Qed.

Lemma observe_release tr d c :
  polling c ->
  schedule (tr ++ [EvRelease d; c]) = schedule tr /\
  admissions (tr ++ [EvRelease d; c]) = admissions tr /\
  forall rd m, spacing rd m tr -> spacing rd m (tr ++ [EvRelease d; c]).
Proof.
  intros Hc.
  destruct (polling_invisible [EvRelease d; c]
              ltac:(constructor; [exact I|constructor; [exact Hc|constructor]]))
    as (H1 & H2 & _ & H4).
  rewrite schedule_app, admissions_app, H1, H2, !app_nil_r.
  split; [reflexivity|]. split; [reflexivity|].
  intros rd m H. apply spacing_app. split; [exact H|apply H4].
Qed.

Lemma observe_retry tr line ms :
  schedule (tr ++ [EvLog line; EvSleep Backoff ms]) = schedule tr ++ [Wait ms] /\
  admissions (tr ++ [EvLog line; EvSleep Backoff ms]) = admissions tr /\
  forall rd m, spacing rd m tr -> spacing rd m (tr ++ [EvLog line; EvSleep Backoff ms]).
Proof.
  rewrite schedule_app, admissions_app, app_nil_r.
  split; [reflexivity|]. split; [reflexivity|].
  intros rd m H. apply spacing_app. split; [exact H|exact I].
Qed.

(** One attempt of [execute], from an entry state: the polling ends
    within two rounds, the request is admitted, the unit of work is
    invoked, and the rest is decided by how it ended. *)
Lemma execute_unfold {A} fuel url (fn : nat -> Outcome A) attempt r :
  entry cfg (getDomain url) r ->
  exists r1 pevs t c,
    Inv cfg r1 (Called (getDomain url)) /\
    deferred r1 = None /\
    fnCalls r1 = S (fnCalls r) /\
    trace r1 = trace r ++ pevs ++ [EvAdmit (getDomain url) t; c; EvCall (fnCalls r)] /\
    Forall polling pevs /\ polling c /\
    (punctual ->
     spacing (requestDelay cfg) (lastRequestTime cfg) (trace r) ->
     spacing (requestDelay cfg) (lastRequestTime cfg) (trace r1)) /\
    (Inv cfg r Free -> nowait (self r) (getDomain url) (clock r) ->
     pevs = [] /\ t = clock r) /\
    execute (S (S fuel)) url fn attempt r =
      match result (fn (fnCalls r)) with
      | Normal v => Some (Normal v, release (getDomain url) r1)
      | Throw e =>
          if (attempt <? maxRetries cfg) && shouldRetry e
          then execute (S fuel) url fn (attempt + 1) (retrying url attempt r1)
          else Some (Throw e, release (getDomain url) r1)
      end.
Proof.
  intros He. set (d := getDomain url) in *.
  destruct (waitGlobal_entry fuel d r He) as (r1 & Hw1 & He1 & Hf1 & Hq1).
  destruct (waitDomain_entry fuel d r1 He1) as (r2 & Hw2 & He2 & Hf2 & Hq2).
  destruct (enforceDelay_entry d r2 He2) as (H3 & Hf3 & Hsp & Hq3).
  pose proof (frame_trans _ _ _ (frame_trans _ _ _ Hf1 Hf2) Hf3) as Hf.
  destruct (frame_observations _ _ Hf) as (_ & _ & _ & Fs).
  destruct Hf as (Fc & Fl & pevs & Ftr & Fp).
  destruct Hf3 as (_ & Fl3 & _).
  set (r3 := enforceDelay d r2) in *.
  destruct (acquire_quiet d r3 H3) as (H4 & Ac & (c & Atr & Hc) & As).
  destruct (invoke_acquired fn d (acquire d r3) H4) as (Ir & H5 & Id & Ic & Itr).
  exists (invoke fn (acquire d r3)).2, pevs, (clock r3), c.
  split; [exact H5|]. split; [exact Id|]. split; [congruence|].
  split; [|split; [exact Fp|split; [exact Hc|split; [|split]]]].
  - rewrite Itr, Atr, Ftr, Ac, Fc, <- !app_assoc. reflexivity.
  - intros Hp Hall. rewrite Itr. apply spacing_app. split; [|exact I].
    apply As; [|apply Fs, Hall].
    intros last Hl Hnz. apply Hsp; [exact Hp| |exact Hnz].
    rewrite <- Fl3. exact Hl.
  - intros Hfree Hnw.
    assert (E1 : r1 = r) by (apply Hq1, Hfree). subst r1.
    assert (E2 : r2 = r) by (apply Hq2, Hfree). subst r2.
    assert (E3 : r3 = r) by (apply Hq3; assumption).
    rewrite E3 in *. split; [|reflexivity].
    apply (app_inv_head (trace r)). rewrite app_nil_r. symmetry. exact Ftr.
  - change (execute (S (S fuel)) url fn attempt r) with
      (r ← waitGlobal (S (S fuel)) r;
       r ← waitDomain (S (S fuel)) d r;
       let r := enforceDelay d r in
       let r := acquire d r in
       match invoke fn r with
       | (Normal result, r) => Some (Normal result, release d r)
       | (Throw error, r) =>
           if (attempt <? maxRetries (self r)) && shouldRetry error then
             let backoffDelay := calculateBackoff (self r) attempt in
             let r := emit (EvLog (retryLine (self r) url attempt backoffDelay)) r in
             let r := sleep Backoff backoffDelay r in
             execute (S fuel) url fn (attempt + 1) (defer d r)
           else Some (Throw error, release d r)
       end).
    rewrite Hw1. cbn [mbind option_bind]. rewrite Hw2. cbn [mbind option_bind].
    cbv zeta. fold r3. unfold RateLimiter.retrying. fold d.
    rewrite Ac, Fc in Ir.
    destruct (invoke fn (acquire d r3)) as [res r4]. cbn [fst snd] in *. subst res.
    destruct (result (fn (fnCalls r))) as [v|e]; [reflexivity|].
    destruct H5 as [Hcfg _ _ _ _ _].
    destruct (config_retry _ _ url attempt Hcfg) as (-> & -> & ->).
    reflexivity.
Qed.

(** The unit of work fails [m] times with an error that is retried, and
    its next outcome is final: a value, an error that [shouldRetry]
    rejects, or an error when no retry is left.  Then [execute] returns
    that outcome as it is. *)
Lemma execute_failures {A} url (fn : nat -> Outcome A) m :
  forall attempt r fuel,
    entry cfg (getDomain url) r ->
    (forall i, (i < m)%nat ->
       attempt + Z.of_nat i < maxRetries cfg /\
       exists e, result (fn (fnCalls r + i)%nat) = Throw e /\ shouldRetry e = true) ->
    match result (fn (fnCalls r + m)%nat) with
    | Normal _ => True
    | Throw e => shouldRetry e = false \/ maxRetries cfg <= attempt + Z.of_nat m
    end ->
    (m + 2 <= fuel)%nat ->
    exists r',
      execute fuel url fn attempt r = Some (result (fn (fnCalls r + m)%nat), r') /\
      Inv cfg r' Free /\
      fnCalls r' = S (fnCalls r + m) /\
      schedule (trace r') = schedule (trace r) ++ attempts cfg (fnCalls r) attempt m /\
      exists t rest,
        admissions (trace r') = admissions (trace r) ++ (getDomain url, t) :: rest /\
        (Inv cfg r Free -> nowait (self r) (getDomain url) (clock r) -> t = clock r).
Proof.
  induction m as [|m IH]; intros attempt r fuel He Hfail Hfinal Hfuel.
  - destruct fuel as [|[|fuel]]; [lia..|].
    destruct (execute_unfold fuel url fn attempt r He)
      as (r1 & pevs & t & c & H1 & Hd1 & Hc1 & Ht1 & Hp & Hc & _ & Hnow & Hex).
    destruct (observe_attempt (trace r) pevs (getDomain url) t c (fnCalls r) Hp Hc)
      as (Hs1 & Ha1).
    destruct (release_trace (getDomain url) r1) as (Hc2 & c2 & Ht2 & Hpc2).
    destruct (observe_release (trace r1) (getDomain url) c2 Hpc2) as (Hs2 & Ha2 & _).
    rewrite Nat.add_0_r in *. rewrite Z.add_0_r in Hfinal.
    exists (release (getDomain url) r1).
    split; [|split; [apply Inv_release; assumption|split; [congruence|split]]].
    + rewrite Hex. destruct (result (fn (fnCalls r))) as [v|e]; [reflexivity|].
      destruct Hfinal as [Hf|Hf].
      * rewrite Hf, andb_false_r. reflexivity.
      * destruct (Z.ltb_spec attempt (maxRetries cfg)); [lia|reflexivity].
    + rewrite Ht2, Hs2, Ht1, Hs1. reflexivity.
    + exists t, []. rewrite Ht2, Ha2, Ht1, Ha1. split; [reflexivity|].
      intros Hfree Hnw. apply (Hnow Hfree Hnw).
  - destruct fuel as [|[|fuel]]; [lia..|].
    destruct (execute_unfold fuel url fn attempt r He)
      as (r1 & pevs & t & c & H1 & Hd1 & Hc1 & Ht1 & Hp & Hc & _ & Hnow & Hex).
    destruct (observe_attempt (trace r) pevs (getDomain url) t c (fnCalls r) Hp Hc)
      as (Hs1 & Ha1).
    destruct (Hfail 0%nat ltac:(lia)) as (Hlt & e & He0 & Hre).
    rewrite Nat.add_0_r in He0. rewrite Z.add_0_r in Hlt.
    rewrite Hex, He0, Hre.
    destruct (Z.ltb_spec attempt (maxRetries cfg)); [|lia]. simpl.
    destruct (retrying_called url attempt r1 H1 Hd1) as (He2 & Hc2 & line & Ht2).
    destruct (observe_retry (trace r1) line (calculateBackoff cfg attempt))
      as (Hs2 & Ha2 & _).
    assert (Hk : forall j, (fnCalls (retrying url attempt r1) + j = fnCalls r + S j)%nat)
      by (intros j; rewrite Hc2, Hc1; lia).
    destruct (IH (attempt + 1) (retrying url attempt r1) (S fuel) He2)
      as (r' & Hex' & H' & Hc' & Hs' & t' & rest & Ha' & _).
    + intros i Hi. rewrite Hk. destruct (Hfail (S i) ltac:(lia)) as (Hlt' & He').
      split; [lia|exact He'].
    + rewrite Hk. destruct (result (fn (fnCalls r + S m)%nat)); [exact I|].
      destruct Hfinal; [left; assumption|right; lia].
    + lia.
    + rewrite Hk in *. exists r'.
      split; [exact Hex'|]. split; [exact H'|]. split; [lia|]. split.
      * rewrite Hs', Ht2, Hs2, Ht1, Hs1, Hc2, Hc1, <- !app_assoc. reflexivity.
      * exists t, ((getDomain url, t') :: rest).
        rewrite Ha', Ht2, Ha2, Ht1, Ha1, <- app_assoc. split; [reflexivity|].
        intros Hfree Hnw. apply (Hnow Hfree Hnw).
Qed.

(** Whatever the unit of work does, [execute] returns: at most
    [maxRetries] retries follow the first attempt. *)
Lemma execute_total {A} url (fn : nat -> Outcome A) fuel :
  forall attempt r,
    entry cfg (getDomain url) r ->
    (Z.to_nat (maxRetries cfg - attempt) + 2 <= fuel)%nat ->
    exists res r',
      execute fuel url fn attempt r = Some (res, r') /\
      Inv cfg r' Free /\
      (punctual ->
       spacing (requestDelay cfg) (lastRequestTime cfg) (trace r) ->
       spacing (requestDelay cfg) (lastRequestTime cfg) (trace r')) /\
      (res = result (fn (Nat.pred (fnCalls r'))) /\ (fnCalls r < fnCalls r')%nat).
Proof.
  induction fuel as [|fuel IH]; intros attempt r He Hfuel; [lia|].
  destruct fuel as [|fuel]; [lia|].
  destruct (execute_unfold fuel url fn attempt r He)
    as (r1 & pevs & t & c & H1 & Hd1 & Hc1 & _ & _ & _ & Hsp1 & _ & Hex).
  destruct (release_trace (getDomain url) r1) as (Hc2 & c2 & Ht2 & Hpc2).
  destruct (observe_release (trace r1) (getDomain url) c2 Hpc2) as (_ & _ & Hsp2).
  assert (Hdone : forall res, res = result (fn (fnCalls r)) ->
            exists res' r',
              Some (res, release (getDomain url) r1) = Some (res', r') /\
              Inv cfg r' Free /\
              (punctual ->
               spacing (requestDelay cfg) (lastRequestTime cfg) (trace r) ->
               spacing (requestDelay cfg) (lastRequestTime cfg) (trace r')) /\
              (res' = result (fn (Nat.pred (fnCalls r'))) /\ (fnCalls r < fnCalls r')%nat)).
  { intros res ->. eexists _, _. split; [reflexivity|].
    split; [apply Inv_release; assumption|]. split.
    - intros Hp Hall. rewrite Ht2. apply Hsp2, Hsp1; assumption.
    - rewrite Hc2, Hc1. simpl. split; [reflexivity|lia]. }
  rewrite Hex. destruct (result (fn (fnCalls r))) as [v|e] eqn:Hres;
    [apply Hdone; reflexivity|].
  destruct ((attempt <? maxRetries cfg) && shouldRetry e) eqn:Hretry;
    [|apply Hdone; reflexivity].
  apply andb_true_iff in Hretry as [Hlt _]. apply Z.ltb_lt in Hlt.
  destruct (retrying_called url attempt r1 H1 Hd1) as (He2 & Hc2' & line & Ht2').
  destruct (observe_retry (trace r1) line (calculateBackoff cfg attempt))
    as (_ & _ & Hsp2').
  destruct (IH (attempt + 1) (retrying url attempt r1) He2 ltac:(lia))
    as (res & r' & Hex' & H' & Hsp' & Hres' & Hlt').
  exists res, r'. split; [exact Hex'|]. split; [exact H'|]. split.
  - intros Hp Hall. apply Hsp'; [exact Hp|]. rewrite Ht2'. apply Hsp2', Hsp1; assumption.
  - split; [exact Hres'|]. rewrite Hc2', Hc1 in Hlt'. lia.
Qed.

End Sequential.


Lemma quiet_fresh s : domainActive s = ∅ -> globalActive s = 0 -> quiet s.
Proof.
  intros Hd H0. split; [exact H0|]. intros d n. rewrite Hd, lookup_empty.
  discriminate.
Qed.

Lemma Inv_start s now : quiet s -> Inv s (start s now) Free.
Proof. intros Hq. constructor; simpl; auto. Qed.

Lemma flat_map_seq_shift {X} (f : nat -> list X) m :
  flat_map f (seq 1 m) = flat_map (fun i => f (S i)) (seq 0 m).
Proof.
  generalize 0%nat. induction m as [|m IH]; intros a; [reflexivity|].
  cbn [seq flat_map]. rewrite IH. reflexivity.
Qed.

Lemma attempts_flat_map s k attempt m :
  attempts s k attempt m =
  flat_map (fun i => [Attempt (k + i);
                      Wait (requestDelay s * backoffBase s ^ (attempt + Z.of_nat i))])
    (seq 0 m) ++ [Attempt (k + m)].
Proof.
  revert k attempt. induction m as [|m IH]; intros k attempt.
  - simpl. rewrite Nat.add_0_r. reflexivity.
  - cbn [attempts]. rewrite IH. cbn [seq flat_map]. rewrite flat_map_seq_shift.
    rewrite Nat.add_0_r, Z.add_0_r. unfold calculateBackoff. cbn [app].
    do 2 f_equal. f_equal; [|f_equal; f_equal; lia].
    apply flat_map_ext. intros i.
    replace (S k + i)%nat with (k + S i)%nat by lia.
    replace (attempt + 1 + Z.of_nat i) with (attempt + Z.of_nat (S i)) by lia.
    reflexivity.
Qed.

(** C1 (as amended): the retry algorithm of [execute], called with
    [attempt = 0] at time [now] on a limiter with limits of at least one
    and no request in flight.  The unit of work fails with a retryable
    error at its first [n] invocations.  The schedule of the call is:
    attempt 0 first, with no backoff before it, and before the retry with
    index [i] a wait of [requestDelay * backoffBase ^ i].
    - If the next invocation succeeds and [maxRetries >= n] (or [n = 0]),
      the call returns its value after [n] retries.
    - If [maxRetries < n] (and [n > 0]), the call throws, after
      [maxRetries] retries (none when [maxRetries] is negative), the very
      error that the last attempt threw.
    - If the next invocation fails with an error that [shouldRetry]
      rejects and [maxRetries >= n] (or [n = 0]), the call throws that
      very error after [n] retries.
    In each case attempt 0 is admitted at time [now] itself when no
    spacing wait is due for the host.  The error is thrown as the unit of
    work raised it; no attempt count is attached to it. *)
Theorem execute_retry_algorithm {A} (s : t) now url (fn : nat -> Outcome A) n fuel :
  1 <= globalConcurrency s ->
  1 <= perDomainConcurrency s ->
  quiet s ->
  (forall i, (i < n)%nat ->
     exists e, result (fn i) = Throw e /\ shouldRetry e = true) ->
  (n + 2 <= fuel)%nat ->
  let run := execute fuel url fn 0 (start s now) in
  let plan (m : nat) :=
    flat_map (fun i => [Attempt i; Wait (requestDelay s * backoffBase s ^ Z.of_nat i)])
      (seq 0 m) ++ [Attempt m] in
  let at_once (r' : Run) :=
    nowait s (getDomain url) now ->
    head (admissions (trace r')) = Some (getDomain url, now) in
  (forall v,
     result (fn n) = Normal v ->
     n = 0%nat \/ Z.of_nat n <= maxRetries s ->
     exists r', run = Some (Normal v, r') /\
                fnCalls r' = (n + 1)%nat /\ schedule (trace r') = plan n /\
                at_once r') /\
  ((0 < n)%nat -> maxRetries s < Z.of_nat n ->
     let m := Z.to_nat (maxRetries s) in
     exists e r', result (fn m) = Throw e /\
                  run = Some (Throw e, r') /\
                  fnCalls r' = (m + 1)%nat /\ schedule (trace r') = plan m /\
                  at_once r') /\
  (forall e,
     result (fn n) = Throw e -> shouldRetry e = false ->
     n = 0%nat \/ Z.of_nat n <= maxRetries s ->
     exists r', run = Some (Throw e, r') /\
                fnCalls r' = (n + 1)%nat /\ schedule (trace r') = plan n /\
                at_once r').
Proof.
  intros Hg Hk Hq Hfail Hfuel run plan at_once.
  assert (Hrun : forall m,
            (m <= n)%nat ->
            (forall i, (i < m)%nat -> Z.of_nat i < maxRetries s) ->
            match result (fn m) with
            | Normal _ => True
            | Throw e => shouldRetry e = false \/ maxRetries s <= Z.of_nat m
            end ->
            exists r',
              run = Some (result (fn m), r') /\
              fnCalls r' = (m + 1)%nat /\ schedule (trace r') = plan m /\
              at_once r').
  { intros m Hm Hlt Hfinal.
    destruct (execute_failures s Hg Hk url fn m 0 (start s now) fuel)
      as (r' & Hex & _ & Hc & Hs & t & rest & Ha & Ht).
    - left. apply Inv_start, Hq.
    - intros i Hi. split; [apply Hlt, Hi|apply (Hfail i); lia].
    - exact Hfinal.
    - lia.
    - exists r'. split; [exact Hex|]. split; [simpl in Hc; lia|]. split.
      + rewrite Hs, attempts_flat_map. reflexivity.
      + intros Hnw. rewrite Ha. simpl. f_equal. f_equal.
        apply Ht; [apply Inv_start, Hq|exact Hnw]. }
  split; [|split].
  - intros v Hv Hn. destruct (Hrun n) as (r' & Hex & Hr'); [lia|lia|rewrite Hv; exact I|].
    rewrite Hv in Hex. eauto.
  - intros Hpos Hn m.
    assert (Hm : (m < n)%nat) by (unfold m; lia).
    destruct (Hfail m Hm) as (e & He & _).
    destruct (Hrun m) as (r' & Hex & Hr'); [lia|unfold m; lia| |].
    + rewrite He. right. unfold m. lia.
    + rewrite He in Hex. eauto.
  - intros e He Hfatal Hn.
    destruct (Hrun n) as (r' & Hex & Hr'); [lia|lia|rewrite He; left; exact Hfatal|].
    rewrite He in Hex. eauto.
Qed.

(** C7 (as amended): the constructor never throws.  A limit that is
    missing or zero is replaced by its default (3 globally, 1 per domain),
    so the limiter never holds a limit of zero; any other limit is taken
    as it is.  A limit that was configured non-negative is therefore at
    least one in the limiter. *)
Theorem constructor_limits options :
  exists s,
    constructor options = Normal s /\
    globalConcurrency s = orNum (concurrency options) 3 /\
    perDomainConcurrency s = orNum (opt_perDomainConcurrency options) 1 /\
    globalConcurrency s <> 0 /\ perDomainConcurrency s <> 0 /\
    (1 <= globalConcurrency s \/
     concurrency options = Some (globalConcurrency s) /\ globalConcurrency s < 0) /\
    (1 <= perDomainConcurrency s \/
     opt_perDomainConcurrency options = Some (perDomainConcurrency s) /\
     perDomainConcurrency s < 0) /\
    quiet s.
Proof.
  eexists. split; [reflexivity|].
  cbn [globalConcurrency perDomainConcurrency].
  assert (H : forall o d, 1 <= d ->
            orNum o d <> 0 /\ (1 <= orNum o d \/ o = Some (orNum o d) /\ orNum o d < 0)).
  { intros [n|] d Hd; simpl; [|lia].
    destruct (Z.eqb_spec n 0); [lia|]. split; [lia|].
    destruct (Z.le_gt_cases 1 n); [left; lia|right; split; [reflexivity|lia]]. }
  destruct (H (concurrency options) 3 ltac:(lia)) as (H1 & H2).
  destruct (H (opt_perDomainConcurrency options) 1 ltac:(lia)) as (H3 & H4).
  repeat split; auto; apply quiet_fresh; reflexivity.
Qed.

(** With a global limit of zero or less the first polling loop never
    ends: [execute] admits nothing, whatever the fuel. *)
Lemma waitGlobal_stuck fuel r :
  globalConcurrency (self r) <= 0 -> 0 <= globalActive (self r) ->
  deferred r = None -> waitGlobal fuel r = None.
Proof.
  revert r. induction fuel as [|fuel IH]; intros r Hg Ha Hd; [reflexivity|].
  simpl. destruct (Z.leb_spec (globalConcurrency (self r)) (globalActive (self r))); [|lia].
  apply IH; unfold RateLimiter.sleep, suspend; rewrite Hd; simpl; auto.
Qed.

Lemma execute_stuck {A} fuel url (fn : nat -> Outcome A) attempt r :
  globalConcurrency (self r) <= 0 -> 0 <= globalActive (self r) ->
  deferred r = None -> execute fuel url fn attempt r = None.
Proof.
  intros Hg Ha Hd. destruct fuel as [|fuel]; [reflexivity|].
  change (execute (S fuel) url fn attempt r) with
    (r ← waitGlobal (S fuel) r;
     r ← waitDomain (S fuel) (getDomain url) r;
     let r := enforceDelay (getDomain url) r in
     let r := acquire (getDomain url) r in
     match invoke fn r with
     | (Normal result, r) => Some (Normal result, release (getDomain url) r)
     | (Throw error, r) =>
         if (attempt <? maxRetries (self r)) && shouldRetry error then
           let backoffDelay := calculateBackoff (self r) attempt in
           let r := emit (EvLog (retryLine (self r) url attempt backoffDelay)) r in
           let r := sleep Backoff backoffDelay r in
           execute fuel url fn (attempt + 1) (defer (getDomain url) r)
         else Some (Throw error, release (getDomain url) r)
     end).
  rewrite waitGlobal_stuck by assumption. reflexivity.
Qed.

End RateLimiterFacts.


(* ===================================================================== *)
(** ** Properties of the scraper *)
(* ===================================================================== *)

Section ScraperFacts.

Import Scraper.

Variable Data : Type.
Variable URL_parse : string -> option URL.
Variable network : nat -> string -> RobotsChecker.NetReply.
Variable robotsParser : string -> string -> completion RobotsChecker.Robots.
Variable timer : Z -> Z.
Variable latency : nat -> string -> Z.
Variable browser : nat -> string -> Visit Data.

Abbreviation checkUrl := (RobotsChecker.checkUrl URL_parse network robotsParser).
Abbreviation execute := (RateLimiter.execute URL_parse timer).
Abbreviation fn := (fn Data browser).
Abbreviation scrapeUrl :=
  (scrapeUrl Data URL_parse network robotsParser timer latency browser).
Abbreviation scrapeUrls_loop :=
  (scrapeUrls_loop Data URL_parse network robotsParser timer latency browser).
Abbreviation scrapeUrls :=
  (scrapeUrls Data URL_parse network robotsParser timer latency browser).
Abbreviation punctual := (RateLimiter.punctual timer).

(** Every result of the unit of work is a result for its own URL. *)
Lemma visit_url u v res : visit Data u v = Normal res -> url Data res = u.
Proof.
  unfold visit. destruct (newPage Data v); [discriminate|].
  destruct (close Data v); [discriminate|].
  destruct (visit_try Data u v) as [r|e] eqn:Ht; intros [= <-]; [|reflexivity].
  unfold visit_try in Ht.
  destruct (setExtraHTTPHeaders Data v); [discriminate|].
  destruct (goto Data v) as [st|]; [|discriminate].
  destruct (negb (truthyNum st) || (400 <=? default 0 st)); [discriminate|].
  destruct (waitForTimeout Data v); [discriminate|].
  destruct (detectAntiBot Data v); [injection Ht as <-; reflexivity|].
  destruct (extract Data v); [injection Ht as <-; reflexivity|discriminate].
Qed.

Section Sequential.

Variable cfg : RateLimiter.t.
Hypothesis global_limit : 1 <= RateLimiter.globalConcurrency cfg.
Hypothesis domain_limit : 1 <= RateLimiter.perDomainConcurrency cfg.

Abbreviation steady := (steady timer cfg).

Lemma scrapeUrl_total fuel u w :
  RateLimiter.Inv cfg (limiter w) RateLimiter.Free ->
  (Z.to_nat (RateLimiter.maxRetries cfg) + 2 <= fuel)%nat ->
  exists res w',
    scrapeUrl fuel u w = Some (Normal res, w') /\ url Data res = u /\ steady w w'.
Proof.
  intros Hinv Hfuel. unfold Scraper.scrapeUrl.
  destruct (checkUrl u "*" (robots w)) as [chk rb].
  set (r := RateLimiter.advance _ (limiter w)).
  assert (Hr : RateLimiter.Inv cfg r RateLimiter.Free) by (apply Inv_advance, Hinv).
  destruct (negb (truthyBool (RobotsChecker.allowed chk))).
  - eexists _, _. split; [reflexivity|]. split; [reflexivity|].
    split; [exact Hr|auto].
  - destruct (execute_total URL_parse timer cfg global_limit domain_limit u (fn u)
                fuel 0 r) as (res & r' & Hex & Hinv' & Hsp & Hres & _).
    + left. exact Hr.
    + rewrite Z.sub_0_r. exact Hfuel.
    + rewrite Hex. destruct res as [res|e].
      * eexists _, _. split; [reflexivity|]. split; [|split; [exact Hinv'|exact Hsp]].
        symmetry in Hres. apply visit_url in Hres. exact Hres.
      * eexists _, _. split; [reflexivity|]. split; [reflexivity|].
        split; [exact Hinv'|exact Hsp].
Qed.

Lemma scrapeUrls_loop_total fuel urls :
  forall results w,
    RateLimiter.Inv cfg (limiter w) RateLimiter.Free ->
    (Z.to_nat (RateLimiter.maxRetries cfg) + 2 <= fuel)%nat ->
    exists results' w',
      scrapeUrls_loop fuel urls results w = Some (results ++ results', w') /\
      map (url Data) results' = urls /\ steady w w'.
Proof.
  induction urls as [|u urls IH]; intros results w Hinv Hfuel.
  - exists [], w. rewrite app_nil_r. split; [reflexivity|]. split; [reflexivity|].
    split; [exact Hinv|auto].
  - destruct (scrapeUrl_total fuel u w Hinv Hfuel) as (res & w1 & Hs & Hu & Hinv1 & Hsp1).
    destruct (IH (results ++ [res]) w1 Hinv1 Hfuel) as (rs & w' & Hl & Hm & Hinv' & Hsp').
    exists (res :: rs), w'. cbn [Scraper.scrapeUrls_loop]. rewrite Hs, Hl.
    rewrite <- app_assoc. split; [reflexivity|]. split; [simpl; congruence|].
    split; [exact Hinv'|auto].
Qed.

End Sequential.



(** C2 (as amended): during such a run, when timers do not fire early,
    every admission of a request for a host comes at least
    [requestDelay] after the previous admission for that host, or, for
    the first one of the run, after the request start that the limiter
    had on record for the host (a record of time zero counts as none).
    The spacing is [requestDelay] whatever crawl delay the robots.txt of
    the origin asks for: the limiter never reads it. *)
Theorem admissions_spaced s now urls fuel w :
  1 <= RateLimiter.globalConcurrency s ->
  1 <= RateLimiter.perDomainConcurrency s ->
  RateLimiter.quiet s ->
  limiter w = RateLimiter.start s now ->
  (Z.to_nat (RateLimiter.maxRetries s) + 2 <= fuel)%nat ->
  punctual ->
  exists results w',
    scrapeUrls fuel urls w = Some (results, w') /\
    RateLimiter.spacing (RateLimiter.requestDelay s) (RateLimiter.lastRequestTime s)
      (RateLimiter.trace (limiter w')).
Proof.
  intros Hg Hk Hq Hw Hfuel Hp.
  destruct (scrapeUrls_loop_total s Hg Hk fuel urls [] w) as (rs & w' & Hl & _ & _ & Hsp).
  - rewrite Hw. apply Inv_start, Hq.
  - exact Hfuel.
  - exists rs, w'. split; [exact Hl|]. apply Hsp; [exact Hp|].
    rewrite Hw. exact I.
Qed.

(** C5: when [checkUrl] does not allow the URL, [scrapeUrl] returns a
    ['skipped'] result carrying the reason given by [checkUrl], and the
    limiter is left as it was: no admission, no counter changed, no
    invocation of the unit of work, no wait; only the clock has moved by
    the time that the check took. *)
Theorem scrapeUrl_denied fuel u w :
  truthyBool (RobotsChecker.allowed (checkUrl u "*" (robots w)).1) = false ->
  exists w',
    scrapeUrl fuel u w =
      Some (Normal {| url := u; status := skipped;
                      reason := "Disallowed by robots.txt"; data := None |}, w') /\
    robots w' = (checkUrl u "*" (robots w)).2 /\
    RateLimiter.self (limiter w') = RateLimiter.self (limiter w) /\
    RateLimiter.trace (limiter w') = RateLimiter.trace (limiter w) /\
    RateLimiter.fnCalls (limiter w') = RateLimiter.fnCalls (limiter w) /\
    RateLimiter.deferred (limiter w') = RateLimiter.deferred (limiter w).
Proof.
  intros H. unfold Scraper.scrapeUrl.
  rewrite checkUrl_unfold in *. cbn [fst snd RobotsChecker.allowed] in *.
  rewrite H. eexists. split; [reflexivity|]. repeat split.
Qed.

End ScraperFacts.


(* ===================================================================== *)
(** ** The properties on the concrete platform *)
(* ===================================================================== *)

Lemma Concrete_sameOrigin a b :
  RobotsChecker.sameOrigin Concrete.URL_parse a b -> Concrete.sameOrigin a b = true.
Proof.
  unfold RobotsChecker.sameOrigin, Concrete.sameOrigin.
  destruct (Concrete.URL_parse a) as [x|]; [|tauto].
  destruct (Concrete.URL_parse b) as [y|]; [|tauto].
  intros (-> & -> & ->). rewrite !String.eqb_refl. reflexivity.
Qed.

Lemma Concrete_empty_file_allows :
  RobotsChecker.empty_file_allows Concrete.URL_parse Concrete.robotsParser.
Proof.
  intros robotsUrl. eexists. split; [reflexivity|].
  intros url ua H. cbn [RobotsChecker.parser_isAllowed].
  rewrite (Concrete_sameOrigin _ _ H). reflexivity.
Qed.

Lemma Concrete_punctual : RateLimiter.punctual Concrete.timer.
Proof. intros ms. unfold Concrete.timer. lia. Qed.

Lemma Concrete_new_RateLimiter :
  RateLimiter.constructor
    {| RateLimiter.concurrency := None; RateLimiter.opt_perDomainConcurrency := None;
       RateLimiter.opt_requestDelay := None; RateLimiter.opt_maxRetries := None;
       RateLimiter.opt_backoffBase := None |} = Normal Concrete.defaults /\
  Scraper.constructor
    {| Scraper.concurrency := None; Scraper.requestDelay := None |}
    {| Scraper.CONCURRENCY := None; Scraper.REQUEST_DELAY_MS := None;
       Scraper.PER_DOMAIN_CONCURRENCY := None; Scraper.MAX_RETRIES := None;
       Scraper.EXPONENTIAL_BACKOFF_BASE := None |} = Normal Concrete.defaults.
Proof. split; reflexivity. Qed.

(** A batch with a page that loads at the third attempt, a browser
    failure that is retried three times, a URL that robots.txt denies, a
    string that is no URL, a page answered with 404 and a page that
    loads. *)
Example scrapeUrls_batch :
  match Concrete.scrapeUrls 5 Concrete.batch (Concrete.world Concrete.defaults) with
  | Some (results, w) =>
      map (fun r => (Scraper.status string r, Scraper.reason string r)) results =
        [(Scraper.success, EmptyString);
         (Scraper.error, "browserContext.newPage: ECONNRESET");
         (Scraper.skipped, "Disallowed by robots.txt");
         (Scraper.skipped, "Disallowed by robots.txt");
         (Scraper.error, "HTTP 404");
         (Scraper.success, EmptyString)] /\
      RateLimiter.schedule (RateLimiter.trace (Scraper.limiter w)) =
        [RateLimiter.Attempt 0; RateLimiter.Wait 2000;
         RateLimiter.Attempt 1; RateLimiter.Wait 4000;
         RateLimiter.Attempt 2;
         RateLimiter.Attempt 3; RateLimiter.Wait 2000;
         RateLimiter.Attempt 4; RateLimiter.Wait 4000;
         RateLimiter.Attempt 5; RateLimiter.Wait 8000;
         RateLimiter.Attempt 6;
         RateLimiter.Attempt 7;
         RateLimiter.Attempt 8]
  | None => False
  end.
Proof. vm_compute. split; reflexivity. Qed.

(** With the default configuration, a unit of work that always fails
    with status 503 is attempted four times, with waits of 2000, 4000 and
    8000 ms in between, and its error is rethrown; one that fails with
    status 404 is attempted once. *)
Example execute_status_503 :
  match Concrete.execute 5 "https://ok.example/a" Concrete.always_503 0
          (RateLimiter.start Concrete.defaults 1000000) with
  | Some (outcome, r) =>
      outcome = Throw (mkError "HTTP 503") /\
      RateLimiter.schedule (RateLimiter.trace r) =
        [RateLimiter.Attempt 0; RateLimiter.Wait 2000;
         RateLimiter.Attempt 1; RateLimiter.Wait 4000;
         RateLimiter.Attempt 2; RateLimiter.Wait 8000;
         RateLimiter.Attempt 3]
  | None => False
  end.
Proof. vm_compute. split; reflexivity. Qed.

Example execute_status_404 :
  match Concrete.execute 5 "https://ok.example/a" Concrete.always_404 0
          (RateLimiter.start Concrete.defaults 1000000) with
  | Some (outcome, r) =>
      outcome = Throw (mkError "HTTP 404") /\
      RateLimiter.schedule (RateLimiter.trace r) = [RateLimiter.Attempt 0]
  | None => False
  end.
Proof. vm_compute. split; reflexivity. Qed.

(** C1, on a unit of work that times out twice: two retries, after 2000
    and 4000 ms, then its value. *)
Lemma execute_retry_algorithm_witness :
  exists r',
    Concrete.execute 4 "https://ok.example/a" Concrete.twice_late 0
      (RateLimiter.start Concrete.defaults 1000000) = Some (Normal "done", r') /\
    RateLimiter.fnCalls r' = 3%nat /\
    RateLimiter.schedule (RateLimiter.trace r') =
      [RateLimiter.Attempt 0; RateLimiter.Wait 2000;
       RateLimiter.Attempt 1; RateLimiter.Wait 4000; RateLimiter.Attempt 2] /\
    head (RateLimiter.admissions (RateLimiter.trace r')) = Some ("ok.example", 1000000).
Proof.
  destruct (execute_retry_algorithm Concrete.URL_parse Concrete.timer Concrete.defaults
              1000000 "https://ok.example/a" Concrete.twice_late 2 4) as (H & _ & _).
  - simpl. lia.
  - simpl. lia.
  - apply quiet_fresh; reflexivity.
  - intros i Hi. destruct i as [|[|i]]; [eexists; split; reflexivity..|lia].
  - lia.
  - destruct (H "done" eq_refl) as (r' & H1 & H2 & H3 & H4); [right; simpl; lia|].
    exists r'. split; [exact H1|]. split; [exact H2|]. split; [exact H3|].
    apply H4. exact I.
Defined.

(** C1 as stated fails: the error that reaches the caller carries no
    attempt count.  After two attempts and after four attempts the caller
    receives the same value, the error of the unit of work. *)
Lemma execute_error_has_no_attempt_count :
  RateLimiter.received
    (Concrete.execute 9 "https://ok.example/a" Concrete.always_late 0
       (RateLimiter.start (Concrete.limiter 1) 1000000))
    = Some (Throw (mkError "connect ETIMEDOUT"), 2%nat) /\
  RateLimiter.received
    (Concrete.execute 9 "https://ok.example/a" Concrete.always_late 0
       (RateLimiter.start (Concrete.limiter 3) 1000000))
    = Some (Throw (mkError "connect ETIMEDOUT"), 4%nat).
Proof. split; vm_compute; reflexivity. Qed.

(** C2, on the batch. *)
Lemma admissions_spaced_witness :
  exists results w',
    Concrete.scrapeUrls 5 Concrete.batch (Concrete.world Concrete.defaults)
      = Some (results, w') /\
    RateLimiter.spacing 2000 ∅ (RateLimiter.trace (Scraper.limiter w')).
Proof.
  apply (admissions_spaced string Concrete.URL_parse Concrete.network
           Concrete.robotsParser Concrete.timer Concrete.latency Concrete.browser
           Concrete.defaults 1000000 Concrete.batch 5 (Concrete.world Concrete.defaults)).
  - simpl. lia.
  - simpl. lia.
  - apply quiet_fresh; reflexivity.
  - reflexivity.
  - simpl. lia.
  - exact Concrete_punctual.
Defined.

(** C2 as stated fails: the robots.txt of [slow.example] asks for a crawl
    delay of ten seconds, [getCrawlDelay] reports 10000 ms for the origin,
    and the second request to the host is admitted 2000 ms after the
    first. *)
Lemma crawl_delay_not_enforced :
  exists results w',
    Concrete.scrapeUrls 5 ["https://slow.example/a"; "https://slow.example/b"]
      (Concrete.world Concrete.defaults) = Some (results, w') /\
    (RobotsChecker.getCrawlDelay Concrete.network Concrete.robotsParser
       "https://slow.example" "*" (Scraper.robots w')).1 = 10000 /\
    RateLimiter.requestDelay (RateLimiter.self (Scraper.limiter w')) = 2000 /\
    RateLimiter.admissions (RateLimiter.trace (Scraper.limiter w')) =
      [("slow.example", 1000020); ("slow.example", 1002020)].
Proof.
  eexists _, _. split; [vm_compute; reflexivity|].
  split; [|split]; vm_compute; reflexivity.
Qed.



(** C5, on a URL that the robots.txt of its origin denies. *)
Lemma scrapeUrl_denied_witness :
  exists w',
    Scraper.scrapeUrl string Concrete.URL_parse Concrete.network Concrete.robotsParser
      Concrete.timer Concrete.latency Concrete.browser 0 "https://closed.example/c"
      (Concrete.world Concrete.defaults) =
    Some (Normal {| Scraper.url := "https://closed.example/c";
                    Scraper.status := Scraper.skipped;
                    Scraper.reason := "Disallowed by robots.txt";
                    Scraper.data := None |}, w') /\
    RateLimiter.self (Scraper.limiter w') = Concrete.defaults /\
    RateLimiter.trace (Scraper.limiter w') = [] /\
    RateLimiter.fnCalls (Scraper.limiter w') = 0%nat.
Proof.
  destruct (scrapeUrl_denied string Concrete.URL_parse Concrete.network
              Concrete.robotsParser Concrete.timer Concrete.latency Concrete.browser 0
              "https://closed.example/c" (Concrete.world Concrete.defaults))
    as (w' & H1 & _ & H2 & H3 & H4 & _).
  - vm_compute. reflexivity.
  - exists w'. auto.
Defined.

(** C6 as stated fails: for a denied URL the reason is not
    ["Disallowed by policy"]. *)
Lemma checkUrl_reason_is_not_policy :
  let check :=
    (RobotsChecker.checkUrl Concrete.URL_parse Concrete.network Concrete.robotsParser
       "https://closed.example/c" "*" RobotsChecker.constructor).1 in
  RobotsChecker.allowed check = Some false /\
  RobotsChecker.reason check = "Disallowed by robots.txt" /\
  RobotsChecker.reason check <> "Disallowed by policy".
Proof. vm_compute. split; [reflexivity|]. split; [reflexivity|discriminate]. Qed.

(** C7 as stated fails: the constructor raises nothing for a limit of
    zero or less.  Zero is replaced by the default; a negative limit is
    kept, and then [execute] admits nothing, however long it polls. *)
Lemma constructor_accepts_nonpositive_limits :
  RateLimiter.constructor
    {| RateLimiter.concurrency := Some 0; RateLimiter.opt_perDomainConcurrency := Some 0;
       RateLimiter.opt_requestDelay := None; RateLimiter.opt_maxRetries := None;
       RateLimiter.opt_backoffBase := None |} = Normal Concrete.defaults /\
  exists s,
    RateLimiter.constructor
      {| RateLimiter.concurrency := Some (-1); RateLimiter.opt_perDomainConcurrency := None;
         RateLimiter.opt_requestDelay := None; RateLimiter.opt_maxRetries := None;
         RateLimiter.opt_backoffBase := None |} = Normal s /\
    RateLimiter.globalConcurrency s = -1 /\
    forall fuel,
      Concrete.execute fuel "https://ok.example/a" Concrete.twice_late 0
        (RateLimiter.start s 1000000) = None.
Proof.
  split; [reflexivity|]. eexists. split; [reflexivity|]. split; [reflexivity|].
  intros fuel. apply execute_stuck; simpl; [lia|lia|reflexivity].
Qed.


(** C8 fails on the code for a URL with a port of its own.  [getDomain]
    drops the port, so the robots.txt that is requested and the parser
    that is built are those of the default port.  The request is answered
    with 404 (with 503, or not at all), the empty file is parsed, and the
    parser has no answer for the URL: [isAllowed] returns [undefined],
    not [true], and [checkUrl] reports the URL as disallowed.  For the
    same host without the port, the same 404 allows the URL. *)
Lemma fetch_failure_denies_url_with_port :
  let isAllowed url :=
    RobotsChecker.isAllowed Concrete.URL_parse Concrete.network Concrete.robotsParser
      url "*" RobotsChecker.constructor in
  Concrete.network 0 "https://ok.example/robots.txt"
    = RobotsChecker.HttpReply 404 "Not Found" /\
  Concrete.network 0 "https://down.example/robots.txt"
    = RobotsChecker.HttpReply 503 "unavailable" /\
  Concrete.network 0 "https://dead.example/robots.txt"
    = RobotsChecker.NetFailure "timeout of 5000ms exceeded" /\
  RobotsChecker.requests (isAllowed "https://ok.example:8443/page").2
    = ["https://ok.example/robots.txt"] /\
  (isAllowed "https://ok.example:8443/page").1 = None /\
  (isAllowed "https://down.example:8443/page").1 = None /\
  (isAllowed "https://dead.example:8443/page").1 = None /\
  (RobotsChecker.checkUrl Concrete.URL_parse Concrete.network Concrete.robotsParser
     "https://ok.example:8443/page" "*" RobotsChecker.constructor).1
    = {| RobotsChecker.allowed := None;
         RobotsChecker.reason := "Disallowed by robots.txt" |} /\
  (isAllowed "https://ok.example/page").1 = Some true.
Proof. vm_compute. repeat split. Qed.


(** C10, on a string that is no URL. *)
Lemma isAllowed_fails_closed_witness :
  (RobotsChecker.isAllowed Concrete.URL_parse Concrete.network Concrete.robotsParser
     "not a url" "*" RobotsChecker.constructor).1 = Some false /\
  (RobotsChecker.checkUrl Concrete.URL_parse Concrete.network Concrete.robotsParser
     "not a url" "*" RobotsChecker.constructor).1 =
    {| RobotsChecker.allowed := Some false;
       RobotsChecker.reason := "Disallowed by robots.txt" |}.
Proof.
  apply (isAllowed_fails_closed Concrete.URL_parse Concrete.network
           Concrete.robotsParser "not a url" "*" RobotsChecker.constructor).
  left. reflexivity.
Defined.


(* ===================================================================== *)
(** ** Facts about strings *)
(* ===================================================================== *)

Lemma append_cons c (s t : string) : String c s +:+ t = String c (s +:+ t).
Proof. reflexivity. Qed.

Lemma append_nil_r (s : string) : s +:+ EmptyString = s.
Proof.
  induction s as [|c s IH]; [reflexivity|]. rewrite append_cons, IH. reflexivity.
Qed.

Lemma length_append (s t : string) :
  String.length (s +:+ t) = (String.length s + String.length t)%nat.
Proof.
  induction s as [|c s IH]; [reflexivity|].
  rewrite append_cons. simpl. rewrite IH. reflexivity.
Qed.

Lemma append_inj_l (a b c : string) : a +:+ c = b +:+ c -> a = b.
Proof.
  revert b. induction a as [|x a IH]; intros [|y b] H.
  - reflexivity.
  - apply (f_equal String.length) in H. rewrite !length_append in H.
    simpl in H. lia.
  - apply (f_equal String.length) in H. rewrite !length_append in H.
    simpl in H. lia.
  - rewrite !append_cons in H. injection H as -> H. f_equal. apply IH, H.
Qed.


(* ===================================================================== *)
(** ** More properties of the robots.txt checker *)
(* ===================================================================== *)

Section MoreRobotsCheckerFacts.

Import RobotsChecker.

Variable URL_parse : string -> option URL.
Variable network : nat -> string -> NetReply.
Variable robotsParser : string -> string -> completion Robots.

Abbreviation getDomain := (getDomain URL_parse).
Abbreviation fetchRobotsTxt := (fetchRobotsTxt network).
Abbreviation getRobotsParser := (getRobotsParser network robotsParser).
Abbreviation isAllowed := (isAllowed URL_parse network robotsParser).
Abbreviation checkUrl := (checkUrl URL_parse network robotsParser).
Abbreviation getCrawlDelay := (getCrawlDelay network robotsParser).
Abbreviation call := (call URL_parse network robotsParser).
Abbreviation calls := (calls URL_parse network robotsParser).

Hypothesis parser_total : forall u c, exists p, robotsParser u c = Normal p.

Lemma getRobotsParser_coherent d s :
  coherent s -> coherent (getRobotsParser d s).2.
Proof.
  intros (Hnd & Hlen & Hreq). unfold RobotsChecker.getRobotsParser.
  destruct (robotsCache s !! d) eqn:Hd; [split; [|split]; assumption|].
  pose proof (fetchRobotsTxt_frame network d s) as [Hc Hr].
  destruct (fetchRobotsTxt d s) as [txt s1]; simpl in Hc, Hr.
  destruct (parser_total (d +:+ "/robots.txt") txt) as [p ->].
  unfold coherent; simpl. rewrite Hr, Hc. split; [|split].
  - apply NoDup_app. split; [exact Hnd|]. split; [|apply NoDup_singleton].
    intros u Hu ->%list_elem_of_singleton.
    apply Hreq in Hu as (d' & [p' Hd'] & Heq).
    apply append_inj_l in Heq. subst d'. congruence.
  - rewrite length_app, Hlen, map_size_insert_None by exact Hd. simpl. lia.
  - intros u. rewrite elem_of_app, list_elem_of_singleton, Hreq. split.
    + intros [(d' & Hd' & ->)| ->].
      * exists d'. split; [|reflexivity].
        destruct (decide (d' = d)) as [->|Hne];
          [rewrite lookup_insert_eq; eauto|rewrite lookup_insert_ne by auto; exact Hd'].
      * exists d. split; [rewrite lookup_insert_eq; eauto|reflexivity].
    + intros (d' & Hd' & ->).
      destruct (decide (d' = d)) as [->|Hne]; [right; reflexivity|].
      left. exists d'. rewrite lookup_insert_ne in Hd' by auto. auto.
Qed.

Lemma isAllowed_coherent url ua s : coherent s -> coherent (isAllowed url ua s).2.
Proof.
  intros H. unfold RobotsChecker.isAllowed.
  assert (H0 : coherent (getDomain url s).2).
  { unfold RobotsChecker.getDomain. destruct (URL_parse url); exact H. }
  destruct (getDomain url s) as [d s1]; simpl in H0.
  destruct (negb (truthyStr d)); simpl; [exact H0|].
  pose proof (getRobotsParser_coherent (default EmptyString d) s1 H0) as H1.
  destruct (getRobotsParser _ s1) as [[p|e] s2]; simpl in *; [|exact H1].
  destruct (parser_isAllowed p url ua) as [a|e]; simpl; [|exact H1].
  destruct (negb (truthyBool a)); exact H1.
Qed.

Lemma getCrawlDelay_coherent d ua s : coherent s -> coherent (getCrawlDelay d ua s).2.
Proof.
  intros H. unfold RobotsChecker.getCrawlDelay.
  pose proof (getRobotsParser_coherent d s H) as H1.
  destruct (getRobotsParser d s) as [[p|e] s2]; simpl in *; [|exact H1].
  destruct (parser_getCrawlDelay p ua); exact H1.
Qed.

Lemma call_coherent c s : coherent s -> coherent (call c s).
Proof.
  intros H. destruct c; simpl.
  - apply getRobotsParser_coherent, H.
  - apply isAllowed_coherent, H.
  - rewrite checkUrl_unfold. apply isAllowed_coherent, H.
  - apply getCrawlDelay_coherent, H.
  - exact H.
Qed.

Lemma calls_coherent cs s : coherent s -> coherent (calls cs s).
Proof.
  revert s. induction cs as [|c cs IH]; intros s H; [exact H|].
  simpl. apply IH, call_coherent, H.
Qed.

Lemma constructor_coherent : coherent constructor.
Proof.
  split; [constructor|]. split; [reflexivity|].
  intros u. split.
  - intros H. inversion H.
  - intros (d & [p Hp] & _). simpl in Hp. rewrite lookup_empty in Hp. discriminate.
Qed.

(** X14: between the construction of the checker and the first [clearCache],
    and as long as the [robots-parser] constructor does not throw: no
    robots.txt is requested twice, the number of requests sent equals the
    number of cached origins reported by [getCacheStats], and an origin
    is in the cache exactly when its robots.txt was requested. *)
Theorem robots_txt_requested_once cs :
  let s := calls cs constructor in
  NoDup (requests s) /\
  length (requests s) = cachedDomains (getCacheStats s) /\
  forall d, is_Some (robotsCache s !! d) <-> d +:+ "/robots.txt" ∈ requests s.
Proof.
  intros s. destruct (calls_coherent cs _ constructor_coherent) as (Hnd & Hlen & Hreq).
  fold s in Hnd, Hlen, Hreq. split; [exact Hnd|]. split; [exact Hlen|].
  intros d. rewrite Hreq. split.
  - intros Hd. exists d. auto.
  - intros (d' & Hd' & Heq). apply append_inj_l in Heq. subst d'. exact Hd'.
Qed.

End MoreRobotsCheckerFacts.

Section SharedCacheFacts.

Import RobotsChecker.

Variable URL_parse : string -> option URL.
Variable network : nat -> string -> NetReply.
Variable robotsParser : string -> string -> completion Robots.

Abbreviation getRobotsParser := (getRobotsParser network robotsParser).
Abbreviation isAllowed := (isAllowed URL_parse network robotsParser).
Abbreviation getCrawlDelay := (getCrawlDelay network robotsParser).

(** X17: [clearCache] forgets every origin: the next [getRobotsParser], for
    whatever origin, sends exactly one request, for the robots.txt of
    that origin, and the parser it returns is then the only entry of the
    cache. *)
Theorem clearCache_refetch domain s :
  let out := getRobotsParser domain (clearCache s) in
  cachedDomains (getCacheStats (clearCache s)) = 0%nat /\
  requests out.2 = requests s ++ [domain +:+ "/robots.txt"] /\
  forall parser, out.1 = Normal parser -> robotsCache out.2 = {[ domain := parser ]}.
Proof.
  intros out.
  assert (Hmiss : robotsCache (clearCache s) !! domain = None) by apply lookup_empty.
  split; [reflexivity|].
  unfold out, RobotsChecker.getRobotsParser. rewrite Hmiss.
  pose proof (fetchRobotsTxt_frame network domain (clearCache s)) as [Hc Hr].
  destruct (fetchRobotsTxt network domain (clearCache s)) as [txt s1]; simpl in Hc, Hr.
  destruct (robotsParser _ txt) as [p|e]; simpl.
  - split; [exact Hr|]. intros parser [= <-]. rewrite Hc. reflexivity.
  - split; [exact Hr|]. discriminate.
Qed.

(** X16: [getCrawlDelay] answers in milliseconds, never throws, and fails
    open: its answer is 0 unless the parser of the origin, which is then
    in the cache, reports a number of seconds other than 0, and then it
    is 1000 times that number.  It sends at most one request, and none
    for an origin that is in the cache. *)
Theorem getCrawlDelay_result domain ua s :
  let out := getCrawlDelay domain ua s in
  (out.1 = 0 \/
   exists parser seconds,
     robotsCache out.2 !! domain = Some parser /\
     parser_getCrawlDelay parser ua = Normal (Some seconds) /\
     seconds <> 0 /\ out.1 = seconds * 1000) /\
  (requests out.2 = requests s \/
   requests out.2 = requests s ++ [domain +:+ "/robots.txt"]) /\
  (is_Some (robotsCache s !! domain) -> requests out.2 = requests s).
Proof.
  intros out. unfold out, RobotsChecker.getCrawlDelay.
  destruct (getRobotsParser_first network robotsParser domain s) as [Hreq Hcache].
  assert (Hhit : is_Some (robotsCache s !! domain) ->
                 requests (getRobotsParser domain s).2 = requests s).
  { intros [p Hp]. rewrite (getRobotsParser_hit network robotsParser _ _ _ Hp).
    reflexivity. }
  destruct (getRobotsParser domain s) as [[p|e] s1]; simpl in *.
  - specialize (Hcache p eq_refl).
    destruct (parser_getCrawlDelay p ua) as [[seconds|]|e] eqn:Hp; simpl.
    + split; [|split; assumption].
      destruct (Z.eqb_spec seconds 0) as [->|Hne]; [left; reflexivity|].
      right. exists p, seconds. auto.
    + split; [left; reflexivity|split; assumption].
    + split; [left; reflexivity|split; assumption].
  - split; [left; reflexivity|split; assumption].
Qed.

(** X15: the permission check and the crawl delay share the cache, keyed by
    protocol and host of the URL: once [isAllowed] has allowed a URL,
    the parser of its origin is in the cache, and [getCrawlDelay] for
    that origin sends no request. *)
Theorem getCrawlDelay_after_isAllowed url u ua ua' s :
  URL_parse url = Some u ->
  truthyBool (isAllowed url ua s).1 = true ->
  let origin := protocol u +:+ "//" +:+ hostname u in
  let s1 := (isAllowed url ua s).2 in
  is_Some (robotsCache s1 !! origin) /\
  requests (getCrawlDelay origin ua' s1).2 = requests s1.
Proof.
  intros Hu Hallowed origin s1.
  assert (Hc : is_Some (robotsCache s1 !! origin)).
  { unfold s1. revert Hallowed.
    unfold RobotsChecker.isAllowed, RobotsChecker.getDomain. rewrite Hu. fold origin.
    destruct (negb (truthyStr (Some origin))); simpl; [discriminate|].
    destruct (getRobotsParser_first network robotsParser origin s) as [_ Hcache].
    destruct (getRobotsParser origin s) as [[p|e] s2]; simpl in *; [|discriminate].
    specialize (Hcache p eq_refl).
    destruct (parser_isAllowed p url ua) as [a|e]; simpl; [|discriminate].
    intros _. destruct (negb (truthyBool a)); simpl; eauto. }
  split; [exact Hc|].
  destruct Hc as [p Hp]. unfold RobotsChecker.getCrawlDelay.
  rewrite (getRobotsParser_hit network robotsParser _ _ _ Hp).
  destruct (parser_getCrawlDelay p ua'); reflexivity.
Qed.

(** X13: a URL with a port of its own is always denied.  The cache key and
    the robots.txt URL are built from protocol and host name only, so
    the robots.txt is that of the default port; for a URL of another
    origin than that robots.txt (a URL with an explicit, non-default
    port), the parser has no answer, [isAllowed] returns [undefined],
    and [checkUrl] reports the URL as disallowed, whatever the
    robots.txt says.  (That the parser answers [undefined] for a URL of
    another origin is the contract of the [robots-parser] package.) *)
Theorem isAllowed_other_port_denied url u ua s :
  foreign_undefined URL_parse robotsParser ->
  URL_parse url = Some u ->
  let origin := protocol u +:+ "//" +:+ hostname u in
  ~ sameOrigin URL_parse url (origin +:+ "/robots.txt") ->
  (forall p, robotsCache s !! origin = Some p ->
             exists contents, robotsParser (origin +:+ "/robots.txt") contents = Normal p) ->
  truthyBool (isAllowed url ua s).1 = false /\
  reason (checkUrl URL_parse network robotsParser url ua s).1 = "Disallowed by robots.txt".
Proof.
  intros Hlib Hu origin Hforeign Hprov.
  assert (Hi : truthyBool (isAllowed url ua s).1 = false).
  { unfold RobotsChecker.isAllowed, RobotsChecker.getDomain. rewrite Hu. fold origin.
    destruct (negb (truthyStr (Some origin))); [reflexivity|].
    cbn [default from_option id].
    assert (Hp : forall p, (getRobotsParser origin s).1 = Normal p ->
                 exists contents, robotsParser (origin +:+ "/robots.txt") contents = Normal p).
    { unfold RobotsChecker.getRobotsParser.
      destruct (robotsCache s !! origin) as [p0|] eqn:Hc.
      - intros p [= <-]. apply Hprov. reflexivity.
      - destruct (fetchRobotsTxt network origin s) as [txt s1].
        destruct (robotsParser (origin +:+ "/robots.txt") txt) as [p0|e] eqn:Hr;
          [|discriminate].
        intros p [= <-]. eauto. }
    destruct (getRobotsParser origin s) as [[p|e] s1]; [|reflexivity].
    destruct (Hp p eq_refl) as [contents Hc].
    rewrite (Hlib _ _ _ url ua Hc Hforeign). reflexivity. }
  split; [exact Hi|]. rewrite checkUrl_unfold. cbn [fst reason]. rewrite Hi. reflexivity.
Qed.

End SharedCacheFacts.


(* ===================================================================== *)
(** ** More properties of the rate limiter *)
(* ===================================================================== *)

Section RetryFacts.

Import RateLimiter.

Lemma prefix_append (sub s t : string) :
  String.prefix sub s = true -> String.prefix sub (s +:+ t) = true.
Proof.
  revert s. induction sub as [|a sub IH]; intros s H;
    [destruct (s +:+ t); reflexivity|].
  destruct s as [|b s]; [discriminate|]. rewrite append_cons. simpl in *.
  destruct (ascii_dec a b); [apply IH, H|discriminate].
Qed.

Lemma includes_append (sub s t : string) :
  includes sub s = true -> includes sub (s +:+ t) = true.
Proof.
  induction s as [|c s IH]; intros H.
  - simpl in H. rewrite orb_false_r in H.
    destruct sub; [|discriminate]. destruct t; reflexivity.
  - rewrite append_cons. simpl in *. apply orb_true_iff in H as [H|H].
    + apply (prefix_append _ (String c s) t) in H. rewrite append_cons in H.
      simpl in H. rewrite H. reflexivity.
    + rewrite (IH H). apply orb_true_r.
Qed.

Lemma matchThreeDigits_step a b c r :
  matchThreeDigits (String a (String b (String c r))) =
    match digit a, digit b, digit c with
    | Some x, Some y, Some z => Some (100 * x + 10 * y + z)
    | _, _, _ => matchThreeDigits (String b (String c r))
    end.
Proof. reflexivity. Qed.

Lemma matchThreeDigits_append (s t : string) status :
  matchThreeDigits s = Some status -> matchThreeDigits (s +:+ t) = Some status.
Proof.
  induction s as [|a s IH]; [discriminate|].
  destruct s as [|b [|c s]]; [discriminate..|].
  rewrite !append_cons, !matchThreeDigits_step.
  rewrite !append_cons in IH.
  destruct (digit a), (digit b), (digit c); solve [auto | exact IH].
Qed.

(** X11: the status rule of [shouldRetry]: the error of an HTTP response with
    a three-digit status, as the scraper words it (["HTTP 503"]), is
    retryable exactly for status 429 and for the statuses from 500 on. *)
Theorem shouldRetry_http_status status :
  100 <= status <= 999 ->
  shouldRetry (mkError ("HTTP " +:+ showZ status)) = (status =? 429) || (500 <=? status).
Proof.
  intros Hs.
  assert (H : forallb
                (fun k => Bool.eqb
                            (shouldRetry (mkError ("HTTP " +:+ showZ (100 + Z.of_nat k))))
                            ((100 + Z.of_nat k =? 429) || (500 <=? 100 + Z.of_nat k)))
                (seq 0 900) = true) by (vm_compute; reflexivity).
  rewrite forallb_forall in H.
  specialize (H (Z.to_nat (status - 100))).
  replace (100 + Z.of_nat (Z.to_nat (status - 100))) with status in H by lia.
  apply Bool.eqb_prop, H, in_seq. lia.
Qed.

(** X12: what decides in favour of a retry is never revoked by what follows it
    in the message: a retryable message stays retryable when text is
    appended to it. *)
Theorem shouldRetry_append e suffix :
  shouldRetry e = true -> shouldRetry (mkError (message e +:+ suffix)) = true.
Proof.
  unfold shouldRetry. cbn [message].
  pose proof (includes_append "timeout" (message e) suffix) as A1.
  pose proof (includes_append "ECONNRESET" (message e) suffix) as A2.
  pose proof (includes_append "ETIMEDOUT" (message e) suffix) as A3.
  pose proof (matchThreeDigits_append (message e) suffix) as A4.
  set (m := message e +:+ suffix) in *.
  destruct (includes "timeout" (message e)) eqn:H1;
    [rewrite (A1 eq_refl); reflexivity|].
  destruct (includes "ECONNRESET" (message e)) eqn:H2;
    [rewrite (A2 eq_refl); intros _;
     destruct (includes "timeout" m); reflexivity|].
  destruct (includes "ETIMEDOUT" (message e)) eqn:H3;
    [rewrite (A3 eq_refl); intros _;
     destruct (includes "timeout" m), (includes "ECONNRESET" m); reflexivity|].
  destruct (matchThreeDigits (message e)) as [status|] eqn:H4; [|discriminate].
  rewrite (A4 _ eq_refl). intros ->.
  destruct (includes "timeout" m), (includes "ECONNRESET" m), (includes "ETIMEDOUT" m);
    reflexivity.
Qed.

End RetryFacts.

Section CounterFacts.

Import RateLimiter.

Variable URL_parse : string -> option URL.
Variable timer : Z -> Z.

Abbreviation getDomain := (getDomain URL_parse).
Abbreviation sleep := (sleep timer).
Abbreviation enforceDelay := (enforceDelay timer).
Abbreviation waitGlobal := (waitGlobal timer).
Abbreviation waitDomain := (waitDomain timer).
Abbreviation execute := (execute URL_parse timer).

(** X9: the decrement of the [finally] block undoes the increment of the
    admission: for a host whose count is not negative, an increment
    followed by a decrement restores the global count, the count of every
    host as [canRequestDomain] reads it, and the configuration; what
    stays is the request start recorded for the host. *)
Theorem decrement_increment domain now s :
  0 <= orNum (domainActive s !! domain) 0 ->
  let s' := decrement domain (increment domain now s) in
  globalActive s' = globalActive s /\
  (forall d, orNum (domainActive s' !! d) 0 = orNum (domainActive s !! d) 0) /\
  (forall d, canRequestDomain s' d = canRequestDomain s d) /\
  config s' = config s /\
  lastRequestTime s' = <[domain := now]> (lastRequestTime s).
Proof.
  intros Hn s'.
  assert (Hd : forall d, orNum (domainActive s' !! d) 0 = orNum (domainActive s !! d) 0).
  { intros d. unfold s', decrement, increment; simpl.
    destruct (decide (d = domain)) as [->|Hne].
    - rewrite !lookup_insert_eq. simpl.
      destruct (Z.eqb_spec (orNum (domainActive s !! domain) 0 + 1) 0); [lia|].
      destruct (Z.eqb_spec (orNum (domainActive s !! domain) 0 + 1 - 1) 0) as [H0|H0].
      + lia.
      + lia.
    - rewrite !lookup_insert_ne by auto. reflexivity. }
  split; [unfold s', decrement, increment; simpl; lia|].
  split; [exact Hd|]. split; [|split; reflexivity].
  intros d. unfold canRequestDomain. rewrite Hd. reflexivity.
Qed.

(** X10: the per-host count is floored at 0 by the [finally] block, the global
    count is not: when no count is negative, none is after a decrement
    (a host with no count or a count of 0 is left at 0), while the global
    count always drops by one, below 0 when it was 0. *)
Theorem decrement_floor domain s :
  (forall d n, domainActive s !! d = Some n -> 0 <= n) ->
  (forall d n, domainActive (decrement domain s) !! d = Some n -> 0 <= n) /\
  domainActive (decrement domain s) !! domain =
    Some (Z.max 0 (default 0 (domainActive s !! domain) - 1)) /\
  globalActive (decrement domain s) = globalActive s - 1.
Proof.
  intros Hn.
  assert (Hd : domainActive (decrement domain s) !! domain =
               Some (Z.max 0 (default 0 (domainActive s !! domain) - 1))).
  { unfold decrement; simpl. rewrite lookup_insert_eq. f_equal.
    destruct (domainActive s !! domain) as [n|] eqn:Hl; simpl; [|reflexivity].
    specialize (Hn _ _ Hl). destruct (Z.eqb_spec n 0); lia. }
  split; [|split; [exact Hd|reflexivity]].
  intros d n. destruct (decide (d = domain)) as [->|Hne].
  - rewrite Hd. intros [= <-]. lia.
  - unfold decrement; simpl. rewrite lookup_insert_ne by auto. apply Hn.
Qed.

Lemma tracks_refl r : tracks r r.
Proof. split; auto. Qed.

Lemma tracks_trans r1 r2 r3 : tracks r1 r2 -> tracks r2 r3 -> tracks r1 r3.
Proof. intros [H1 H2] [H3 H4]. split; auto. Qed.

Lemma tracks_release d r : tracks r (release d r).
Proof.
  split; intros d' H; [|exact H]. unfold release, decrement; simpl.
  apply lookup_insert_is_Some. destruct (decide (d = d')); auto.
Qed.

Lemma tracks_suspend r : tracks r (suspend r).
Proof.
  unfold suspend. destruct (deferred r) as [d|]; [|apply tracks_refl].
  exact (tracks_release d _).
Qed.

Lemma tracks_sleep why ms r : tracks r (sleep why ms r).
Proof. exact (tracks_suspend r). Qed.

Lemma tracks_waitGlobal fuel r r' : waitGlobal fuel r = Some r' -> tracks r r'.
Proof.
  revert r. induction fuel as [|fuel IH]; intros r H; [discriminate|].
  simpl in H. destruct (globalConcurrency (self r) <=? globalActive (self r)).
  - eapply tracks_trans; [apply (tracks_sleep PollGlobal 100)|apply IH, H].
  - injection H as <-. apply tracks_refl.
Qed.

Lemma tracks_waitDomain fuel d r r' : waitDomain fuel d r = Some r' -> tracks r r'.
Proof.
  revert r. induction fuel as [|fuel IH]; intros r H; [discriminate|].
  simpl in H. destruct (negb (canRequestDomain (self r) d)).
  - eapply tracks_trans; [apply (tracks_sleep PollDomain 100)|apply IH, H].
  - injection H as <-. apply tracks_refl.
Qed.

Lemma tracks_enforceDelay d r : tracks r (enforceDelay d r).
Proof.
  unfold RateLimiter.enforceDelay.
  destruct (lastRequestTime (self r) !! d) as [lastTime|]; [|apply tracks_suspend].
  destruct (lastTime =? 0); [apply tracks_suspend|].
  destruct (clock r - lastTime <? requestDelay (self r)); [|apply tracks_suspend].
  eapply tracks_trans; [apply (tracks_sleep Spacing)|apply tracks_suspend].
Qed.

Lemma tracks_acquire d r :
  tracks r (acquire d r) /\
  is_Some (domainActive (self (acquire d r)) !! d) /\
  lastRequestTime (self (acquire d r)) !! d = Some (clock r).
Proof.
  unfold acquire, increment; simpl. split; [split; intros d' H|split].
  - apply lookup_insert_is_Some. destruct (decide (d = d')); auto.
  - apply lookup_insert_is_Some. destruct (decide (d = d')); auto.
  - rewrite lookup_insert_eq. eauto.
  - apply lookup_insert_eq.
Qed.

Lemma tracks_invoke {A} (fn : nat -> Outcome A) r : tracks r (invoke fn r).2.
Proof. exact (tracks_suspend r). Qed.

Lemma execute_S {A} fuel url (fn : nat -> Outcome A) attempt r :
  execute (S fuel) url fn attempt r =
    (r ← waitGlobal (S fuel) r;
     r ← waitDomain (S fuel) (getDomain url) r;
     let r := enforceDelay (getDomain url) r in
     let r := acquire (getDomain url) r in
     match invoke fn r with
     | (Normal result, r) => Some (Normal result, release (getDomain url) r)
     | (Throw error, r) =>
         if (attempt <? maxRetries (self r)) && shouldRetry error then
           let backoffDelay := calculateBackoff (self r) attempt in
           let r := emit (EvLog (retryLine (self r) url attempt backoffDelay)) r in
           let r := sleep Backoff backoffDelay r in
           execute fuel url fn (attempt + 1) (defer (getDomain url) r)
         else Some (Throw error, release (getDomain url) r)
     end).
Proof. reflexivity. Qed.

Lemma execute_tracks {A} fuel url (fn : nat -> Outcome A) :
  forall attempt r res r',
    execute fuel url fn attempt r = Some (res, r') ->
    tracks r r' /\
    is_Some (domainActive (self r') !! getDomain url) /\
    is_Some (lastRequestTime (self r') !! getDomain url).
Proof.
  induction fuel as [|fuel IH]; intros attempt r res r' H; [discriminate|].
  rewrite execute_S in H.
  destruct (waitGlobal (S fuel) r) as [r1|] eqn:H1; [|discriminate].
  cbn [mbind option_bind] in H.
  destruct (waitDomain (S fuel) (getDomain url) r1) as [r2|] eqn:H2; [|discriminate].
  cbn [mbind option_bind] in H. cbv zeta in H.
  set (r3 := enforceDelay (getDomain url) r2) in *.
  destruct (tracks_acquire (getDomain url) r3) as (Ha & Hda & Hlt).
  set (r4 := acquire (getDomain url) r3) in *.
  pose proof (tracks_invoke fn r4) as H5.
  assert (H04 : tracks r r4).
  { eapply tracks_trans; [eapply tracks_waitGlobal, H1|].
    eapply tracks_trans; [eapply tracks_waitDomain, H2|].
    eapply tracks_trans; [apply tracks_enforceDelay|exact Ha]. }
  assert (Hdone : forall c, Some (c, release (getDomain url) (invoke fn r4).2) = Some (res, r') ->
            tracks r r' /\
            is_Some (domainActive (self r') !! getDomain url) /\
            is_Some (lastRequestTime (self r') !! getDomain url)).
  { intros c [= _ <-].
    assert (H45 : tracks r4 (release (getDomain url) (invoke fn r4).2))
      by (eapply tracks_trans; [exact H5|apply tracks_release]).
    split; [eapply tracks_trans; eassumption|].
    split; [apply H45, Hda|apply H45; rewrite Hlt; eauto]. }
  destruct (invoke fn r4) as [[v|e] r5] eqn:Hi; [apply (Hdone _ H)|].
  simpl in H5.
  destruct ((attempt <? maxRetries (self r5)) && shouldRetry e); [|apply (Hdone _ H)].
  apply IH in H as (H6 & H7 & H8).
  split; [|split; assumption].
  eapply tracks_trans; [exact H04|]. eapply tracks_trans; [exact H5|].
  eapply tracks_trans; [|exact H6].
  exact (tracks_suspend (emit _ r5)).
Qed.

(** X8: the limiter never forgets a host: the maps of counters and of
    request starts only grow.  When [execute] returns, with a value or
    with an error, the host of the URL (['unknown'] when the URL does not
    parse) is on record in both; every host that was on record before
    still is; so the number of tracked hosts reported by [getStats] never
    decreases. *)
Theorem execute_keeps_hosts {A} fuel url (fn : nat -> Outcome A) attempt r res r' :
  execute fuel url fn attempt r = Some (res, r') ->
  is_Some (domainBreakdown (getStats (self r')) !! getDomain url) /\
  is_Some (lastRequestTime (self r') !! getDomain url) /\
  tracks r r' /\
  (domainsTracked (getStats (self r)) <= domainsTracked (getStats (self r')))%nat.
Proof.
  intros H. apply execute_tracks in H as (Ht & Hd & Hl).
  split; [exact Hd|]. split; [exact Hl|]. split; [exact Ht|].
  unfold getStats; simpl. rewrite <- !(size_dom (D := gset string)).
  apply subseteq_size. intros d Hin. apply elem_of_dom. apply Ht.
  apply elem_of_dom, Hin.
Qed.

Lemma silent_release d r :
  admissions (trace (release d r)) = admissions (trace r) /\
  fnCalls (release d r) = fnCalls r.
Proof.
  unfold release, emit; simpl. rewrite !admissions_app, !app_nil_r. auto.
Qed.

Lemma silent_suspend r :
  admissions (trace (suspend r)) = admissions (trace r) /\
  fnCalls (suspend r) = fnCalls r.
Proof.
  unfold suspend. destruct (deferred r) as [d|]; [|auto].
  exact (silent_release d _).
Qed.

Lemma silent_sleep why ms r :
  admissions (trace (sleep why ms r)) = admissions (trace r) /\
  fnCalls (sleep why ms r) = fnCalls r.
Proof.
  destruct (silent_suspend r) as [H1 H2].
  unfold RateLimiter.sleep, advance, emit; simpl.
  rewrite admissions_app, app_nil_r. auto.
Qed.

Lemma silent_waitGlobal fuel r r' :
  waitGlobal fuel r = Some r' ->
  admissions (trace r') = admissions (trace r) /\ fnCalls r' = fnCalls r.
Proof.
  revert r. induction fuel as [|fuel IH]; intros r H; [discriminate|].
  simpl in H. destruct (globalConcurrency (self r) <=? globalActive (self r)).
  - apply IH in H as [H1 H2]. destruct (silent_sleep PollGlobal 100 r) as [H3 H4].
    split; congruence.
  - injection H as <-. auto.
Qed.

Lemma silent_waitDomain fuel d r r' :
  waitDomain fuel d r = Some r' ->
  admissions (trace r') = admissions (trace r) /\ fnCalls r' = fnCalls r.
Proof.
  revert r. induction fuel as [|fuel IH]; intros r H; [discriminate|].
  simpl in H. destruct (negb (canRequestDomain (self r) d)).
  - apply IH in H as [H1 H2]. destruct (silent_sleep PollDomain 100 r) as [H3 H4].
    split; congruence.
  - injection H as <-. auto.
Qed.

Lemma silent_enforceDelay d r :
  admissions (trace (enforceDelay d r)) = admissions (trace r) /\
  fnCalls (enforceDelay d r) = fnCalls r.
Proof.
  unfold RateLimiter.enforceDelay.
  destruct (lastRequestTime (self r) !! d) as [lastTime|]; [|apply silent_suspend].
  destruct (lastTime =? 0); [apply silent_suspend|].
  destruct (clock r - lastTime <? requestDelay (self r)); [|apply silent_suspend].
  set (r1 := sleep Spacing _ r).
  destruct (silent_sleep Spacing (requestDelay (self r) - (clock r - lastTime)) r)
    as [H1 H2].
  destruct (silent_suspend r1) as [H3 H4]. fold r1 in H1, H2. split; congruence.
Qed.

(** Each invocation of the unit of work follows one admission of its
    own, for the host of the URL, the first one when the polling loops
    and [enforceDelay] are through; what [execute] hands to its caller
    is the outcome of the last invocation. *)
Lemma execute_admissions {A} fuel url (fn : nat -> Outcome A) :
  forall attempt r res r',
    execute fuel url fn attempt r = Some (res, r') ->
    exists t ts,
      admissions (trace r') =
        admissions (trace r) ++ map (pair (getDomain url)) (t :: ts) /\
      (fnCalls r' = fnCalls r + S (length ts))%nat /\
      res = result (fn (Nat.pred (fnCalls r'))) /\
      exists r1 r2,
        waitGlobal fuel r = Some r1 /\
        waitDomain fuel (getDomain url) r1 = Some r2 /\
        t = clock (enforceDelay (getDomain url) r2).
Proof.
  induction fuel as [|fuel IH]; intros attempt r res r' H; [discriminate|].
  rewrite execute_S in H.
  destruct (waitGlobal (S fuel) r) as [r1|] eqn:H1; [|discriminate].
  cbn [mbind option_bind] in H.
  destruct (waitDomain (S fuel) (getDomain url) r1) as [r2|] eqn:H2; [|discriminate].
  cbn [mbind option_bind] in H. cbv zeta in H.
  pose proof H1 as W1. pose proof H2 as W2.
  apply silent_waitGlobal in H1 as [A1 C1]. apply silent_waitDomain in H2 as [A2 C2].
  destruct (silent_enforceDelay (getDomain url) r2) as [A3 C3].
  set (r3 := enforceDelay (getDomain url) r2) in *.
  assert (A4 : admissions (trace (acquire (getDomain url) r3)) =
               admissions (trace r) ++ [(getDomain url, clock r3)]).
  { unfold acquire, emit; simpl. rewrite !admissions_app, app_nil_r. simpl.
    congruence. }
  assert (C4 : fnCalls (acquire (getDomain url) r3) = fnCalls r)
    by (simpl; congruence).
  set (r4 := acquire (getDomain url) r3) in *.
  assert (A5 : admissions (trace (invoke fn r4).2) =
               admissions (trace r) ++ [(getDomain url, clock r3)]).
  { destruct (silent_suspend r4) as [H5 _]. unfold invoke, emit; simpl.
    rewrite admissions_app, app_nil_r. congruence. }
  assert (C5 : fnCalls (invoke fn r4).2 = S (fnCalls r)).
  { destruct (silent_suspend r4) as [_ H5]. unfold invoke, emit; simpl. congruence. }
  assert (R5 : (invoke fn r4).1 = result (fn (fnCalls r))).
  { unfold invoke; simpl. rewrite C3, C2, C1. reflexivity. }
  assert (Hdone : Some ((invoke fn r4).1, release (getDomain url) (invoke fn r4).2)
                  = Some (res, r') ->
            exists ts,
              admissions (trace r') =
                admissions (trace r) ++ map (pair (getDomain url)) (clock r3 :: ts) /\
              (fnCalls r' = fnCalls r + S (length ts))%nat /\
              res = result (fn (Nat.pred (fnCalls r')))).
  { intros Heq.
    assert (Hr : release (getDomain url) (invoke fn r4).2 = r') by congruence.
    assert (Hc : (invoke fn r4).1 = res) by congruence.
    rewrite <- Hr, <- Hc. exists [].
    destruct (silent_release (getDomain url) (invoke fn r4).2) as [H6 H7].
    split; [rewrite H6, A5; reflexivity|].
    split; [rewrite H7, C5; simpl; lia|].
    rewrite H7, C5, R5. reflexivity. }
  assert (Hend : exists ts,
              admissions (trace r') =
                admissions (trace r) ++ map (pair (getDomain url)) (clock r3 :: ts) /\
              (fnCalls r' = fnCalls r + S (length ts))%nat /\
              res = result (fn (Nat.pred (fnCalls r')))).
  { destruct (invoke fn r4) as [[v|e] r5] eqn:Hi; [apply Hdone; exact H|].
    simpl in A5, C5.
    destruct ((attempt <? maxRetries (self r5)) && shouldRetry e);
      [|apply Hdone; exact H].
    apply IH in H as (t & ts & H6 & H7 & H8 & _).
    set (line := EvLog _) in *.
    destruct (silent_sleep Backoff (calculateBackoff (self r5) attempt) (emit line r5))
      as [A6 C6].
    assert (A7 : admissions (trace (emit line r5)) = admissions (trace r5))
      by (unfold emit; simpl; rewrite admissions_app; apply app_nil_r).
    exists (t :: ts). split; [|split; [|exact H8]].
    - change (trace (defer (getDomain url) ?x)) with (trace x) in H6.
      rewrite H6, A6, A7, A5, <- app_assoc. reflexivity.
    - change (fnCalls (defer (getDomain url) ?x)) with (fnCalls x) in H7.
      rewrite H7, C6. change (fnCalls (emit line r5)) with (fnCalls r5).
      rewrite C5. simpl. lia. }
  destruct Hend as (ts & E1 & E2 & E3).
  exists (clock r3), ts. split; [exact E1|]. split; [exact E2|]. split; [exact E3|].
  exists r1, r2. auto.
Qed.

Lemma clock_suspend r : clock (suspend r) = clock r.
Proof. unfold suspend. destruct (deferred r); reflexivity. Qed.

(** With timers that fire exactly on time, the spacing wait is exact:
    after [enforceDelay] the clock stands at the later of the time of
    the call and the time at which [requestDelay] has passed since the
    host's last request start (a start of 0 counts as none). *)
Lemma enforceDelay_clock d r :
  (forall ms, 0 <= ms -> timer ms = ms) ->
  clock (enforceDelay d r) =
    match lastRequestTime (self r) !! d with
    | Some last =>
        if last =? 0 then clock r else Z.max (clock r) (last + requestDelay (self r))
    | None => clock r
    end.
Proof.
  intros Hexact. unfold RateLimiter.enforceDelay.
  destruct (lastRequestTime (self r) !! d) as [last|]; [|apply clock_suspend].
  destruct (last =? 0); [apply clock_suspend|].
  destruct (Z.ltb_spec (clock r - last) (requestDelay (self r))) as [Hlt|Hge].
  - rewrite clock_suspend. unfold RateLimiter.sleep, advance, emit; simpl.
    rewrite clock_suspend, Hexact by lia. lia.
  - rewrite clock_suspend. lia.
Qed.

(** X7: a request is admitted exactly when it is due.  In any state that a
    sequential run reaches, with limits of at least one and timers that
    fire exactly on time: the first attempt of [execute] is admitted at
    the time of the call when the host has no request start on record
    (or one of 0), and otherwise at the later of the time of the call
    and that start plus [requestDelay], never later. *)
Theorem execute_admits_when_due {A} cfg fuel url (fn : nat -> Outcome A) attempt r res r' :
  1 <= globalConcurrency cfg ->
  1 <= perDomainConcurrency cfg ->
  Inv cfg r Free ->
  (forall ms, 0 <= ms -> timer ms = ms) ->
  execute fuel url fn attempt r = Some (res, r') ->
  let due :=
    match lastRequestTime (self r) !! getDomain url with
    | Some last =>
        if last =? 0 then clock r else Z.max (clock r) (last + requestDelay cfg)
    | None => clock r
    end in
  exists rest,
    admissions (trace r') = admissions (trace r) ++ (getDomain url, due) :: rest.
Proof.
  intros Hg Hk Hinv Hexact H due.
  apply execute_admissions in H as (t & ts & Ha & _ & _ & r1 & r2 & W1 & W2 & Ht).
  destruct fuel as [|fuel]; [discriminate|].
  rewrite (waitGlobal_quiet timer cfg Hg fuel r Hinv) in W1. injection W1 as <-.
  rewrite (waitDomain_quiet timer cfg Hk fuel _ r Hinv) in W2. injection W2 as <-.
  rewrite enforceDelay_clock in Ht by exact Hexact.
  destruct (Inv_limits _ _ _ Hinv) as (_ & _ & Hrd & _). rewrite Hrd in Ht.
  exists (map (pair (getDomain url)) ts). rewrite Ha, Ht. reflexivity.
Qed.

End CounterFacts.


(* ===================================================================== *)
(** ** More properties of the scraper *)
(* ===================================================================== *)

Section MoreScraperFacts.

Import Scraper.

Variable Data : Type.
Variable URL_parse : string -> option URL.
Variable network : nat -> string -> RobotsChecker.NetReply.
Variable robotsParser : string -> string -> completion RobotsChecker.Robots.
Variable timer : Z -> Z.
Variable latency : nat -> string -> Z.
Variable browser : nat -> string -> Visit Data.

Abbreviation checkUrl := (RobotsChecker.checkUrl URL_parse network robotsParser).
Abbreviation isAllowed := (RobotsChecker.isAllowed URL_parse network robotsParser).
Abbreviation execute := (RateLimiter.execute URL_parse timer).
Abbreviation fn := (fn Data browser).
Abbreviation scrapeUrl :=
  (scrapeUrl Data URL_parse network robotsParser timer latency browser).
Abbreviation scrapeUrls_loop :=
  (scrapeUrls_loop Data URL_parse network robotsParser timer latency browser).
Abbreviation scrapeUrls :=
  (scrapeUrls Data URL_parse network robotsParser timer latency browser).

(** A result carries a record exactly when its status is ['success']. *)
Lemma visit_try_shape u v res :
  visit_try Data u v = Normal res ->
  (status Data res = success <-> is_Some (data Data res)).
Proof.
  unfold visit_try.
  destruct (setExtraHTTPHeaders Data v); [discriminate|].
  destruct (goto Data v) as [st|]; [|discriminate].
  destruct (negb (truthyNum st) || (400 <=? default 0 st)); [discriminate|].
  destruct (waitForTimeout Data v); [discriminate|].
  destruct (detectAntiBot Data v).
  - intros [= <-]; simpl. split; [discriminate|intros [? ?]; discriminate].
  - destruct (extract Data v); [|discriminate].
    intros [= <-]; simpl. split; eauto.
Qed.

Lemma visit_shape u v res :
  visit Data u v = Normal res ->
  (status Data res = success <-> is_Some (data Data res)).
Proof.
  unfold visit. destruct (newPage Data v); [discriminate|].
  destruct (close Data v); [discriminate|].
  destruct (visit_try Data u v) as [r|e] eqn:Ht; intros [= <-].
  - eapply visit_try_shape, Ht.
  - simpl. split; [discriminate|intros [? ?]; discriminate].
Qed.

Lemma isAllowed_parsed url ua s :
  truthyBool (isAllowed url ua s).1 = true -> is_Some (URL_parse url).
Proof.
  unfold RobotsChecker.isAllowed, RobotsChecker.getDomain.
  destruct (URL_parse url) as [u|]; [eauto|]. simpl. discriminate.
Qed.

(** What one [scrapeUrl] does, whenever it returns. *)
Lemma scrapeUrl_facts fuel u w c w1 :
  scrapeUrl fuel u w = Some (c, w1) ->
  exists res,
    c = Normal res /\ url Data res = u /\
    (status Data res = success <-> is_Some (data Data res)) /\
    robots w1 = (checkUrl u "*" (robots w)).2 /\
    exists ts,
      RateLimiter.admissions (RateLimiter.trace (limiter w1)) =
        RateLimiter.admissions (RateLimiter.trace (limiter w)) ++
        map (pair (RateLimiter.getDomain URL_parse u)) ts /\
      (RateLimiter.fnCalls (limiter w1) =
       RateLimiter.fnCalls (limiter w) + length ts)%nat /\
      (ts <> [] -> is_Some (URL_parse u)).
Proof.
  unfold Scraper.scrapeUrl. rewrite checkUrl_unfold.
  cbn [fst snd RobotsChecker.allowed RobotsChecker.reason].
  destruct (truthyBool (isAllowed u "*" (robots w)).1) eqn:Hal; cbn [negb].
  - set (r := RateLimiter.advance _ (limiter w)).
    destruct (execute fuel u (fn u) 0 r) as [[res r']|] eqn:Hex; [|discriminate].
    apply execute_admissions in Hex as (t & ts & Ha & Hc & Hres & _).
    assert (Hts : t :: ts <> [] -> is_Some (URL_parse u))
      by (intros _; eapply isAllowed_parsed, Hal).
    destruct res as [res|e]; intros [= <- <-].
    + exists res. split; [reflexivity|].
      symmetry in Hres. split; [eapply visit_url, Hres|].
      split; [eapply visit_shape, Hres|]. split; [reflexivity|].
      exists (t :: ts). auto.
    + eexists. split; [reflexivity|]. split; [reflexivity|].
      split; [simpl; split; [discriminate|intros [? ?]; discriminate]|].
      split; [reflexivity|]. exists (t :: ts). auto.
  - intros [= <- <-]. eexists. split; [reflexivity|]. split; [reflexivity|].
    split; [simpl; split; [discriminate|intros [? ?]; discriminate]|].
    split; [reflexivity|]. exists []. simpl. rewrite app_nil_r.
    split; [reflexivity|]. split; [lia|congruence].
Qed.

(** The loop of [scrapeUrls] only appends to [results]. *)
Lemma scrapeUrls_loop_acc fuel urls :
  forall results w,
    scrapeUrls_loop fuel urls results w =
      match scrapeUrls_loop fuel urls [] w with
      | Some (rs, w') => Some (results ++ rs, w')
      | None => None
      end.
Proof.
  induction urls as [|u urls IH]; intros results w.
  - simpl. rewrite app_nil_r. reflexivity.
  - cbn [Scraper.scrapeUrls_loop].
    destruct (scrapeUrl fuel u w) as [[[res|e] w1]|]; [| |reflexivity].
    + rewrite (IH (results ++ [res])), (IH ([] ++ [res])).
      destruct (scrapeUrls_loop fuel urls [] w1) as [[rs w']|]; [|reflexivity].
      rewrite <- app_assoc. reflexivity.
    + rewrite (IH (results ++ [_])), (IH ([] ++ [_])).
      destruct (scrapeUrls_loop fuel urls [] w1) as [[rs w']|]; [|reflexivity].
      rewrite <- app_assoc. reflexivity.
Qed.

Lemma scrapeUrls_cons fuel u urls w :
  scrapeUrls fuel (u :: urls) w =
    match scrapeUrl fuel u w with
    | Some (Normal res, w1) =>
        match scrapeUrls fuel urls w1 with
        | Some (rs, w') => Some (res :: rs, w')
        | None => None
        end
    | Some (Throw e, w1) =>
        match scrapeUrls fuel urls w1 with
        | Some (rs, w') => Some (failed Data u e :: rs, w')
        | None => None
        end
    | None => None
    end.
Proof.
  unfold Scraper.scrapeUrls. cbn [Scraper.scrapeUrls_loop].
  destruct (scrapeUrl fuel u w) as [[[res|e] w1]|]; [| |reflexivity];
    rewrite scrapeUrls_loop_acc; reflexivity.
Qed.

(** What a batch does, whenever it returns. *)
Lemma scrapeUrls_facts fuel urls :
  forall w results w',
    scrapeUrls fuel urls w = Some (results, w') ->
    map (url Data) results = urls /\
    Forall (fun res => status Data res = success <-> is_Some (data Data res)) results /\
    robots w' =
      RobotsChecker.calls URL_parse network robotsParser
        (map (fun u => RobotsChecker.CallCheckUrl u "*") urls) (robots w) /\
    exists adm,
      RateLimiter.admissions (RateLimiter.trace (limiter w')) =
        RateLimiter.admissions (RateLimiter.trace (limiter w)) ++ adm /\
      (RateLimiter.fnCalls (limiter w') =
       RateLimiter.fnCalls (limiter w) + length adm)%nat /\
      Forall (fun a => exists u x, In u urls /\ URL_parse u = Some x /\
                                   a.1 = hostname x) adm.
Proof.
  induction urls as [|u urls IH]; intros w results w' H.
  - injection H as <- <-. split; [reflexivity|]. split; [constructor|].
    split; [reflexivity|]. exists []. rewrite app_nil_r.
    split; [reflexivity|]. split; [simpl; lia|constructor].
  - rewrite scrapeUrls_cons in H.
    destruct (scrapeUrl fuel u w) as [[c w1]|] eqn:Hs; [|discriminate].
    destruct (scrapeUrl_facts _ _ _ _ _ Hs)
      as (res & -> & Hu & Hsh & Hrb & ts & Ha & Hc & Hp).
    destruct (scrapeUrls fuel urls w1) as [[rs w2]|] eqn:Hl; [|discriminate].
    injection H as <- <-.
    destruct (IH _ _ _ Hl) as (Hm & Hf & Hr & adm & Ha' & Hc' & Hadm).
    split; [simpl; congruence|]. split; [constructor; assumption|].
    split; [simpl; rewrite Hr, Hrb; reflexivity|].
    exists (map (pair (RateLimiter.getDomain URL_parse u)) ts ++ adm).
    split; [rewrite Ha', Ha, <- app_assoc; reflexivity|].
    split; [rewrite Hc', Hc, length_app, length_map; lia|].
    apply Forall_app. split.
    + destruct ts as [|t ts]; [constructor|].
      destruct Hp as [x Hx]; [discriminate|].
      apply Forall_forall. intros a Hin. apply list_elem_of_In, in_map_iff in Hin
        as (t' & <- & _).
      exists u, x. split; [left; reflexivity|]. split; [exact Hx|].
      simpl. unfold RateLimiter.getDomain. rewrite Hx. reflexivity.
    + eapply Forall_impl; [exact Hadm|].
      intros a (u' & x & Hin & Hx & Hh). exists u', x. split; [right; exact Hin|auto].
Qed.

(** X5: a batch can be split: scraping [us1 ++ us2] is scraping [us1] and
    then [us2] with the same scraper, and the results of the two parts
    are those of the whole, in that order. *)
Theorem scrapeUrls_app fuel us1 us2 w :
  scrapeUrls fuel (us1 ++ us2) w =
    match scrapeUrls fuel us1 w with
    | Some (rs1, w1) =>
        match scrapeUrls fuel us2 w1 with
        | Some (rs2, w2) => Some (rs1 ++ rs2, w2)
        | None => None
        end
    | None => None
    end.
Proof.
  revert w. induction us1 as [|u us1 IH]; intros w.
  - simpl. destruct (scrapeUrls fuel us2 w) as [[rs2 w2]|]; reflexivity.
  - change ((u :: us1) ++ us2) with (u :: (us1 ++ us2)). rewrite !scrapeUrls_cons.
    destruct (scrapeUrl fuel u w) as [[[res|e] w1]|]; [| |reflexivity];
      rewrite IH;
      (destruct (scrapeUrls fuel us1 w1) as [[rs1 w1']|]; [|reflexivity]);
      (destruct (scrapeUrls fuel us2 w1') as [[rs2 w2]|]; reflexivity).
Qed.

Lemma isAllowed_requests url ua s :
  (length (RobotsChecker.requests (isAllowed url ua s).2)
   <= S (length (RobotsChecker.requests s)))%nat.
Proof.
  unfold RobotsChecker.isAllowed.
  pose proof (getDomain_requests URL_parse url s) as Hr.
  destruct (RobotsChecker.getDomain URL_parse url s) as [d s1]; simpl in Hr.
  destruct (negb (truthyStr d)); simpl; [rewrite Hr; lia|].
  destruct (getRobotsParser_first network robotsParser (default EmptyString d) s1)
    as [Hreq _].
  assert (Hlen : (length (RobotsChecker.requests
                    (RobotsChecker.getRobotsParser network robotsParser
                       (default EmptyString d) s1).2)
                  <= S (length (RobotsChecker.requests s)))%nat).
  { destruct Hreq as [-> | ->]; rewrite ?length_app, Hr; simpl; lia. }
  destruct (RobotsChecker.getRobotsParser _ _ _ s1) as [[p|e] s2]; simpl in *;
    [|exact Hlen].
  destruct (RobotsChecker.parser_isAllowed p url ua) as [a|e]; simpl; [|exact Hlen].
  destruct (negb (truthyBool a)); exact Hlen.
Qed.

Lemma checks_requests urls s :
  (length (RobotsChecker.requests
             (RobotsChecker.calls URL_parse network robotsParser
                (map (fun u => RobotsChecker.CallCheckUrl u "*") urls) s))
   <= length (RobotsChecker.requests s) + length urls)%nat.
Proof.
  revert s. induction urls as [|u urls IH]; intros s; [simpl; lia|].
  simpl. etransitivity; [apply IH|].
  rewrite checkUrl_unfold. cbn [snd].
  pose proof (isAllowed_requests u "*" s). lia.
Qed.

(** X3: the robots.txt traffic of a batch: the checker ends in the state
    that the [checkUrl] calls for the URLs of the batch, in order, lead
    to, whatever the limiter and the browser do; at most one robots.txt
    is requested per URL; and, as long as the [robots-parser] constructor
    does not throw and the cache is not cleared, no robots.txt is
    requested twice, however many URLs share an origin. *)
Theorem scrapeUrls_fetches_robots_once fuel urls w results w' :
  (forall u c, exists p, robotsParser u c = Normal p) ->
  RobotsChecker.coherent (robots w) ->
  scrapeUrls fuel urls w = Some (results, w') ->
  robots w' =
    RobotsChecker.calls URL_parse network robotsParser
      (map (fun u => RobotsChecker.CallCheckUrl u "*") urls) (robots w) /\
  NoDup (RobotsChecker.requests (robots w')) /\
  (length (RobotsChecker.requests (robots w'))
   <= length (RobotsChecker.requests (robots w)) + length urls)%nat /\
  length (RobotsChecker.requests (robots w')) =
    RobotsChecker.cachedDomains (RobotsChecker.getCacheStats (robots w')).
Proof.
  intros Htotal Hco H. apply scrapeUrls_facts in H as (_ & _ & Hr & _).
  split; [exact Hr|]. rewrite Hr.
  destruct (calls_coherent URL_parse network robotsParser Htotal
              (map (fun u => RobotsChecker.CallCheckUrl u "*") urls) _ Hco)
    as (Hnd & Hlen & _).
  split; [exact Hnd|]. split; [apply checks_requests|exact Hlen].
Qed.

(** X2: the admissions of a batch: every invocation of the browser's unit of
    work follows an admission of its own by the limiter, and every
    admission is for the host name of a URL of the batch that parses.
    The limiter's bucket ['unknown'], for URLs that do not parse, is
    never used by the scraper: such a URL is skipped before the limiter
    is reached. *)
Theorem scrapeUrls_admissions fuel urls w results w' :
  scrapeUrls fuel urls w = Some (results, w') ->
  exists adm,
    RateLimiter.admissions (RateLimiter.trace (limiter w')) =
      RateLimiter.admissions (RateLimiter.trace (limiter w)) ++ adm /\
    (RateLimiter.fnCalls (limiter w') =
     RateLimiter.fnCalls (limiter w) + length adm)%nat /\
    Forall (fun a => exists u x, In u urls /\ URL_parse u = Some x /\
                                 a.1 = hostname x) adm.
Proof.
  intros H. apply scrapeUrls_facts in H as (_ & _ & _ & H). exact H.
Qed.

Lemma tally_fold rs :
  forall st,
    Forall (fun res => status Data res = success <-> is_Some (data Data res)) rs ->
    let st' := fold_left (RunScraper.tally Data) rs st in
    RunScraper.total st' = RunScraper.total st /\
    RunScraper.successes st' + RunScraper.failures st' + RunScraper.skipped st' =
      RunScraper.successes st + RunScraper.failures st + RunScraper.skipped st
      + Z.of_nat (length rs) /\
    RunScraper.successes st' =
      RunScraper.successes st
      + Z.of_nat (length (List.filter (OutputWriter.isRecord Data) rs)) /\
    RunScraper.failures st <= RunScraper.failures st' /\
    (RunScraper.failures st' = RunScraper.failures st <->
     Forall (fun res => status Data res <> error) rs).
Proof.
  induction rs as [|res rs IH]; intros st Hsh.
  - simpl. repeat split; try lia. constructor.
  - apply Forall_cons in Hsh as [Hres Hsh].
    cbn [fold_left]. cbv zeta.
    destruct (IH (RunScraper.tally Data st res) Hsh) as (H1 & H2 & H3 & H4 & H5).
    rewrite H1, H2, H3. clear H1 H2 H3.
    assert (Hrec : OutputWriter.isRecord Data res =
                   match status Data res with success => true | _ => false end).
    { unfold OutputWriter.isRecord. destruct (status Data res); try reflexivity.
      destruct (proj1 Hres eq_refl) as [d ->]. reflexivity. }
    cbn [List.filter]. rewrite Hrec. clear Hrec.
    unfold RunScraper.tally in *.
    destruct (status Data res) eqn:Hst; cbn [RunScraper.total RunScraper.successes
      RunScraper.failures RunScraper.skipped length] in *.
    + split; [reflexivity|]. split; [lia|]. split; [lia|]. split; [lia|].
      rewrite H5. split; [intros H; constructor; [congruence|exact H]|].
      intros H. apply Forall_cons in H as [_ H]. exact H.
    + split; [reflexivity|]. split; [lia|]. split; [lia|]. split; [lia|].
      rewrite H5. split; [intros H; constructor; [congruence|exact H]|].
      intros H. apply Forall_cons in H as [_ H]. exact H.
    + split; [reflexivity|]. split; [lia|]. split; [lia|]. split; [lia|].
      split; [lia|]. intros H. apply Forall_cons in H as [H _]. congruence.
Qed.

(** X4: from the batch to the summary: the statistics of [calculateStats]
    count every URL of the batch exactly once, as a success, a failure or
    a skip; [extractRecords] hands exactly the successes to the writers,
    none of them [null] (a result of the scraper carries a record exactly
    when its status is ['success'], so the test [&& result.data] never
    drops a result); and the exit code is 0 exactly when no URL ended in
    ['error']: skipped URLs do not fail the run. *)
Theorem scrapeUrls_statistics fuel urls w results w' :
  scrapeUrls fuel urls w = Some (results, w') ->
  let stats := RunScraper.calculateStats Data results in
  let records := OutputWriter.extractRecords Data results in
  RunScraper.total stats = Z.of_nat (length urls) /\
  RunScraper.successes stats + RunScraper.failures stats + RunScraper.skipped stats
    = RunScraper.total stats /\
  Z.of_nat (length records) = RunScraper.successes stats /\
  Forall is_Some records /\
  (RunScraper.exitCode stats = 0 <->
   Forall (fun res => status Data res <> error) results).
Proof.
  intros H stats records.
  apply scrapeUrls_facts in H as (Hm & Hsh & _).
  assert (Hlen : length results = length urls)
    by (rewrite <- Hm, length_map; reflexivity).
  destruct (tally_fold results
              {| RunScraper.total := Z.of_nat (length results);
                 RunScraper.successes := 0; RunScraper.failures := 0;
                 RunScraper.skipped := 0 |} Hsh) as (H1 & H2 & H3 & H4 & H5).
  fold (RunScraper.calculateStats Data results) in H1, H2, H3, H4, H5.
  fold stats in H1, H2, H3, H4, H5. simpl in H1, H2, H3, H4, H5.
  split; [rewrite H1, Hlen; reflexivity|]. split; [lia|].
  split; [unfold records, OutputWriter.extractRecords; rewrite length_map; lia|].
  split.
  - unfold records, OutputWriter.extractRecords. apply Forall_map.
    apply Forall_forall. intros res Hin. apply list_elem_of_In, filter_In in Hin as [_ Hrec].
    unfold OutputWriter.isRecord in Hrec.
    destruct (status Data res); [|discriminate..].
    destruct (data Data res); [eauto|discriminate].
  - rewrite <- H5. unfold RunScraper.exitCode.
    destruct (Z.ltb_spec 0 (RunScraper.failures stats)); split; intros; lia.
Qed.

(** X1: HTTP errors are never retried.  In any state that a sequential run
    reaches, for a URL that robots.txt allows: when the browser opens
    and closes the page without throwing, the unit of work returns
    normally, whatever happened in between, so the limiter invokes it
    exactly once and waits for no backoff.  A response with a status from
    400 on (429 and 503 included) or without a status ends as an
    ['error'] result with the reason ["HTTP <status>"] or
    ["HTTP unknown"], after that single attempt. *)
Theorem scrapeUrl_http_error_not_retried cfg fuel u w :
  1 <= RateLimiter.globalConcurrency cfg ->
  1 <= RateLimiter.perDomainConcurrency cfg ->
  RateLimiter.Inv cfg (limiter w) RateLimiter.Free ->
  (2 <= fuel)%nat ->
  truthyBool (RobotsChecker.allowed (checkUrl u "*" (robots w)).1) = true ->
  let k := RateLimiter.fnCalls (limiter w) in
  newPage Data (browser k u) = None ->
  close Data (browser k u) = None ->
  exists res w',
    scrapeUrl fuel u w = Some (Normal res, w') /\
    visit Data u (browser k u) = Normal res /\
    RateLimiter.fnCalls (limiter w') = S k /\
    RateLimiter.schedule (RateLimiter.trace (limiter w')) =
      RateLimiter.schedule (RateLimiter.trace (limiter w)) ++ [RateLimiter.Attempt k] /\
    (setExtraHTTPHeaders Data (browser k u) = None ->
     forall st, goto Data (browser k u) = Normal st ->
       (st = None \/ st = Some 0 ->
        res = {| url := u; status := error; reason := "HTTP unknown"; data := None |}) /\
       (forall n, st = Some n -> 400 <= n ->
        res = {| url := u; status := error; reason := "HTTP " +:+ showZ n;
                 data := None |})).
Proof.
  intros Hg Hk Hinv Hfuel Hal k Hopen Hclose.
  unfold Scraper.scrapeUrl.
  destruct (checkUrl u "*" (robots w)) as [chk rb]. cbn [fst] in Hal.
  rewrite Hal. cbn [negb].
  set (r := RateLimiter.advance _ (limiter w)).
  assert (Hr : RateLimiter.Inv cfg r RateLimiter.Free) by (apply Inv_advance, Hinv).
  assert (Hv : exists res, visit Data u (browser k u) = Normal res /\
            (setExtraHTTPHeaders Data (browser k u) = None ->
             forall st, goto Data (browser k u) = Normal st ->
               (st = None \/ st = Some 0 ->
                res = {| url := u; status := error; reason := "HTTP unknown";
                         data := None |}) /\
               (forall n, st = Some n -> 400 <= n ->
                res = {| url := u; status := error; reason := "HTTP " +:+ showZ n;
                         data := None |}))).
  { unfold visit. rewrite Hopen, Hclose.
    destruct (visit_try Data u (browser k u)) as [res|e] eqn:Ht.
    - exists res. split; [reflexivity|]. intros Hh st Hgo.
      unfold visit_try in Ht. rewrite Hh, Hgo in Ht. split.
      + intros [-> | ->]; discriminate.
      + intros n -> Hn. change (default 0 (Some n)) with n in Ht. cbn [truthyNum] in Ht.
        assert (H4 : (400 <=? n) = true) by (apply Z.leb_le; lia).
        rewrite H4, orb_true_r in Ht. discriminate.
    - exists (failed Data u e). split; [reflexivity|]. intros Hh st Hgo.
      unfold visit_try in Ht. rewrite Hh, Hgo in Ht. split.
      + intros [-> | ->]; injection Ht as <-; reflexivity.
      + intros n -> Hn. change (default 0 (Some n)) with n in Ht. cbn [truthyNum] in Ht.
        assert (H4 : (400 <=? n) = true) by (apply Z.leb_le; lia).
        rewrite H4, orb_true_r in Ht.
        destruct (Z.eqb_spec n 0); [lia|]. cbn [negb] in Ht.
        injection Ht as <-. reflexivity. }
  destruct Hv as (res & Hvis & Hhttp).
  destruct (execute_failures URL_parse timer cfg Hg Hk u (fn u) 0 0 r fuel)
    as (r' & Hex & _ & Hc & Hs & _).
  - left. exact Hr.
  - intros i Hi. lia.
  - rewrite Nat.add_0_r. change (RateLimiter.fnCalls r) with k.
    unfold Scraper.fn. cbn [RateLimiter.result]. rewrite Hvis. exact I.
  - lia.
  - rewrite Nat.add_0_r in Hex, Hc. change (RateLimiter.fnCalls r) with k in Hex, Hc, Hs.
    unfold Scraper.fn in Hex at 2. cbn [RateLimiter.result] in Hex. rewrite Hvis in Hex.
    rewrite Hex. exists res. eexists. split; [reflexivity|].
    split; [exact Hvis|]. split; [exact Hc|]. split; [exact Hs|exact Hhttp].
Qed.

End MoreScraperFacts.

(** X6: the limiter that [new Scraper(options)] builds: the constructor never
    throws and the limiter starts with no request in flight.  The global
    limit and the request delay come from [options] when it has the
    entry, else from the environment; the per-host limit, the number of
    retries and the backoff base come from the environment only.  In
    each place 0 is replaced by the default, so none of the five is ever
    0: neither [MAX_RETRIES=0] nor a request delay of 0 can be
    configured. *)
Theorem Scraper_constructor_limiter options env :
  exists s,
    Scraper.constructor options env = Normal s /\
    RateLimiter.quiet s /\
    RateLimiter.config s =
      (match Scraper.concurrency options with
       | Some n => orNum (Some n) 3
       | None => orNum (Scraper.CONCURRENCY env) 3
       end,
       orNum (Scraper.PER_DOMAIN_CONCURRENCY env) 1,
       match Scraper.requestDelay options with
       | Some n => orNum (Some n) 2000
       | None => orNum (Scraper.REQUEST_DELAY_MS env) 2000
       end,
       orNum (Scraper.MAX_RETRIES env) 3,
       orNum (Scraper.EXPONENTIAL_BACKOFF_BASE env) 2) /\
    RateLimiter.globalConcurrency s <> 0 /\
    RateLimiter.perDomainConcurrency s <> 0 /\
    RateLimiter.requestDelay s <> 0 /\
    RateLimiter.maxRetries s <> 0 /\
    RateLimiter.backoffBase s <> 0.
Proof.
  assert (Hor : forall o d, d <> 0 -> orNum o d <> 0 /\ orNum (Some (orNum o d)) d = orNum o d).
  { intros [n|] d Hd; simpl.
    - destruct (Z.eqb_spec n 0) as [->|Hn]; simpl.
      + split; [exact Hd|]. destruct (Z.eqb_spec d 0); reflexivity.
      + split; [exact Hn|]. destruct (Z.eqb_spec n 0); [lia|reflexivity].
    - split; [exact Hd|]. destruct (Z.eqb_spec d 0); reflexivity. }
  eexists. split; [reflexivity|]. split; [apply quiet_fresh; reflexivity|].
  unfold RateLimiter.config. cbn [RateLimiter.globalConcurrency
    RateLimiter.perDomainConcurrency RateLimiter.requestDelay RateLimiter.maxRetries
    RateLimiter.backoffBase RateLimiter.concurrency RateLimiter.opt_perDomainConcurrency
    RateLimiter.opt_requestDelay RateLimiter.opt_maxRetries RateLimiter.opt_backoffBase].
  unfold Scraper.option_entry.
  destruct (Hor (Scraper.PER_DOMAIN_CONCURRENCY env) 1 ltac:(lia)) as [P1 P2].
  destruct (Hor (Scraper.MAX_RETRIES env) 3 ltac:(lia)) as [M1 M2].
  destruct (Hor (Scraper.EXPONENTIAL_BACKOFF_BASE env) 2 ltac:(lia)) as [B1 B2].
  destruct (Hor (Scraper.CONCURRENCY env) 3 ltac:(lia)) as [C1 C2].
  destruct (Hor (Scraper.REQUEST_DELAY_MS env) 2000 ltac:(lia)) as [D1 D2].
  rewrite P2, M2, B2.
  assert (HC : forall n, orNum (Some n) 3 <> 0)
    by (intros n; simpl; destruct (Z.eqb_spec n 0); lia).
  assert (HD : forall n, orNum (Some n) 2000 <> 0)
    by (intros n; simpl; destruct (Z.eqb_spec n 0); lia).
  destruct (Scraper.concurrency options) as [n|],
           (Scraper.requestDelay options) as [m|];
    rewrite ?C2, ?D2; repeat split; auto.
Qed.


(* ===================================================================== *)
(** ** Properties of the text cleaner and of [trySelectors] *)
(* ===================================================================== *)

Section ValidatorsFacts.

Import Validators.

Abbreviation collapse := (replaceRuns isSpace).

Lemma isNewline_isSpace c : isNewline c = true -> isSpace c = true.
Proof.
  unfold isNewline, isSpace. intros H. apply N.eqb_eq in H. rewrite H. reflexivity.
Qed.

(** A pass over a string without any code unit of the class changes
    nothing. *)
Lemma replaceRuns_none p b s :
  (forall c, In c (list_ascii_of_string s) -> p c = false) -> replaceRuns p b s = s.
Proof.
  revert b. induction s as [|c s IH]; intros b H; [reflexivity|].
  simpl. rewrite (H c) by (left; reflexivity).
  rewrite IH; [reflexivity|]. intros c' Hc'. apply H. right. exact Hc'.
Qed.

Lemma collapse_no_newline b s c :
  In c (list_ascii_of_string (collapse b s)) -> isNewline c = false.
Proof.
  revert b. induction s as [|a s IH]; intros b; simpl; [tauto|].
  destruct (isSpace a) eqn:Ha.
  - destruct b; simpl.
    + apply IH.
    + intros [<-|H]; [reflexivity|]. eapply IH, H.
  - simpl. intros [<-|H]; [|eapply IH, H].
    destruct (isNewline a) eqn:Hn; [|reflexivity].
    apply isNewline_isSpace in Hn. congruence.
Qed.

Lemma cleanText_unfold s : cleanText s = trimEnd (collapse true s).
Proof.
  assert (Hstart : forall s, trimStart (collapse true s) = collapse true s).
  { clear s. induction s as [|c s IH]; [reflexivity|]. simpl.
    destruct (isSpace c) eqn:Hc; [exact IH|]. simpl. rewrite Hc. reflexivity. }
  assert (Htrim : forall s, trimStart (collapse false s) = collapse true s).
  { clear s. intros [|c s]; [reflexivity|]. simpl.
    destruct (isSpace c) eqn:Hc; simpl; [apply Hstart|rewrite Hc; reflexivity]. }
  unfold cleanText, trim. destruct s as [|c s]; [reflexivity|].
  rewrite replaceRuns_none by (intros a; apply collapse_no_newline).
  rewrite Htrim. reflexivity.
Qed.

Lemma trimEnd_cons c s : isSpace c = false -> trimEnd (String c s) = String c (trimEnd s).
Proof. intros H. simpl. rewrite H. destruct (trimEnd s); reflexivity. Qed.

Lemma trimEnd_space c s :
  isSpace c = true ->
  trimEnd (String c s) =
    match trimEnd s with EmptyString => EmptyString | r => String c r end.
Proof. intros H. simpl. rewrite H. reflexivity. Qed.

Lemma splitWords_nonempty s : Forall (fun w => w <> EmptyString) (splitWords s).2.
Proof.
  induction s as [|c s IH]; simpl; [constructor|].
  destruct (splitWords s) as [w ws]. simpl in IH.
  destruct (isSpace c); simpl; [|exact IH].
  destruct w; [exact IH|]. constructor; [discriminate|exact IH].
Qed.

Lemma words_nonempty s : Forall (fun w => w <> EmptyString) (words s).
Proof.
  unfold words. pose proof (splitWords_nonempty s) as H.
  destruct (splitWords s) as [w ws]. simpl in H.
  destruct w; [exact H|]. constructor; [discriminate|exact H].
Qed.

Lemma concat_nonempty ws :
  Forall (fun w => w <> EmptyString) ws -> String.concat " " ws = EmptyString -> ws = [].
Proof.
  intros H. destruct H as [|w ws Hw H]; [reflexivity|].
  destruct w; [congruence|]. simpl. destruct ws; discriminate.
Qed.

Lemma words_space c s : isSpace c = true -> words (String c s) = words s.
Proof.
  intros H. unfold words. simpl. destruct (splitWords s) as [w ws]. rewrite H.
  reflexivity.
Qed.

(** After the runs of white space have become single spaces and the
    end has been trimmed, the words are left, separated by single
    spaces. *)
Lemma collapse_words s :
  trimEnd (collapse true s) = String.concat " " (words s) /\
  trimEnd (collapse false s) =
    (splitWords s).1 +:+
    (match (splitWords s).2 with
     | [] => EmptyString
     | ws => " " +:+ String.concat " " ws
     end).
Proof.
  induction s as [|c s [IHt IHf]]; [split; reflexivity|].
  destruct (isSpace c) eqn:Hc.
  - rewrite words_space by exact Hc. cbn [replaceRuns splitWords]. rewrite Hc.
    split; [exact IHt|].
    change (trimEnd (String " " (collapse true s))) with
      (match trimEnd (collapse true s) with
       | EmptyString => EmptyString
       | r => String " " r
       end).
    rewrite IHt. unfold words.
    pose proof (words_nonempty s) as Hne. unfold words in Hne.
    destruct (splitWords s) as [w ws]. cbv beta iota zeta. cbn [fst snd].
    set (ws' := match w with EmptyString => ws | _ => w :: ws end) in *.
    destruct ws' as [|w1 ws1]; [reflexivity|].
    destruct (String.concat " " (w1 :: ws1)) eqn:Hcat; [|reflexivity].
    apply concat_nonempty in Hcat; [discriminate|exact Hne].
  - simpl. rewrite Hc.
    change (trimEnd (String c (collapse false s))) with
      (trimEnd (String c (collapse false s))).
    rewrite (trimEnd_cons c _ Hc), IHf. unfold words. simpl.
    destruct (splitWords s) as [w ws]. rewrite Hc. simpl.
    split; [|reflexivity].
    destruct ws; [rewrite append_nil_r; reflexivity|reflexivity].
Qed.

Lemma collapse_tidy b s :
  trimEnd (collapse b s) = EmptyString \/ tidyFrom b (trimEnd (collapse b s)) = true.
Proof.
  revert b. induction s as [|c s IH]; intros b; [left; reflexivity|].
  cbn [replaceRuns]. destruct (isSpace c) eqn:Hc.
  - destruct b; [apply IH|].
    rewrite (trimEnd_space " " _ eq_refl).
    destruct (IH true) as [H|H]; [rewrite H; left; reflexivity|].
    destruct (trimEnd (collapse true s)) as [|a r]; [left; reflexivity|].
    right. change (tidyFrom false (String " " (String a r)))
      with (tidyFrom true (String a r)). exact H.
  - right. rewrite (trimEnd_cons c _ Hc). cbn [tidyFrom]. rewrite Hc.
    destruct (IH false) as [H|H]; [rewrite H; reflexivity|exact H].
Qed.

Lemma tidyFrom_fixed b t :
  tidyFrom b t = true -> collapse b t = t /\ trimEnd t = t.
Proof.
  revert b. induction t as [|c t IH]; intros b H; [split; reflexivity|].
  cbn [tidyFrom replaceRuns] in *. destruct (isSpace c) eqn:Hc.
  - apply andb_true_iff in H as [H Ht]. apply andb_true_iff in H as [Hsp Hb].
    apply Ascii.eqb_eq in Hsp. subst c. destruct b; [discriminate|].
    destruct (IH true Ht) as [H1 H2]. rewrite H1.
    split; [reflexivity|]. rewrite (trimEnd_space " " _ eq_refl), H2.
    destruct t; [discriminate|reflexivity].
  - destruct (IH false H) as [H1 H2]. rewrite H1, (trimEnd_cons c _ Hc), H2.
    split; reflexivity.
Qed.

Lemma cleanText_is_tidy s : tidy (cleanText s) = true.
Proof.
  rewrite cleanText_unfold. destruct (collapse_tidy true s) as [H|H].
  - rewrite H. reflexivity.
  - destruct (trimEnd (collapse true s)); [reflexivity|exact H].
Qed.

Lemma tidy_fixed t : tidy t = true -> cleanText t = t.
Proof.
  intros H. rewrite cleanText_unfold. destruct t as [|c t]; [reflexivity|].
  destruct (tidyFrom_fixed true _ H) as [H1 H2]. rewrite H1. exact H2.
Qed.

Lemma words_blank s : blank s = true <-> words s = [].
Proof.
  induction s as [|c s IH]; [split; reflexivity|].
  cbn [blank]. destruct (isSpace c) eqn:Hc.
  - rewrite (words_space c s Hc). exact IH.
  - unfold words. cbn [splitWords]. destruct (splitWords s) as [w ws]. rewrite Hc.
    split; discriminate.
Qed.

Lemma cleanText_blank s : blank s = true <-> cleanText s = EmptyString.
Proof.
  rewrite cleanText_unfold, (proj1 (collapse_words s)), words_blank. split.
  - intros ->. reflexivity.
  - apply concat_nonempty, words_nonempty.
Qed.

Lemma trim_blank s : blank s = true <-> trim s = EmptyString.
Proof.
  unfold trim. induction s as [|c s IH]; [split; reflexivity|].
  cbn [blank trimStart]. destruct (isSpace c) eqn:Hc; [exact IH|].
  rewrite (trimEnd_cons c s Hc). split; discriminate.
Qed.

(** X18: [cleanText] returns the words of the text, in their order, separated
    by single spaces; the result is empty exactly when the text has no
    word, that is, when it is empty or all white space. *)
Theorem cleanText_words s :
  cleanText s = String.concat " " (words s) /\
  (cleanText s = EmptyString <-> blank s = true).
Proof.
  split.
  - rewrite cleanText_unfold. apply collapse_words.
  - symmetry. apply cleanText_blank.
Qed.

(** X19: [cleanText] is a normaliser: in its result every white space is a
    single space character between two code units that are not white
    space; the strings of that shape are exactly the ones it leaves
    unchanged; so cleaning a second time changes nothing. *)
Theorem cleanText_idempotent s :
  tidy (cleanText s) = true /\
  cleanText (cleanText s) = cleanText s /\
  forall t, cleanText t = t <-> tidy t = true.
Proof.
  split; [apply cleanText_is_tidy|]. split.
  - apply tidy_fixed, cleanText_is_tidy.
  - intros t. split; [|apply tidy_fixed].
    intros <-. apply cleanText_is_tidy.
Qed.

(** X20: the second pass of [cleanText], [.replace(/\n+/g, ' ')], never
    changes anything: after the first pass no line feed is left.  So
    [cleanText] of [validators.js] and the [cleanText] of the helper
    module, which has no second pass, are the same function. *)
Theorem cleanText_newline_pass_redundant s :
  replaceRuns isNewline false (replaceRuns isSpace false s) = replaceRuns isSpace false s /\
  cleanText s = Helpers.cleanText s.
Proof.
  assert (H : replaceRuns isNewline false (collapse false s) = collapse false s)
    by (apply replaceRuns_none; intros a; apply collapse_no_newline).
  split; [exact H|].
  unfold cleanText, Helpers.cleanText. rewrite H. reflexivity.
Qed.

End ValidatorsFacts.

Section DataExtractorFacts.

Import Validators DataExtractor.

Lemma length_trim_blank text :
  truthyStr (Some text) && (0 <? String.length (trim text))%nat = negb (blank text).
Proof.
  destruct (blank text) eqn:Hb.
  - apply trim_blank in Hb. rewrite Hb. apply andb_false_r.
  - destruct text as [|c text]; [discriminate|]. simpl truthyStr.
    destruct (trim (String c text)) eqn:Ht; [|reflexivity].
    apply trim_blank in Ht. congruence.
Qed.

(** X21: [trySelectors] answers with the cleaned text of the first selector,
    in the order of the list, whose element exists and has a text that is
    not blank; its answer is never empty and never has stray white
    space.  It answers [null] exactly when no selector has such a text:
    a selector that throws, finds nothing or finds blank text is passed
    over. *)
Theorem trySelectors_first_text page selectors :
  match trySelectors page selectors with
  | Some text =>
      text <> EmptyString /\ tidy text = true /\
      exists before selector after raw,
        selectors = before ++ selector :: after /\
        page selector = Normal (Some (Normal (Some raw))) /\
        blank raw = false /\ text = cleanText raw /\
        trySelectors page before = None
  | None =>
      forall selector raw,
        In selector selectors ->
        page selector = Normal (Some (Normal (Some raw))) -> blank raw = true
  end.
Proof.
  induction selectors as [|sel sels IH]; [intros ? ? []|].
  cbn [trySelectors].
  assert (Hskip :
    (forall raw, page sel = Normal (Some (Normal (Some raw))) -> blank raw = true) ->
    match trySelectors page sels with
    | Some text =>
        text <> EmptyString /\ tidy text = true /\
        exists before selector after raw,
          sel :: sels = before ++ selector :: after /\
          page selector = Normal (Some (Normal (Some raw))) /\
          blank raw = false /\ text = cleanText raw /\
          trySelectors page before = None
    | None =>
        forall selector raw,
          In selector (sel :: sels) ->
          page selector = Normal (Some (Normal (Some raw))) -> blank raw = true
    end).
  { intros Hsel. destruct (trySelectors page sels) as [text|].
    - destruct IH as (H1 & H2 & before & selector & after & raw & -> & H3 & H4 & H5 & H6).
      split; [exact H1|]. split; [exact H2|].
      exists (sel :: before), selector, after, raw.
      split; [reflexivity|]. split; [exact H3|]. split; [exact H4|].
      split; [exact H5|]. cbn [trySelectors].
      destruct (page sel) as [[[[raw0|]|]|]|]; try exact H6.
      rewrite length_trim_blank, (Hsel raw0 eq_refl). exact H6.
    - intros selector raw [<-|Hin] Hp; [apply Hsel, Hp|]. eapply IH; eassumption. }
  destruct (page sel) as [[[[raw|]|]|]|] eqn:Hp; try (apply Hskip; discriminate).
  rewrite length_trim_blank. destruct (blank raw) eqn:Hb; cbn [negb].
  - apply Hskip. intros raw0 [= <-]. exact Hb.
  - split; [intros H; apply cleanText_blank in H; congruence|].
    split; [apply cleanText_is_tidy|].
    exists [], sel, sels, raw. auto.
Qed.

End DataExtractorFacts.


(* ===================================================================== *)
(** ** Failures of the browser, and the robots.txt that is served *)
(* ===================================================================== *)

Section BrowserFailureFacts.

Import Scraper.

Variable Data : Type.
Variable URL_parse : string -> option URL.
Variable network : nat -> string -> RobotsChecker.NetReply.
Variable robotsParser : string -> string -> completion RobotsChecker.Robots.
Variable timer : Z -> Z.
Variable latency : nat -> string -> Z.
Variable browser : nat -> string -> Visit Data.

Abbreviation checkUrl := (RobotsChecker.checkUrl URL_parse network robotsParser).
Abbreviation fn := (fn Data browser).
Abbreviation scrapeUrl :=
  (scrapeUrl Data URL_parse network robotsParser timer latency browser).

(** What [scrapeUrl] does for an allowed URL when [execute] ends with
    the outcome of the invocation [m] steps on. *)
Lemma scrapeUrl_allowed cfg fuel u w m :
  1 <= RateLimiter.globalConcurrency cfg ->
  1 <= RateLimiter.perDomainConcurrency cfg ->
  RateLimiter.Inv cfg (limiter w) RateLimiter.Free ->
  truthyBool (RobotsChecker.allowed (checkUrl u "*" (robots w)).1) = true ->
  let k := RateLimiter.fnCalls (limiter w) in
  (forall i, (i < m)%nat ->
     Z.of_nat i < RateLimiter.maxRetries cfg /\
     exists e, visit Data u (browser (k + i)%nat u) = Throw e /\
               RateLimiter.shouldRetry e = true) ->
  match visit Data u (browser (k + m)%nat u) with
  | Normal _ => True
  | Throw e => RateLimiter.shouldRetry e = false \/
               RateLimiter.maxRetries cfg <= Z.of_nat m
  end ->
  (m + 2 <= fuel)%nat ->
  exists w',
    scrapeUrl fuel u w =
      Some (Normal match visit Data u (browser (k + m)%nat u) with
                   | Normal res => res
                   | Throw e => failed Data u e
                   end, w') /\
    RateLimiter.fnCalls (limiter w') = S (k + m) /\
    RateLimiter.schedule (RateLimiter.trace (limiter w')) =
      RateLimiter.schedule (RateLimiter.trace (limiter w)) ++
      RateLimiter.attempts cfg k 0 m.
Proof.
  intros Hg Hk Hinv Hal k Hfail Hfinal Hfuel.
  unfold Scraper.scrapeUrl.
  destruct (checkUrl u "*" (robots w)) as [chk rb]. cbn [fst] in Hal.
  rewrite Hal. cbn [negb].
  set (r := RateLimiter.advance _ (limiter w)).
  assert (Hr : RateLimiter.Inv cfg r RateLimiter.Free) by (apply Inv_advance, Hinv).
  destruct (execute_failures URL_parse timer cfg Hg Hk u (fn u) m 0 r fuel)
    as (r' & Hex & _ & Hc & Hs & _).
  - left. exact Hr.
  - intros i Hi. exact (Hfail i Hi).
  - exact Hfinal.
  - exact Hfuel.
  - change (RateLimiter.fnCalls r) with k in Hex, Hc, Hs.
    unfold Scraper.fn in Hex at 2. cbn [RateLimiter.result] in Hex.
    rewrite Hex.
    destruct (visit Data u (browser (k + m)%nat u)) as [res|e];
      eexists; (split; [reflexivity|]); split; assumption.
Qed.

(** X22: what is retried is a failure to open the page.  In any state
    that a sequential run reaches, for a URL that robots.txt allows: when
    [context.newPage()] throws the same error at every attempt, a
    retryable error is retried [maxRetries] times (not at all when
    [maxRetries] is negative), any other error is not retried, and the
    URL ends as an ['error'] result whose reason is the message of that
    error. *)
Theorem scrapeUrl_browser_failure_retried cfg fuel u w e :
  1 <= RateLimiter.globalConcurrency cfg ->
  1 <= RateLimiter.perDomainConcurrency cfg ->
  RateLimiter.Inv cfg (limiter w) RateLimiter.Free ->
  truthyBool (RobotsChecker.allowed (checkUrl u "*" (robots w)).1) = true ->
  (forall j, newPage Data (browser j u) = Some e) ->
  (Z.to_nat (RateLimiter.maxRetries cfg) + 2 <= fuel)%nat ->
  let k := RateLimiter.fnCalls (limiter w) in
  let n := if RateLimiter.shouldRetry e then Z.to_nat (RateLimiter.maxRetries cfg)
           else 0%nat in
  exists w',
    scrapeUrl fuel u w =
      Some (Normal {| url := u; status := error; reason := message e; data := None |},
            w') /\
    RateLimiter.fnCalls (limiter w') = (k + n + 1)%nat /\
    RateLimiter.schedule (RateLimiter.trace (limiter w')) =
      RateLimiter.schedule (RateLimiter.trace (limiter w)) ++
      RateLimiter.attempts cfg k 0 n.
Proof.
  intros Hg Hk Hinv Hal Hopen Hfuel k n.
  assert (Hv : forall j, visit Data u (browser j u) = Throw e)
    by (intros j; unfold visit; rewrite Hopen; reflexivity).
  destruct (scrapeUrl_allowed cfg fuel u w n Hg Hk Hinv Hal) as (w' & H1 & H2 & H3).
  - intros i Hi. rewrite Hv. unfold n in Hi.
    destruct (RateLimiter.shouldRetry e) eqn:Hre; [|lia].
    split; [lia|]. exists e. auto.
  - rewrite Hv. unfold n. destruct (RateLimiter.shouldRetry e); [right; lia|left; reflexivity].
  - unfold n. destruct (RateLimiter.shouldRetry e); lia.
  - rewrite Hv in H1. exists w'. split; [exact H1|]. split; [fold k in H2; lia|exact H3].
Qed.

(** X23: an error of [page.close()] replaces the outcome of the visit.  In
    any state that a sequential run reaches, for a URL that robots.txt
    allows: when the page opens but [page.close()] in the [finally]
    block throws an error that is not retried, the URL ends as an
    ['error'] result with the message of that error after one attempt,
    whatever the visit produced; a record that was extracted is
    discarded. *)
Theorem scrapeUrl_close_failure_discards_result cfg fuel u w e :
  1 <= RateLimiter.globalConcurrency cfg ->
  1 <= RateLimiter.perDomainConcurrency cfg ->
  RateLimiter.Inv cfg (limiter w) RateLimiter.Free ->
  truthyBool (RobotsChecker.allowed (checkUrl u "*" (robots w)).1) = true ->
  (2 <= fuel)%nat ->
  let k := RateLimiter.fnCalls (limiter w) in
  newPage Data (browser k u) = None ->
  close Data (browser k u) = Some e ->
  RateLimiter.shouldRetry e = false \/ RateLimiter.maxRetries cfg <= 0 ->
  exists w',
    scrapeUrl fuel u w =
      Some (Normal {| url := u; status := error; reason := message e; data := None |},
            w') /\
    RateLimiter.fnCalls (limiter w') = S k.
Proof.
  intros Hg Hk Hinv Hal Hfuel k Hopen Hclose Hfatal. subst k.
  assert (Hv : visit Data u (browser (RateLimiter.fnCalls (limiter w) + 0)%nat u)
               = Throw e)
    by (rewrite Nat.add_0_r; unfold visit; rewrite Hopen, Hclose; reflexivity).
  destruct (scrapeUrl_allowed cfg fuel u w 0 Hg Hk Hinv Hal) as (w' & H1 & H2 & _).
  - intros i Hi. lia.
  - rewrite Hv. exact Hfatal.
  - lia.
  - rewrite Hv in H1. exists w'. split; [exact H1|].
    rewrite Nat.add_0_r in H2. exact H2.
Qed.

End BrowserFailureFacts.

Section ServedFileFacts.

Import RobotsChecker.

Variable URL_parse : string -> option URL.
Variable network : nat -> string -> NetReply.
Variable robotsParser : string -> string -> completion Robots.

Abbreviation isAllowed := (isAllowed URL_parse network robotsParser).

(** X24: the robots.txt that counts is the one served with status 200.
    On a cache miss, when the request for the robots.txt of the origin is
    answered with status 200, [isAllowed] sends that one request, builds
    the parser from the body served, caches it under the origin, and
    returns the parser's verdict for the URL ([false] when the parser
    throws). *)
Theorem isAllowed_uses_served_file url u ua s body p :
  URL_parse url = Some u ->
  let origin := protocol u +:+ "//" +:+ hostname u in
  let robotsUrl := origin +:+ "/robots.txt" in
  robotsCache s !! origin = None ->
  network (length (requests s)) robotsUrl = HttpReply 200 body ->
  robotsParser robotsUrl body = Normal p ->
  (isAllowed url ua s).1 =
    match parser_isAllowed p url ua with
    | Normal verdict => verdict
    | Throw _ => Some false
    end /\
  robotsCache (isAllowed url ua s).2 = <[origin := p]> (robotsCache s) /\
  requests (isAllowed url ua s).2 = requests s ++ [robotsUrl].
Proof.
  intros Hu origin robotsUrl Hmiss Hreply Hp.
  unfold RobotsChecker.isAllowed, RobotsChecker.getDomain. rewrite Hu. fold origin.
  assert (Ht : truthyStr (Some origin) = true).
  { unfold origin. simpl. destruct (protocol u); reflexivity. }
  rewrite Ht. cbn [negb default from_option id].
  unfold RobotsChecker.getRobotsParser. rewrite Hmiss.
  unfold RobotsChecker.fetchRobotsTxt, axios_get. fold robotsUrl.
  cbn [logger requests]. rewrite Hreply. cbn [Z.ltb Z.compare Pos.compare Pos.compare_cont].
  cbn [status data Z.eqb Pos.eqb]. rewrite Hp.
  destruct (parser_isAllowed p url ua) as [verdict|e]; [|auto].
  destruct (negb (truthyBool verdict)); auto.
Qed.

End ServedFileFacts.


(* ===================================================================== *)
(** ** More properties on the concrete platform *)
(* ===================================================================== *)

Lemma Concrete_parser_total :
  forall u c, exists p, Concrete.robotsParser u c = Normal p.
Proof. intros u c. eexists. reflexivity. Qed.

Lemma Concrete_foreign_undefined :
  RobotsChecker.foreign_undefined Concrete.URL_parse Concrete.robotsParser.
Proof.
  intros robotsUrl contents p url ua [= <-] Hforeign.
  cbn [RobotsChecker.parser_isAllowed].
  destruct (Concrete.sameOrigin url robotsUrl) eqn:Hs; [|reflexivity].
  exfalso. apply Hforeign. revert Hs.
  unfold Concrete.sameOrigin, RobotsChecker.sameOrigin.
  destruct (Concrete.URL_parse url) as [x|]; [|discriminate].
  destruct (Concrete.URL_parse robotsUrl) as [y|]; [|discriminate].
  intros H. apply andb_true_iff in H as [H H3]. apply andb_true_iff in H as [H1 H2].
  apply String.eqb_eq in H1, H2, H3. auto.
Qed.

Lemma Concrete_timer_exact : forall ms, 0 <= ms -> Concrete.timer ms = ms.
Proof. intros ms H. unfold Concrete.timer. lia. Qed.

(** X14, two URLs of one origin, then the crawl delay of that origin: one
    request. *)
Lemma robots_txt_requested_once_witness :
  let s :=
    RobotsChecker.calls Concrete.URL_parse Concrete.network Concrete.robotsParser
      [RobotsChecker.CallCheckUrl "https://ok.example/a" "*";
       RobotsChecker.CallCheckUrl "https://ok.example/b" "*";
       RobotsChecker.CallGetCrawlDelay "https://ok.example" "*"]
      RobotsChecker.constructor in
  RobotsChecker.requests s = ["https://ok.example/robots.txt"] /\
  NoDup (RobotsChecker.requests s) /\
  length (RobotsChecker.requests s) =
    RobotsChecker.cachedDomains (RobotsChecker.getCacheStats s).
Proof.
  intros s.
  destruct (robots_txt_requested_once Concrete.URL_parse Concrete.network
              Concrete.robotsParser Concrete_parser_total
              [RobotsChecker.CallCheckUrl "https://ok.example/a" "*";
               RobotsChecker.CallCheckUrl "https://ok.example/b" "*";
               RobotsChecker.CallGetCrawlDelay "https://ok.example" "*"])
    as (H1 & H2 & _).
  split; [vm_compute; reflexivity|]. split; [exact H1|exact H2].
Defined.

(** X15, on the concrete platform. *)
Lemma getCrawlDelay_after_isAllowed_witness :
  let s1 :=
    (RobotsChecker.isAllowed Concrete.URL_parse Concrete.network Concrete.robotsParser
       "https://slow.example/a" "*" RobotsChecker.constructor).2 in
  is_Some (RobotsChecker.robotsCache s1 !! "https://slow.example") /\
  RobotsChecker.requests
    (RobotsChecker.getCrawlDelay Concrete.network Concrete.robotsParser
       "https://slow.example" "*" s1).2 = RobotsChecker.requests s1.
Proof.
  apply (getCrawlDelay_after_isAllowed Concrete.URL_parse Concrete.network
           Concrete.robotsParser "https://slow.example/a"
           {| protocol := "https:"; hostname := "slow.example"; port := EmptyString |}
           "*" "*" RobotsChecker.constructor).
  - reflexivity.
  - vm_compute. reflexivity.
Defined.

(** X13, on the concrete platform. *)
Lemma isAllowed_other_port_denied_witness :
  truthyBool
    (RobotsChecker.isAllowed Concrete.URL_parse Concrete.network Concrete.robotsParser
       "https://ok.example:8443/a" "*" RobotsChecker.constructor).1 = false /\
  RobotsChecker.reason
    (RobotsChecker.checkUrl Concrete.URL_parse Concrete.network Concrete.robotsParser
       "https://ok.example:8443/a" "*" RobotsChecker.constructor).1
    = "Disallowed by robots.txt".
Proof.
  apply (isAllowed_other_port_denied Concrete.URL_parse Concrete.network
           Concrete.robotsParser "https://ok.example:8443/a"
           {| protocol := "https:"; hostname := "ok.example"; port := "8443" |}
           "*" RobotsChecker.constructor).
  - exact Concrete_foreign_undefined.
  - reflexivity.
  - vm_compute. intros (_ & _ & H). discriminate.
  - intros p H. vm_compute in H. discriminate.
Defined.

(** X11, on the concrete platform. *)
Lemma shouldRetry_http_status_witness :
  RateLimiter.shouldRetry (mkError ("HTTP " +:+ showZ 503)) = true /\
  RateLimiter.shouldRetry (mkError ("HTTP " +:+ showZ 404)) = false.
Proof.
  split.
  - rewrite (shouldRetry_http_status 503) by lia. reflexivity.
  - rewrite (shouldRetry_http_status 404) by lia. reflexivity.
Defined.

(** X12, on the concrete platform. *)
Lemma shouldRetry_append_witness :
  RateLimiter.shouldRetry
    (mkError ("HTTP 503" +:+ " Service Unavailable (was 404 before)")) = true.
Proof.
  apply (shouldRetry_append (mkError "HTTP 503") " Service Unavailable (was 404 before)").
  reflexivity.
Defined.

(** X9, on the concrete platform. *)
Lemma decrement_increment_witness :
  let s' :=
    RateLimiter.decrement "ok.example"
      (RateLimiter.increment "ok.example" 1000000 Concrete.defaults) in
  RateLimiter.globalActive s' = 0 /\
  RateLimiter.canRequestDomain s' "ok.example" = true /\
  RateLimiter.lastRequestTime s' !! "ok.example" = Some 1000000.
Proof.
  destruct (decrement_increment "ok.example" 1000000 Concrete.defaults)
    as (H1 & _ & H3 & _ & H5).
  - vm_compute. discriminate.
  - cbv zeta. rewrite H1, H3, H5. split; [reflexivity|]. split; [reflexivity|].
    apply lookup_insert_eq.
Defined.

(** X10, on the concrete platform. *)
Lemma decrement_floor_witness :
  RateLimiter.domainActive (RateLimiter.decrement "ok.example" Concrete.defaults)
    !! "ok.example" = Some 0 /\
  RateLimiter.globalActive (RateLimiter.decrement "ok.example" Concrete.defaults) = -1.
Proof.
  destruct (decrement_floor "ok.example" Concrete.defaults) as (_ & H2 & H3).
  - intros d n H. vm_compute in H. discriminate.
  - rewrite H2, H3. split; reflexivity.
Defined.

(** X8, on the concrete platform. *)
Lemma execute_keeps_hosts_witness :
  exists res r',
    Concrete.execute 5 "https://ok.example/a" Concrete.always_503 0
      (RateLimiter.start Concrete.defaults 1000000) = Some (res, r') /\
    is_Some (RateLimiter.domainBreakdown (RateLimiter.getStats (RateLimiter.self r'))
               !! "ok.example") /\
    (0 <= RateLimiter.domainsTracked (RateLimiter.getStats (RateLimiter.self r')))%nat.
Proof.
  destruct (Concrete.execute 5 "https://ok.example/a" Concrete.always_503 0
              (RateLimiter.start Concrete.defaults 1000000)) as [[res r']|] eqn:H;
    [|vm_compute in H; discriminate].
  exists res, r'. split; [reflexivity|].
  destruct (execute_keeps_hosts Concrete.URL_parse Concrete.timer 5
              "https://ok.example/a" Concrete.always_503 0 _ res r' H)
    as (H1 & _ & _ & H2).
  split; [exact H1|exact H2].
Defined.

(** X7, on the concrete platform. *)
Lemma execute_admits_when_due_witness :
  let cfg :=
    RateLimiter.set_lastRequestTime {[ "ok.example" := 999500 ]} Concrete.defaults in
  exists res r' rest,
    Concrete.execute 5 "https://ok.example/a" Concrete.twice_late 0
      (RateLimiter.start cfg 1000000) = Some (res, r') /\
    RateLimiter.admissions (RateLimiter.trace r') = ("ok.example", 1001500) :: rest.
Proof.
  intros cfg.
  destruct (Concrete.execute 5 "https://ok.example/a" Concrete.twice_late 0
              (RateLimiter.start cfg 1000000)) as [[res r']|] eqn:H;
    [|vm_compute in H; discriminate].
  destruct (execute_admits_when_due Concrete.URL_parse Concrete.timer cfg 5
              "https://ok.example/a" Concrete.twice_late 0
              (RateLimiter.start cfg 1000000) res r') as (rest & Hrest).
  - simpl. lia.
  - simpl. lia.
  - apply Inv_start, quiet_fresh; reflexivity.
  - exact Concrete_timer_exact.
  - exact H.
  - exists res, r', rest. split; [reflexivity|exact Hrest].
Defined.

(** X1, on the concrete platform. *)
Lemma scrapeUrl_http_error_not_retried_witness :
  exists w',
    Scraper.scrapeUrl string Concrete.URL_parse Concrete.network Concrete.robotsParser
      Concrete.timer Concrete.latency Concrete.browser 2 "https://ok.example/missing"
      (Concrete.world Concrete.defaults) =
    Some (Normal {| Scraper.url := "https://ok.example/missing";
                    Scraper.status := Scraper.error;
                    Scraper.reason := "HTTP 404";
                    Scraper.data := None |}, w') /\
    RateLimiter.fnCalls (Scraper.limiter w') = 1%nat /\
    RateLimiter.schedule (RateLimiter.trace (Scraper.limiter w')) = [RateLimiter.Attempt 0].
Proof.
  destruct (scrapeUrl_http_error_not_retried string Concrete.URL_parse Concrete.network
              Concrete.robotsParser Concrete.timer Concrete.latency Concrete.browser
              Concrete.defaults 2 "https://ok.example/missing"
              (Concrete.world Concrete.defaults))
    as (res & w' & H1 & _ & H3 & H4 & H5).
  - simpl. lia.
  - simpl. lia.
  - apply Inv_start, quiet_fresh; reflexivity.
  - lia.
  - vm_compute. reflexivity.
  - reflexivity.
  - reflexivity.
  - destruct (H5 eq_refl (Some 404) eq_refl) as [_ H6].
    rewrite (H6 404 eq_refl ltac:(lia)) in H1.
    exists w'. split; [exact H1|]. split; [exact H3|exact H4].
Defined.

(** X3, on the concrete platform. *)
Lemma scrapeUrls_fetches_robots_once_witness :
  exists results w',
    Concrete.scrapeUrls 5 Concrete.batch (Concrete.world Concrete.defaults)
      = Some (results, w') /\
    NoDup (RobotsChecker.requests (Scraper.robots w')) /\
    (length (RobotsChecker.requests (Scraper.robots w')) <= 6)%nat.
Proof.
  destruct (Concrete.scrapeUrls 5 Concrete.batch (Concrete.world Concrete.defaults))
    as [[results w']|] eqn:H; [|vm_compute in H; discriminate].
  exists results, w'. split; [reflexivity|].
  destruct (scrapeUrls_fetches_robots_once string Concrete.URL_parse Concrete.network
              Concrete.robotsParser Concrete.timer Concrete.latency Concrete.browser
              5 Concrete.batch (Concrete.world Concrete.defaults) results w'
              Concrete_parser_total (constructor_coherent) H)
    as (_ & H2 & H3 & _).
  split; [exact H2|exact H3].
Defined.

(** X2, on the concrete platform. *)
Lemma scrapeUrls_admissions_witness :
  exists results w' adm,
    Concrete.scrapeUrls 5 Concrete.batch (Concrete.world Concrete.defaults)
      = Some (results, w') /\
    RateLimiter.admissions (RateLimiter.trace (Scraper.limiter w')) = adm /\
    RateLimiter.fnCalls (Scraper.limiter w') = length adm /\
    Forall (fun a => a.1 <> "unknown") adm.
Proof.
  destruct (Concrete.scrapeUrls 5 Concrete.batch (Concrete.world Concrete.defaults))
    as [[results w']|] eqn:H; [|vm_compute in H; discriminate].
  destruct (scrapeUrls_admissions string Concrete.URL_parse Concrete.network
              Concrete.robotsParser Concrete.timer Concrete.latency Concrete.browser
              5 Concrete.batch (Concrete.world Concrete.defaults) results w' H)
    as (adm & H1 & H2 & H3).
  exists results, w', adm. split; [reflexivity|]. split; [exact H1|]. split; [exact H2|].
  eapply Forall_impl; [exact H3|].
  intros a (u & x & Hin & Hx & ->). clear -Hin Hx.
  repeat (destruct Hin as [<-|Hin];
          [vm_compute in Hx; first [discriminate|injection Hx as <-; vm_compute; discriminate]|]).
  destruct Hin.
Defined.

(** X4, on the concrete platform. *)
Lemma scrapeUrls_statistics_witness :
  exists results w',
    Concrete.scrapeUrls 5 Concrete.batch (Concrete.world Concrete.defaults)
      = Some (results, w') /\
    RunScraper.total (RunScraper.calculateStats string results) = 6 /\
    Z.of_nat (length (OutputWriter.extractRecords string results)) =
      RunScraper.successes (RunScraper.calculateStats string results).
Proof.
  destruct (Concrete.scrapeUrls 5 Concrete.batch (Concrete.world Concrete.defaults))
    as [[results w']|] eqn:H; [|vm_compute in H; discriminate].
  exists results, w'. split; [reflexivity|].
  destruct (scrapeUrls_statistics string Concrete.URL_parse Concrete.network
              Concrete.robotsParser Concrete.timer Concrete.latency Concrete.browser
              5 Concrete.batch (Concrete.world Concrete.defaults) results w' H)
    as (H1 & _ & H3 & _).
  split; [exact H1|exact H3].
Defined.

(** X22, on a browser that never opens the page: three retries, then the
    error. *)
Lemma scrapeUrl_browser_failure_retried_witness :
  exists w',
    Scraper.scrapeUrl string Concrete.URL_parse Concrete.network Concrete.robotsParser
      Concrete.timer Concrete.latency Concrete.browser 5 "https://crash.example/b"
      (Concrete.world Concrete.defaults) =
    Some (Normal {| Scraper.url := "https://crash.example/b";
                    Scraper.status := Scraper.error;
                    Scraper.reason := "browserContext.newPage: ECONNRESET";
                    Scraper.data := None |}, w') /\
    RateLimiter.fnCalls (Scraper.limiter w') = 4%nat /\
    RateLimiter.schedule (RateLimiter.trace (Scraper.limiter w')) =
      [RateLimiter.Attempt 0; RateLimiter.Wait 2000;
       RateLimiter.Attempt 1; RateLimiter.Wait 4000;
       RateLimiter.Attempt 2; RateLimiter.Wait 8000;
       RateLimiter.Attempt 3].
Proof.
  apply (scrapeUrl_browser_failure_retried string Concrete.URL_parse Concrete.network
           Concrete.robotsParser Concrete.timer Concrete.latency Concrete.browser
           Concrete.defaults 5 "https://crash.example/b"
           (Concrete.world Concrete.defaults)
           (mkError "browserContext.newPage: ECONNRESET")).
  - simpl. lia.
  - simpl. lia.
  - apply Inv_start, quiet_fresh; reflexivity.
  - vm_compute. reflexivity.
  - intros j. reflexivity.
  - simpl. lia.
Defined.

(** X23, on a page that loads, yields a record and cannot be closed. *)
Lemma scrapeUrl_close_failure_discards_result_witness :
  exists w',
    Scraper.scrapeUrl string Concrete.URL_parse Concrete.network Concrete.robotsParser
      Concrete.timer Concrete.latency Concrete.stuck_browser 2 "https://ok.example/d"
      (Concrete.world Concrete.defaults) =
    Some (Normal {| Scraper.url := "https://ok.example/d";
                    Scraper.status := Scraper.error;
                    Scraper.reason := "Target page has been closed";
                    Scraper.data := None |}, w') /\
    RateLimiter.fnCalls (Scraper.limiter w') = 1%nat.
Proof.
  apply (scrapeUrl_close_failure_discards_result string Concrete.URL_parse
           Concrete.network Concrete.robotsParser Concrete.timer Concrete.latency
           Concrete.stuck_browser Concrete.defaults 2 "https://ok.example/d"
           (Concrete.world Concrete.defaults)
           (mkError "Target page has been closed")).
  - simpl. lia.
  - simpl. lia.
  - apply Inv_start, quiet_fresh; reflexivity.
  - vm_compute. reflexivity.
  - lia.
  - reflexivity.
  - reflexivity.
  - left. reflexivity.
Defined.

(** X24, on an origin whose robots.txt denies everything. *)
Lemma isAllowed_uses_served_file_witness :
  let out :=
    RobotsChecker.isAllowed Concrete.URL_parse Concrete.network Concrete.robotsParser
      "https://closed.example/c" "*" RobotsChecker.constructor in
  out.1 = Some false /\
  RobotsChecker.requests out.2 = ["https://closed.example/robots.txt"].
Proof.
  destruct (isAllowed_uses_served_file Concrete.URL_parse Concrete.network
              Concrete.robotsParser "https://closed.example/c"
              {| protocol := "https:"; hostname := "closed.example"; port := EmptyString |}
              "*" RobotsChecker.constructor _ _ eq_refl eq_refl eq_refl eq_refl)
    as (H1 & _ & H3).
  cbv zeta. rewrite H1, H3. split; reflexivity.
Defined.
